(** * EC public keys of the openssl plugin (libstrongswan)

    A shallow embedding of
    [src/libstrongswan/plugins/openssl/openssl_ec_public_key.c]:
    signature verification for the five ECDSA schemes, fingerprints and
    encodings, reference counting, and the builder that loads a key from an
    ASN.1 blob.

    The C code works on a process-wide state (the heap of key objects, the
    native [EC_KEY] objects of OpenSSL, the encoding cache of [lib->encoding]
    and the debug log).  That state is the record [world]; every function of
    the file is a computation in the state-and-fault monad [M], where a fault
    stands for an access through a dangling or NULL pointer. *)

From Stdlib Require Import ZArith Lia Bool List String.
From Stdlib.Strings Require Import Byte.
From stdpp Require Import base option list gmap.

(** ** Chunks and big numbers *)

(** [chunk_t]: a pointer and a length, here the bytes it designates. *)
Definition chunk_t : Type := list byte.

Definition chunk_empty : chunk_t := [].

(** Pointers into the heap; NULL is [None] at the places that test for it. *)
Definition addr : Type := positive.

(** OpenSSL's [BN_bin2bn]: the bytes read as a big-endian unsigned number. *)
Definition BN_bin2bn (bytes : chunk_t) : Z :=
  fold_left (fun acc b => (acc * 256 + Z.of_N (Byte.to_N b))%Z) bytes 0%Z.

(** [ECDSA_SIG]: the two numbers of a signature. *)
Record ECDSA_SIG : Type := { sig_r : Z; sig_s : Z }.

(** ** Enumerations *)

(** [signature_scheme_t]: the five enumerators the file names; every other
    enumerator is kept by its numeric value. *)
Inductive signature_scheme_t : Type :=
| SIGN_ECDSA_WITH_NULL
| SIGN_ECDSA_WITH_SHA1
| SIGN_ECDSA_256
| SIGN_ECDSA_384
| SIGN_ECDSA_521
| SIGN_OTHER (value : N).

(** [key_encoding_type_t]: the three enumerators the file names, and the
    others by value. *)
Inductive key_encoding_type_t : Type :=
| KEY_PUB_SPKI_ASN1_DER
| KEY_ID_PUBKEY_INFO_SHA1
| KEY_ID_PUBKEY_SHA1
| KEY_ENCODING_OTHER (value : N).

(** [builder_part_t]: the one part the builder knows, and the others. *)
Inductive builder_part_t : Type :=
| BUILD_BLOB_ASN1_DER
| BUILD_OTHER (value : N).

(** [key_type_t], as far as this file uses it. *)
Inductive key_type_t : Type :=
| KEY_ECDSA
| KEY_OTHER (value : N).

(** The OpenSSL hash identifiers passed to [verify_signature]. *)
Inductive nid : Type :=
| NID_undef
| NID_sha1
| NID_sha256
| NID_sha384
| NID_sha512.

(** What [DBG1] is called with: the format string and, for the scheme
    message, the scheme printed by [%N]. *)
Inductive debug_msg : Type :=
| DBG (fmt : string)
| DBG_N (fmt : string) (scheme : signature_scheme_t).

Global Instance signature_scheme_eq_dec : EqDecision signature_scheme_t.
Proof. solve_decision. Defined.

Global Instance key_encoding_type_eq_dec : EqDecision key_encoding_type_t.
Proof. solve_decision. Defined.

Definition key_encoding_type_code (t : key_encoding_type_t) : N :=
  match t with
  | KEY_PUB_SPKI_ASN1_DER => 0
  | KEY_ID_PUBKEY_INFO_SHA1 => 1
  | KEY_ID_PUBKEY_SHA1 => 2
  | KEY_ENCODING_OTHER v => 3 + v
  end.

Definition key_encoding_type_of_code (n : N) : key_encoding_type_t :=
  match n with
  | 0%N => KEY_PUB_SPKI_ASN1_DER
  | 1%N => KEY_ID_PUBKEY_INFO_SHA1
  | 2%N => KEY_ID_PUBKEY_SHA1
  | _ => KEY_ENCODING_OTHER (n - 3)
  end.

Global Instance key_encoding_type_countable : Countable key_encoding_type_t.
Proof.
  refine (inj_countable' key_encoding_type_code key_encoding_type_of_code _).
  intros [| | |v]; try reflexivity.
  unfold key_encoding_type_code, key_encoding_type_of_code.
  destruct (3 + v)%N as [|p] eqn:E; [lia|].
  destruct p as [[p|p|]|[p|p|]|]; try lia; f_equal; lia.
Defined.

(** ** The native primitives

    OpenSSL and the crypto factory are outside this file.  The code is
    embedded over any implementation of the calls it makes. *)
Class Native : Type := {
  (** the content of a native [EC_KEY] and of its [EC_GROUP] *)
  EC_KEY : Type;
  EC_GROUP : Type;
  EC_KEY_get0_group : EC_KEY -> EC_GROUP;
  (** the macro [EC_FIELD_ELEMENT_LEN] of openssl_util.h *)
  EC_FIELD_ELEMENT_LEN : EC_GROUP -> Z;
  (** [d2i_EC_PUBKEY]: NULL when the blob does not parse *)
  d2i_EC_PUBKEY : chunk_t -> option EC_KEY;
  (** [i2d_EC_PUBKEY] and [i2o_ECPublicKey]: the bytes written *)
  i2d_EC_PUBKEY : EC_KEY -> chunk_t;
  i2o_ECPublicKey : EC_KEY -> chunk_t;
  (** [ECDSA_SIG_new]: whether the allocation succeeds *)
  ECDSA_SIG_new : bool;
  (** [d2i_ECDSA_SIG]: NULL when the bytes do not parse *)
  d2i_ECDSA_SIG : chunk_t -> option ECDSA_SIG;
  (** [ECDSA_do_verify]: 1 valid, 0 invalid, -1 error *)
  ECDSA_do_verify : chunk_t -> ECDSA_SIG -> EC_KEY -> Z;
  (** [openssl_hash_chunk] of openssl_util.c: the digest, or failure *)
  openssl_hash_chunk : nid -> chunk_t -> option chunk_t;
  (** [lib->crypto->create_hasher(lib->crypto, HASH_SHA1)] with the
      [allocate_hash] of the hasher it returns; NULL when no plugin offers
      SHA-1 *)
  create_hasher_SHA1 : option (chunk_t -> chunk_t);
  (** the allocator: the address handed out, given those in use *)
  malloc : gset addr -> addr;
  malloc_fresh : forall used : gset addr, malloc used ∉ used
}.

(** ** The state *)

(** Modelled from the spec: [refcount_t] (utils.h is not among the sources),
    the "atomic integer" of the reference count.  It is an unsigned int of C,
    32 bits wide: a number from 0 to 4294967295, whose increment and
    decrement wrap around. *)
Definition refcount_t : Type := Z.

Bind Scope Z_scope with refcount_t.

(** The increment and the decrement of an unsigned int, on the values of
    the type: [(v + 1) mod 2^32] and [(v - 1) mod 2^32]. *)
Definition refcount_inc (v : refcount_t) : refcount_t :=
  if (v =? 4294967295)%Z then 0%Z else (v + 1)%Z.

Definition refcount_dec (v : refcount_t) : refcount_t :=
  if (v =? 0)%Z then 4294967295%Z else (v - 1)%Z.

(** [private_openssl_ec_public_key_t]: the method table is the same for every
    object, so only the two data fields are kept. *)
Record private_openssl_ec_public_key_t : Type := {
  ec : option addr;
  ref : refcount_t
}.

(** The state, over the type of the native keys. *)
Record world_of (K : Type) : Type := World {
  (** the key objects allocated by [create_empty] and not yet freed *)
  objects : gmap addr private_openssl_ec_public_key_t;
  (** the native keys that were not yet given to [EC_KEY_free] *)
  ec_keys : gmap addr K;
  (** the cache of [lib->encoding], keyed by encoding type and pointer *)
  encoding : gmap (key_encoding_type_t * addr) chunk_t;
  (** the pointers given to [EC_KEY_free], oldest first *)
  freed : list addr;
  (** what [DBG1] printed, oldest first *)
  debug : list debug_msg
}.

Arguments World {K} _ _ _ _ _.
Arguments objects {K} _.
Arguments ec_keys {K} _.
Arguments encoding {K} _.
Arguments freed {K} _.
Arguments debug {K} _.

Section EcPublicKey.

Context `{Native}.

Definition world : Type := world_of EC_KEY.

Definition empty_world : world := World ∅ ∅ ∅ [] [].

(** ** The monad *)

Definition M (A : Type) : Type := world -> option (A * world).

Definition ret {A : Type} (a : A) : M A := fun w => Some (a, w).

Definition bind {A B : Type} (m : M A) (k : A -> M B) : M B :=
  fun w => match m w with
           | Some (a, w') => k a w'
           | None => None
           end.

Definition fault {A : Type} : M A := fun _ => None.

End EcPublicKey.

Declare Scope ec_scope.
Delimit Scope ec_scope with ec.
Notation "x <- m ;; k" := (bind m (fun x => k))
  (at level 100, m at next level, right associativity) : ec_scope.
Notation "m ;; k" := (bind m (fun _ => k))
  (at level 100, right associativity) : ec_scope.

Local Open Scope ec_scope.

Section Operations.

Context `{Native}.

(** ** Access to the state *)

(** Reading [*this]; a fault when the object was freed. *)
Definition read_object (this : addr) : M private_openssl_ec_public_key_t :=
  fun w => match objects w !! this with
           | Some o => Some (o, w)
           | None => None
           end.

(** Storing into [*this]. *)
Definition write_object (this : addr)
    (o : private_openssl_ec_public_key_t) : M unit :=
  fun w => match objects w !! this with
           | Some _ =>
               Some (tt, World (<[this := o]> (objects w)) (ec_keys w)
                               (encoding w) (freed w) (debug w))
           | None => None
           end.

(** [malloc_thing(private_openssl_ec_public_key_t)] *)
Definition malloc_object (o : private_openssl_ec_public_key_t) : M addr :=
  fun w => let this := malloc (dom (objects w)) in
           Some (this, World (<[this := o]> (objects w)) (ec_keys w)
                             (encoding w) (freed w) (debug w)).

(** [free(this)] *)
Definition free_object (this : addr) : M unit :=
  fun w => match objects w !! this with
           | Some _ =>
               Some (tt, World (delete this (objects w)) (ec_keys w)
                               (encoding w) (freed w) (debug w))
           | None => None
           end.

(** The native key behind an [EC_KEY*]; a fault for NULL and for a key that
    was given to [EC_KEY_free]. *)
Definition read_ec_key (e : option addr) : M EC_KEY :=
  fun w => match e with
           | Some a => match ec_keys w !! a with
                       | Some k => Some (k, w)
                       | None => None
                       end
           | None => None
           end.

(** A native key returned by OpenSSL is a new object of the native heap. *)
Definition new_ec_key (k : EC_KEY) : M addr :=
  fun w => let a := malloc (dom (ec_keys w)) in
           Some (a, World (objects w) (<[a := k]> (ec_keys w))
                          (encoding w) (freed w) (debug w)).

(** [EC_KEY_free] *)
Definition EC_KEY_free (a : addr) : M unit :=
  fun w => match ec_keys w !! a with
           | Some _ =>
               Some (tt, World (objects w) (delete a (ec_keys w))
                               (encoding w) (freed w ++ [a]) (debug w))
           | None => None
           end.

(** [DBG1] *)
Definition DBG1 (msg : debug_msg) : M unit :=
  fun w => Some (tt, World (objects w) (ec_keys w) (encoding w) (freed w)
                           (debug w ++ [msg])).

(** ** Helpers of libstrongswan that are not part of this file *)

(** Modelled from the spec: [lib->encoding->get_cache] (key_encoding.c is
    not among the sources).  "get(identity, request) -> bytes | miss". *)
Definition get_cache (type : key_encoding_type_t) (cache : addr)
    : M (option chunk_t) :=
  fun w => Some (encoding w !! (type, cache), w).

(** Modelled from the spec: [lib->encoding->cache] (key_encoding.c is not
    among the sources).  "put(identity, request, bytes)". *)
Definition cache (type : key_encoding_type_t) (cache : addr)
    (encoding_ : chunk_t) : M unit :=
  fun w => Some (tt, World (objects w) (ec_keys w)
                           (<[(type, cache) := encoding_]> (encoding w))
                           (freed w) (debug w)).

(** Modelled from the spec: [lib->encoding->clear_cache] (key_encoding.c is
    not among the sources).  "clear(identity): removes every entry for every
    request variant keyed to that identity". *)
Definition clear_cache (cache : addr) : M unit :=
  fun w => Some (tt, World (objects w) (ec_keys w)
                           (filter (fun e => snd (fst e) <> cache)
                                   (encoding w))
                           (freed w) (debug w)).

(** Modelled from the spec: [ref_get] (utils.h is not among the sources).
    "atomic increment of ref_count", on a [refcount_t]: at 4294967295 the
    count wraps to 0. *)
Definition ref_get (this : addr) : M unit :=
  o <- read_object this ;;
  write_object this {| ec := ec o; ref := refcount_inc (ref o) |}.

(** Modelled from the spec: [ref_put] (utils.h is not among the sources).
    "atomic decrement of ref_count", on a [refcount_t]: at 0 the count wraps
    to 4294967295.  It answers whether the count dropped below the
    threshold 1. *)
Definition ref_put (this : addr) : M bool :=
  o <- read_object this ;;
  write_object this {| ec := ec o; ref := refcount_dec (ref o) |} ;;
  ret (refcount_dec (ref o) <? 1)%Z.

(** Modelled from the spec: [openssl_bn_split] (openssl_util.c is not among
    the sources).  "split the signature buffer exactly in half; each half is
    a big-endian unsigned integer component; reject if length is not even".
    The call in [chunk2sig] hands it the chunk and the two numbers to fill,
    not the group, so the field size of the key is not known to it. *)
Definition openssl_bn_split (chunk : chunk_t) : option (Z * Z) :=
  if Nat.odd (length chunk) then None
  else
    let len := Nat.div2 (length chunk) in
    Some (BN_bin2bn (take len chunk), BN_bin2bn (drop len chunk)).

(** ** Signature verification *)

(** [chunk2sig]: the group is received and not used. *)
Definition chunk2sig (group : EC_GROUP) (chunk : chunk_t)
    : option ECDSA_SIG :=
  match openssl_bn_split chunk with
  | Some (r, s) => Some {| sig_r := r; sig_s := s |}
  | None => None
  end.

(** [verify_signature]: verification of a signature as in RFC 4754. *)
Definition verify_signature (this : addr) (hash_type : nid)
    (data signature : chunk_t) : M bool :=
  match (match hash_type with
         | NID_undef => Some data
         | _ => openssl_hash_chunk hash_type data
         end) with
  | None => ret false
  | Some hash =>
      if ECDSA_SIG_new then
        o <- read_object this ;;
        k <- read_ec_key (ec o) ;;
        match chunk2sig (EC_KEY_get0_group k) signature with
        | None => ret false
        | Some sig => ret (ECDSA_do_verify hash sig k =? 1)%Z
        end
      else ret false
  end.

(** The loop of [verify_default_signature] that removes any preceding
    0-bytes from the signature. *)
Fixpoint skip_zero_bytes (signature : chunk_t) : chunk_t :=
  match signature with
  | b :: rest => if Byte.eqb b x00 then skip_zero_bytes rest else signature
  | [] => signature
  end.

(** [verify_default_signature]: the default signature using SHA-1. *)
Definition verify_default_signature (this : addr)
    (data signature : chunk_t) : M bool :=
  match d2i_ECDSA_SIG (skip_zero_bytes signature) with
  | None => ret false
  | Some sig =>
      match openssl_hash_chunk NID_sha1 data with
      | None => ret false
      | Some hash =>
          o <- read_object this ;;
          k <- read_ec_key (ec o) ;;
          ret (ECDSA_do_verify hash sig k =? 1)%Z
      end
  end.

(** [get_type] *)
Definition get_type (this : addr) : key_type_t := KEY_ECDSA.

(** [verify] *)
Definition verify (this : addr) (scheme : signature_scheme_t)
    (data signature : chunk_t) : M bool :=
  match scheme with
  | SIGN_ECDSA_WITH_NULL => verify_signature this NID_undef data signature
  | SIGN_ECDSA_WITH_SHA1 => verify_default_signature this data signature
  | SIGN_ECDSA_256 => verify_signature this NID_sha256 data signature
  | SIGN_ECDSA_384 => verify_signature this NID_sha384 data signature
  | SIGN_ECDSA_521 => verify_signature this NID_sha512 data signature
  | _ =>
      DBG1 (DBG_N "signature scheme %N not supported in EC" scheme) ;;
      ret false
  end.

(** [encrypt_]: [plain] is not written. *)
Definition encrypt_ (this : addr) (crypto : chunk_t) : M bool :=
  DBG1 (DBG "EC public key encryption not implemented") ;;
  ret false.

(** [get_keysize] *)
Definition get_keysize (this : addr) : M Z :=
  o <- read_object this ;;
  k <- read_ec_key (ec o) ;;
  ret (EC_FIELD_ELEMENT_LEN (EC_KEY_get0_group k)).

(** ** Fingerprints and encodings *)

(** The tail of [openssl_ec_fingerprint]: hash [key] with SHA-1 and put the
    result into the cache. *)
Definition hash_and_cache (e : addr) (type : key_encoding_type_t)
    (key : chunk_t) : M (option chunk_t) :=
  match create_hasher_SHA1 with
  | None =>
      DBG1 (DBG "SHA1 hash algorithm not supported, fingerprinting failed") ;;
      ret None
  | Some allocate_hash =>
      let fp := allocate_hash key in
      cache type e fp ;;
      ret (Some fp)
  end.

(** [openssl_ec_fingerprint]: [Some fp] for TRUE with [*fp] written, [None]
    for FALSE. *)
Definition openssl_ec_fingerprint (e : addr) (type : key_encoding_type_t)
    : M (option chunk_t) :=
  hit <- get_cache type e ;;
  match hit with
  | Some fp => ret (Some fp)
  | None =>
      match type with
      | KEY_ID_PUBKEY_SHA1 =>
          k <- read_ec_key (Some e) ;;
          hash_and_cache e type (i2o_ECPublicKey k)
      | KEY_ID_PUBKEY_INFO_SHA1 =>
          k <- read_ec_key (Some e) ;;
          hash_and_cache e type (i2d_EC_PUBKEY k)
      | _ => ret None
      end
  end.

(** The native calls of this file are made on the key of a loaded object;
    [this->ec] is NULL only inside [load], and a call through NULL is a
    fault. *)
Definition read_ec (this : addr) : M addr :=
  o <- read_object this ;;
  match ec o with
  | Some e => ret e
  | None => fault
  end.

(** [get_fingerprint] *)
Definition get_fingerprint (this : addr) (type : key_encoding_type_t)
    : M (option chunk_t) :=
  e <- read_ec this ;;
  openssl_ec_fingerprint e type.

(** [get_encoding]: [Some encoding] for TRUE, [None] for FALSE. *)
Definition get_encoding (this : addr) (type : key_encoding_type_t)
    : M (option chunk_t) :=
  match type with
  | KEY_PUB_SPKI_ASN1_DER =>
      o <- read_object this ;;
      k <- read_ec_key (ec o) ;;
      ret (Some (i2d_EC_PUBKEY k))
  | _ => ret None
  end.

(** ** Life cycle *)

(** [get_ref]: the pointer returned is [this] itself. *)
Definition get_ref (this : addr) : M addr :=
  ref_get this ;;
  ret this.

(** [destroy] *)
Definition destroy (this : addr) : M unit :=
  last <- ref_put this ;;
  if (last : bool) then
    o <- read_object this ;;
    match ec o with
    | Some e => clear_cache e ;; EC_KEY_free e
    | None => ret tt
    end ;;
    free_object this
  else ret tt.

(** [create_empty]: the generic private constructor. *)
Definition create_empty : M addr :=
  malloc_object {| ec := None; ref := 1 |}.

(** [load]: a public key from an ASN.1 encoded blob; [None] for NULL. *)
Definition load (blob : chunk_t) : M (option addr) :=
  this <- create_empty ;;
  match d2i_EC_PUBKEY blob with
  | Some k =>
      e <- new_ec_key k ;;
      o <- read_object this ;;
      write_object this {| ec := Some e; ref := ref o |} ;;
      ret (Some this)
  | None =>
      destroy this ;;
      ret None
  end.

(** ** The builder *)

(** The [add] and [build] a [builder_t] points to: those of this file, or
    those installed by [builder_cancel]. *)
Inductive builder_t : Type :=
| EC_PUBLIC_KEY_BUILDER
| CANCELLED_BUILDER.

(** [private_builder_t] *)
Record private_builder_t : Type := {
  public : builder_t;
  key : option addr
}.

(** Modelled from the spec: [builder_cancel] (builder.c is not among the
    sources).  It "moves state to Cancelled"; [key] is left as it is. *)
Definition builder_cancel (this : private_builder_t) : private_builder_t :=
  {| public := CANCELLED_BUILDER; key := key this |}.

(** [build]: the builder is freed and its key returned. *)
Definition build (this : private_builder_t) : option addr :=
  key this.

(** [add]: [blob] is the first variadic argument, read for
    [BUILD_BLOB_ASN1_DER] only. *)
Definition add (this : private_builder_t) (part : builder_part_t)
    (blob : chunk_t) : M private_builder_t :=
  match key this, part with
  | None, BUILD_BLOB_ASN1_DER =>
      loaded <- load blob ;;
      ret {| public := public this; key := loaded |}
  | None, _ => ret (builder_cancel this)
  | Some k, _ =>
      destroy k ;;
      ret (builder_cancel this)
  end.

(** Modelled from the spec: the [add] and [build] of a cancelled builder
    (builder.c is not among the sources).  The transitions are one-way, so
    [add] leaves the state Cancelled, and [build] "returns nothing". *)
Definition cancelled_add (this : private_builder_t) (part : builder_part_t)
    (blob : chunk_t) : M private_builder_t :=
  ret this.

Definition cancelled_build (this : private_builder_t) : option addr :=
  None.

(** A call of [this->add(this, part, blob)] through the interface. *)
Definition builder_add (this : private_builder_t) (part : builder_part_t)
    (blob : chunk_t) : M private_builder_t :=
  match public this with
  | EC_PUBLIC_KEY_BUILDER => add this part blob
  | CANCELLED_BUILDER => cancelled_add this part blob
  end.

(** A call of [this->build(this)] through the interface. *)
Definition builder_build (this : private_builder_t) : option addr :=
  match public this with
  | EC_PUBLIC_KEY_BUILDER => build this
  | CANCELLED_BUILDER => cancelled_build this
  end.

(** [openssl_ec_public_key_builder] *)
Definition openssl_ec_public_key_builder (type : key_type_t)
    : option private_builder_t :=
  match type with
  | KEY_ECDSA => Some {| public := EC_PUBLIC_KEY_BUILDER; key := None |}
  | _ => None
  end.

(** A sequence of [add] calls on a builder, in order. *)
Fixpoint builder_adds (this : private_builder_t)
    (calls : list (builder_part_t * chunk_t)) : M private_builder_t :=
  match calls with
  | [] => ret this
  | (part, blob) :: rest =>
      this' <- builder_add this part blob ;;
      builder_adds this' rest
  end.

(** [n] calls of [get_ref], and [n] calls of [destroy]. *)
Fixpoint get_refs (n : nat) (this : addr) : M unit :=
  match n with
  | O => ret tt
  | S n' => get_ref this ;; get_refs n' this
  end.

Fixpoint destroys (n : nat) (this : addr) : M unit :=
  match n with
  | O => ret tt
  | S n' => destroy this ;; destroys n' this
  end.

End Operations.

(** ** A small instance of the native primitives

    ECDSA over the curve y^2 = x^3 + 2x + 2 on the field of 17 elements,
    whose points form a group of prime order 19 generated by (5, 1).  A field
    element takes one byte.  Keys and signatures are read from short
    DER-shaped encodings, and the digests are one byte long.  The instance
    serves to run the code on concrete inputs. *)
Module Toy.

Definition p : Z := 17.
Definition a : Z := 2.
Definition n : Z := 19.
Definition G : Z * Z := (5, 1)%Z.

Definition point : Type := option (Z * Z).

Definition inv_mod (x m : Z) : Z := (x ^ (m - 2) mod m)%Z.

Definition point_add (P Q : point) : point :=
  match P, Q with
  | None, _ => Q
  | _, None => P
  | Some (x1, y1), Some (x2, y2) =>
      if ((x1 =? x2) && ((y1 + y2) mod p =? 0))%Z then None
      else
        let l := (if x1 =? x2
                  then (3 * x1 * x1 + a) * inv_mod (2 * y1) p
                  else (y2 - y1) * inv_mod ((x2 - x1) mod p) p)%Z in
        let x3 := ((l * l - x1 - x2) mod p)%Z in
        Some (x3, ((l * (x1 - x3) - y1) mod p)%Z)
  end.

Fixpoint point_mul (k : nat) (P : point) : point :=
  match k with
  | O => None
  | S k' => point_add P (point_mul k' P)
  end.

Definition on_curve (x y : Z) : bool :=
  ((0 <=? x) && (x <? p) && (0 <=? y) && (y <? p)
   && ((y * y - (x * x * x + a * x + 2)) mod p =? 0))%Z.

Definition do_verify (hash : chunk_t) (sig : ECDSA_SIG) (Q : Z * Z) : Z :=
  let r := sig_r sig in
  let s := sig_s sig in
  if ((1 <=? r) && (r <? n) && (1 <=? s) && (s <? n))%Z then
    let w := inv_mod s n in
    let u1 := (BN_bin2bn hash * w mod n)%Z in
    let u2 := (r * w mod n)%Z in
    match point_add (point_mul (Z.to_nat u1) (Some G))
                    (point_mul (Z.to_nat u2) (Some Q)) with
    | Some (x, _) => if (x mod n =? r)%Z then 1%Z else 0%Z
    | None => 0%Z
    end
  else 0%Z.

Definition byte_of_Z (z : Z) : byte :=
  match Byte.of_N (Z.to_N z) with
  | Some b => b
  | None => x00
  end.

Definition Z_of_byte (b : byte) : Z := Z.of_N (Byte.to_N b).

Definition d2i_pubkey (blob : chunk_t) : option (Z * Z) :=
  match blob with
  | [x30; x03; x04; bx; by_] =>
      if on_curve (Z_of_byte bx) (Z_of_byte by_)
      then Some (Z_of_byte bx, Z_of_byte by_)
      else None
  | _ => None
  end.

Definition i2d_pubkey (Q : Z * Z) : chunk_t :=
  [x30; x03; x04; byte_of_Z (fst Q); byte_of_Z (snd Q)].

Definition i2o_pubkey (Q : Z * Z) : chunk_t :=
  [x04; byte_of_Z (fst Q); byte_of_Z (snd Q)].

Definition d2i_sig (der : chunk_t) : option ECDSA_SIG :=
  match der with
  | [x30; x06; x02; x01; br; x02; x01; bs] =>
      Some {| sig_r := Z_of_byte br; sig_s := Z_of_byte bs |}
  | _ => None
  end.

Definition digest (salt : Z) (data : chunk_t) : chunk_t :=
  [byte_of_Z (fold_left (fun acc b => (acc + Z_of_byte b)%Z) data salt
              mod 256)].

Definition hash_chunk (hash_type : nid) (data : chunk_t) : option chunk_t :=
  match hash_type with
  | NID_undef => None
  | NID_sha1 => Some (digest 1 data)
  | NID_sha256 => Some (digest 2 data)
  | NID_sha384 => Some (digest 3 data)
  | NID_sha512 => Some (digest 4 data)
  end.

(** The instance; [sha1] tells whether a plugin offers a SHA-1 hasher. *)
Definition native (sha1 : bool) : Native := {|
  EC_KEY := Z * Z;
  EC_GROUP := unit;
  EC_KEY_get0_group := fun _ => tt;
  EC_FIELD_ELEMENT_LEN := fun _ => 1%Z;
  d2i_EC_PUBKEY := d2i_pubkey;
  i2d_EC_PUBKEY := i2d_pubkey;
  i2o_ECPublicKey := i2o_pubkey;
  ECDSA_SIG_new := true;
  d2i_ECDSA_SIG := d2i_sig;
  ECDSA_do_verify := do_verify;
  openssl_hash_chunk := hash_chunk;
  create_hasher_SHA1 := if sha1 then Some (digest 1) else None;
  malloc := fresh;
  malloc_fresh := is_fresh
|}.

(** The public key 7 G = (0, 6), and its encoding. *)
Definition Q : Z * Z := (0, 6)%Z.
Definition blob : chunk_t := [x30; x03; x04; x00; x06].

(** A blob that does not parse. *)
Definition bad_blob : chunk_t := [xff].

End Toy.

(** ** The interface as a sequence of calls, and the vocabulary of the
    statements *)

Section Interface.

Context `{Native}.

(** The methods installed by [create_empty], and [load], as calls. *)
Inductive call : Type :=
| CALL_load (blob : chunk_t)
| CALL_get_type (this : addr)
| CALL_verify (this : addr) (scheme : signature_scheme_t)
              (data signature : chunk_t)
| CALL_encrypt (this : addr) (crypto : chunk_t)
| CALL_get_keysize (this : addr)
| CALL_get_fingerprint (this : addr) (type : key_encoding_type_t)
| CALL_get_encoding (this : addr) (type : key_encoding_type_t)
| CALL_get_ref (this : addr)
| CALL_destroy (this : addr).

Definition do_call (c : call) : M unit :=
  match c with
  | CALL_load blob => load blob ;; ret tt
  | CALL_get_type this => ret tt
  | CALL_verify this scheme data signature =>
      verify this scheme data signature ;; ret tt
  | CALL_encrypt this crypto => encrypt_ this crypto ;; ret tt
  | CALL_get_keysize this => get_keysize this ;; ret tt
  | CALL_get_fingerprint this type => get_fingerprint this type ;; ret tt
  | CALL_get_encoding this type => get_encoding this type ;; ret tt
  | CALL_get_ref this => get_ref this ;; ret tt
  | CALL_destroy this => destroy this
  end.

Fixpoint do_calls (cs : list call) : M unit :=
  match cs with
  | [] => ret tt
  | c :: rest => do_call c ;; do_calls rest
  end.

(** [this] points to a key object with [count] references whose native key
    [k] lives at [e]. *)
Definition key_at (w : world) (this e : addr) (k : EC_KEY) (count : Z)
    : Prop :=
  objects w !! this = Some {| ec := Some e; ref := count |}
  /\ ec_keys w !! e = Some k.

(** The cache holds entries for the pointer [e] only while a native key
    lives at [e]. *)
Definition cache_sound (w : world) (e : addr) : Prop :=
  forall type fp,
    encoding w !! (type, e) = Some fp -> is_Some (ec_keys w !! e).

(** The cache holds fingerprints of the two kinds this file computes, and
    nothing else. *)
Definition cache_supported (w : world) : Prop :=
  forall type e fp,
    encoding w !! (type, e) = Some fp ->
    type = KEY_ID_PUBKEY_SHA1 \/ type = KEY_ID_PUBKEY_INFO_SHA1.

(** Every key object holds at least one reference. *)
Definition refs_positive (w : world) : Prop :=
  forall this o, objects w !! this = Some o -> (1 <= ref o)%Z.

(** The world with an empty cache. *)
Definition without_cache (w : world) : world :=
  World (objects w) (ec_keys w) ∅ (freed w) (debug w).

(** The world after [DBG1] printed [msgs]. *)
Definition with_debug (w : world) (msgs : list debug_msg) : world :=
  World (objects w) (ec_keys w) (encoding w) (freed w) (debug w ++ msgs).

(** The schemes [verify] has a case for. *)
Definition ecdsa_scheme (scheme : signature_scheme_t) : bool :=
  match scheme with
  | SIGN_OTHER _ => false
  | _ => true
  end.

(** The schemes [verify] gives to [verify_signature], with the hash. *)
Definition raw_scheme (scheme : signature_scheme_t) : option nid :=
  match scheme with
  | SIGN_ECDSA_WITH_NULL => Some NID_undef
  | SIGN_ECDSA_256 => Some NID_sha256
  | SIGN_ECDSA_384 => Some NID_sha384
  | SIGN_ECDSA_521 => Some NID_sha512
  | _ => None
  end.

(** What [verify] hands to [ECDSA_do_verify] as the hash. *)
Definition signed_hash (scheme : signature_scheme_t) (data : chunk_t)
    : option chunk_t :=
  match scheme with
  | SIGN_ECDSA_WITH_NULL => Some data
  | SIGN_ECDSA_WITH_SHA1 => openssl_hash_chunk NID_sha1 data
  | SIGN_ECDSA_256 => openssl_hash_chunk NID_sha256 data
  | SIGN_ECDSA_384 => openssl_hash_chunk NID_sha384 data
  | SIGN_ECDSA_521 => openssl_hash_chunk NID_sha512 data
  | SIGN_OTHER _ => None
  end.

(** What [verify] hands to [ECDSA_do_verify] as the signature; [None] for a
    signature that does not decode. *)
Definition decoded_signature (scheme : signature_scheme_t)
    (signature : chunk_t) : option ECDSA_SIG :=
  match scheme with
  | SIGN_ECDSA_WITH_SHA1 => d2i_ECDSA_SIG (skip_zero_bytes signature)
  | SIGN_OTHER _ => None
  | _ =>
      match openssl_bn_split signature with
      | Some (r, s) => Some {| sig_r := r; sig_s := s |}
      | None => None
      end
  end.

(** A computation that, when it returns, has changed nothing but the
    debug log. *)
Definition only_prints {A : Type} (m : M A) : Prop :=
  forall w a w', m w = Some (a, w') -> exists msgs, w' = with_debug w msgs.

(** The world where the object at [this], with its key at [e], holds
    [count] references. *)
Definition set_count (w : world) (this e : addr) (count : Z) : world :=
  World (<[this := {| ec := Some e; ref := count |}]> (objects w))
        (ec_keys w) (encoding w) (freed w) (debug w).

(** An [add] of a blob that does not parse. *)
Definition failed_attempt (c : builder_part_t * chunk_t) : Prop :=
  fst c = BUILD_BLOB_ASN1_DER /\ d2i_EC_PUBKEY (snd c) = None.

(** The builder as [openssl_ec_public_key_builder] returns it. *)
Definition new_builder : private_builder_t :=
  {| public := EC_PUBLIC_KEY_BUILDER; key := None |}.

(** Every count is a value of [refcount_t]. *)
Definition refs_in_range (w : world) : Prop :=
  forall this o,
    objects w !! this = Some o -> (0 <= ref o < 4294967296)%Z.

(** The calls of [waiting] threads that have not started and of [holding]
    threads that have taken their reference, each thread calling [get_ref]
    and then [destroy] on [this], in one of the orders the threads can
    run: a [destroy] is the call of a thread that holds a reference.  The
    calls do not say which thread makes them, so a [destroy] of the owner
    that comes before the [destroy] of a thread gives the same order of
    calls as the two exchanged. *)
Fixpoint interleaved (this : addr) (waiting holding : nat) (cs : list call)
    : bool :=
  match cs with
  | [] => Nat.eqb waiting 0 && Nat.eqb holding 0
  | CALL_get_ref p :: rest =>
      Pos.eqb p this
      && match waiting with
         | S waiting' => interleaved this waiting' (S holding) rest
         | O => false
         end
  | CALL_destroy p :: rest =>
      Pos.eqb p this
      && match holding with
         | S holding' => interleaved this waiting holding' rest
         | O => false
         end
  | _ :: _ => false
  end.

(** How many of the calls are calls of [get_ref]. *)
Fixpoint get_ref_calls (cs : list call) : nat :=
  match cs with
  | [] => 0
  | CALL_get_ref _ :: rest => S (get_ref_calls rest)
  | _ :: rest => get_ref_calls rest
  end.

(** Every key object holds at least one reference and at most [1 + g]. *)
Definition refs_between (w : world) (g : Z) : Prop :=
  forall this o, objects w !! this = Some o -> (1 <= ref o <= 1 + g)%Z.

(** The world after [destroy] has given up the last reference to the object
    at [this], whose native key is at [e]. *)
Definition released (w : world) (this e : addr) : world :=
  World (delete this (objects w)) (delete e (ec_keys w))
        (filter (fun x => snd (fst x) <> e) (encoding w))
        (freed w ++ [e]) (debug w).

(** The object a call is made on; [load] is made on none. *)
Definition call_target (c : call) : option addr :=
  match c with
  | CALL_load _ => None
  | CALL_get_type this => Some this
  | CALL_verify this _ _ _ => Some this
  | CALL_encrypt this _ => Some this
  | CALL_get_keysize this => Some this
  | CALL_get_fingerprint this _ => Some this
  | CALL_get_encoding this _ => Some this
  | CALL_get_ref this => Some this
  | CALL_destroy this => Some this
  end.

(** Key objects and native keys correspond one to one: every object points
    to a native key that is alive, every native key is pointed to by an
    object, and no two objects point to the same native key. *)
Definition consistent (w : world) : Prop :=
  (forall this o,
     objects w !! this = Some o ->
     exists e k, ec o = Some e /\ ec_keys w !! e = Some k)
  /\ (forall e k,
        ec_keys w !! e = Some k ->
        exists this o, objects w !! this = Some o /\ ec o = Some e)
  /\ (forall p1 p2 o1 o2 e,
        objects w !! p1 = Some o1 ->
        objects w !! p2 = Some o2 ->
        ec o1 = Some e -> ec o2 = Some e -> p1 = p2).

(** What [openssl_ec_fingerprint] computes for the key [k] when the cache
    has no entry: the SHA-1 digest of the bytes of [i2o_ECPublicKey] or of
    [i2d_EC_PUBKEY], nothing for the other types and nothing without a
    hasher. *)
Definition fingerprint_of (type : key_encoding_type_t) (k : EC_KEY)
    : option chunk_t :=
  match type with
  | KEY_ID_PUBKEY_SHA1 =>
      (fun h : chunk_t -> chunk_t => h (i2o_ECPublicKey k))
        <$> create_hasher_SHA1
  | KEY_ID_PUBKEY_INFO_SHA1 =>
      (fun h : chunk_t -> chunk_t => h (i2d_EC_PUBKEY k))
        <$> create_hasher_SHA1
  | _ => None
  end.

(** Every entry of the cache is the fingerprint of the native key that
    lives at its pointer. *)
Definition cache_coherent (w : world) : Prop :=
  forall type e fp,
    encoding w !! (type, e) = Some fp ->
    exists k, ec_keys w !! e = Some k /\ fingerprint_of type k = Some fp.

End Interface.

(** ** Runs on the small instance *)

Module Run.

Import Toy.

(** The world after the key [Q] was loaded: the object is at 1 and its
    native key at 1. *)
Definition loaded (sha1 : bool) : world (H := native sha1) :=
  World {[ 1%positive := {| ec := Some 1%positive; ref := 1 |} ]}
        {[ 1%positive := Q ]} ∅ [] [].

(** A signature of the digest [x1a] under [Q]: r = 7, s = 17. *)
Definition raw_sig : chunk_t := [x07; x11].
Definition padded_sig : chunk_t := [x00; x07; x00; x11].
Definition der_sig : chunk_t := [x30; x06; x02; x01; x07; x02; x01; x11].

(** The world after the SHA-1 fingerprint of the raw point was asked for. *)
Definition cached : world (H := native true) :=
  match get_fingerprint (H := native true) 1%positive KEY_ID_PUBKEY_SHA1
                        (loaded true) with
  | Some (_, w) => w
  | None => loaded true
  end.

(** The encoding of another public key, the generator itself. *)
Definition blob_G : chunk_t := [x30; x03; x04; x05; x01].

(** The calls that lead from the empty world to [cached]. *)
Definition calls : list call :=
  [CALL_load blob; CALL_get_fingerprint 1%positive KEY_ID_PUBKEY_SHA1].

End Run.

(** * Properties *)

Section Properties.

Context `{Native}.

Implicit Types (w : world) (this e : addr) (k : EC_KEY) (count : Z).
Implicit Types (data signature : chunk_t) (scheme : signature_scheme_t).

(** ** The monad and the accessors *)

Lemma bind_Some {A B : Type} (m : M A) (f : A -> M B) w a w' :
  m w = Some (a, w') -> bind m f w = f a w'.
Proof. intros E. unfold bind. now rewrite E. Qed.

Lemma bind_inv {A B : Type} (m : M A) (f : A -> M B) w b w2 :
  bind m f w = Some (b, w2) ->
  exists a w1, m w = Some (a, w1) /\ f a w1 = Some (b, w2).
Proof.
  unfold bind. destruct (m w) as [[a w1]|]; [|discriminate].
  intros E. exists a, w1. split; [reflexivity|exact E].
Qed.

Lemma world_eta w :
  World (objects w) (ec_keys w) (encoding w) (freed w) (debug w) = w.
Proof. now destruct w. Qed.

(** ** Skipping zero bytes *)

Lemma skip_zero_bytes_app (z s : chunk_t) :
  Forall (fun b => b = x00) z ->
  skip_zero_bytes (z ++ s) = skip_zero_bytes s.
Proof.
  induction 1 as [|b z Hb _ IH]; [reflexivity|].
  subst b. simpl. exact IH.
Qed.

Lemma skip_zero_bytes_head (s : chunk_t) b rest :
  skip_zero_bytes s = b :: rest -> b <> x00.
Proof.
  induction s as [|c s IH]; simpl; [discriminate|].
  destruct (Byte.eqb c x00) eqn:E; [exact IH|].
  intros [= -> _]. now apply Byte.eqb_false.
Qed.

Lemma skip_zero_bytes_suffix (s : chunk_t) :
  exists z, Forall (fun b => b = x00) z /\ s = z ++ skip_zero_bytes s.
Proof.
  induction s as [|c s [z [Hz Hs]]]; simpl.
  - exists []. split; [constructor|reflexivity].
  - destruct (Byte.eqb c x00) eqn:E.
    + apply Byte.byte_dec_bl in E. subst c.
      exists (x00 :: z). split; [now constructor|]. simpl. now f_equal.
    + exists []. split; [constructor|reflexivity].
Qed.

(** ** Verification *)

Lemma verify_signature_spec w this e k count hash_type data signature :
  key_at w this e k count ->
  verify_signature this hash_type data signature w =
  Some (match (match hash_type with
               | NID_undef => Some data
               | _ => openssl_hash_chunk hash_type data
               end) with
        | Some hash =>
            if ECDSA_SIG_new then
              match openssl_bn_split signature with
              | Some (r, s) =>
                  (ECDSA_do_verify hash {| sig_r := r; sig_s := s |} k =? 1)%Z
              | None => false
              end
            else false
        | None => false
        end, w).
Proof.
  intros Hk. unfold verify_signature.
  destruct (match hash_type with
            | NID_undef => Some data
            | _ => openssl_hash_chunk hash_type data
            end) as [hash|]; [|reflexivity].
  destruct ECDSA_SIG_new; [|reflexivity].
  destruct Hk as [Ho Hk].
  unfold bind, read_object, read_ec_key, chunk2sig, ret.
  rewrite Ho. simpl. rewrite Hk.
  destruct (openssl_bn_split signature) as [[r s]|]; reflexivity.
Qed.

Lemma verify_default_signature_spec w this e k count data signature :
  key_at w this e k count ->
  verify_default_signature this data signature w =
  Some (match d2i_ECDSA_SIG (skip_zero_bytes signature),
              openssl_hash_chunk NID_sha1 data with
        | Some sig, Some hash => (ECDSA_do_verify hash sig k =? 1)%Z
        | _, _ => false
        end, w).
Proof.
  intros [Ho Hk]. unfold verify_default_signature.
  destruct (d2i_ECDSA_SIG (skip_zero_bytes signature)) as [sig|];
    [|reflexivity].
  destruct (openssl_hash_chunk NID_sha1 data) as [hash|]; [|reflexivity].
  unfold bind, read_object, read_ec_key, ret.
  rewrite Ho. simpl. now rewrite Hk.
Qed.

(** What [verify] returns on a key object, for every scheme. *)
Lemma verify_spec w this e k count scheme data signature :
  key_at w this e k count ->
  verify this scheme data signature w =
  Some (match signed_hash scheme data, decoded_signature scheme signature with
        | Some hash, Some sig =>
            match scheme with
            | SIGN_ECDSA_WITH_SHA1 => true
            | _ => ECDSA_SIG_new
            end && (ECDSA_do_verify hash sig k =? 1)%Z
        | _, _ => false
        end,
        with_debug w
          (if ecdsa_scheme scheme then []
           else [DBG_N "signature scheme %N not supported in EC" scheme])).
Proof.
  intros Hk.
  assert (Hw : with_debug w [] = w).
  { unfold with_debug. rewrite app_nil_r. apply world_eta. }
  destruct scheme; simpl; rewrite ?Hw;
    try (rewrite (verify_signature_spec _ _ _ _ _ _ _ _ Hk);
         unfold decoded_signature;
         repeat match goal with
                | |- context [match ?x with _ => _ end] => destruct x
                end; reflexivity).
  - rewrite (verify_default_signature_spec _ _ _ _ _ _ _ Hk).
    destruct (d2i_ECDSA_SIG _), (openssl_hash_chunk _ _); reflexivity.
  - reflexivity.
Qed.

(** ** Life cycle *)

Lemma malloc_None {A : Type} (m : gmap addr A) : m !! malloc (dom m) = None.
Proof. apply not_elem_of_dom, malloc_fresh. Qed.

Lemma refcount_dec_last (count : Z) :
  (count <= 1)%Z -> count <> 0%Z -> (refcount_dec count <? 1)%Z = true.
Proof.
  intros H1 H0. unfold refcount_dec.
  destruct (Z.eqb_spec count 0); [contradiction|].
  apply Z.ltb_lt. lia.
Qed.

Lemma refcount_dec_shared (count : Z) :
  (1 < count)%Z ->
  refcount_dec count = (count - 1)%Z /\ (refcount_dec count <? 1)%Z = false.
Proof.
  intros H1. unfold refcount_dec.
  destruct (Z.eqb_spec count 0); [lia|].
  split; [reflexivity|]. apply Z.ltb_ge. lia.
Qed.

Lemma get_ref_spec w this o :
  objects w !! this = Some o ->
  get_ref this w =
    Some (this, World (<[this := {| ec := ec o;
                                   ref := refcount_inc (ref o) |}]>
                         (objects w))
                      (ec_keys w) (encoding w) (freed w) (debug w)).
Proof.
  intros Ho. unfold get_ref, ref_get, bind, read_object, write_object, ret.
  rewrite Ho. cbn [ec ref]. rewrite Ho. reflexivity.
Qed.

(** [destroy] when the count does not drop below 1: it is decremented and
    nothing else happens. *)
Lemma destroy_counts_down w this o :
  objects w !! this = Some o ->
  (refcount_dec (ref o) <? 1)%Z = false ->
  destroy this w =
    Some (tt, World (<[this := {| ec := ec o;
                                 ref := refcount_dec (ref o) |}]>
                       (objects w))
                    (ec_keys w) (encoding w) (freed w) (debug w)).
Proof.
  intros Ho Hr.
  unfold destroy, ref_put, bind, read_object, write_object, ret.
  rewrite Ho. cbn [ec ref]. rewrite Ho, Hr. reflexivity.
Qed.

(** [destroy] on an object that is referenced more than once. *)
Lemma destroy_shared w this o :
  objects w !! this = Some o ->
  (1 < ref o)%Z ->
  destroy this w =
    Some (tt, World (<[this := {| ec := ec o; ref := (ref o - 1)%Z |}]>
                       (objects w))
                    (ec_keys w) (encoding w) (freed w) (debug w)).
Proof.
  intros Ho Hr. destruct (refcount_dec_shared _ Hr) as [E1 E2].
  rewrite (destroy_counts_down _ _ _ Ho E2). now rewrite E1.
Qed.

(** [destroy] when the count drops below 1, on an object with a native
    key. *)
Lemma destroy_releases w this e k count :
  key_at w this e k count ->
  (refcount_dec count <? 1)%Z = true ->
  destroy this w =
    Some (tt, World (delete this (objects w)) (delete e (ec_keys w))
                    (filter (fun x => snd (fst x) <> e) (encoding w))
                    (freed w ++ [e]) (debug w)).
Proof.
  intros [Ho Hk] Hc.
  unfold destroy, ref_put, bind, read_object, write_object, ret,
    clear_cache, EC_KEY_free, free_object.
  rewrite Ho. cbn [ref ec]. rewrite Ho, Hc.
  cbn [objects ec_keys encoding freed debug].
  rewrite lookup_insert_eq. cbn [ec objects ec_keys encoding freed debug].
  rewrite Hk. cbn [objects ec_keys encoding freed debug].
  rewrite lookup_insert_eq, delete_insert_eq. reflexivity.
Qed.

(** [destroy] on the last reference of an object with a native key. *)
Lemma destroy_last w this e k count :
  key_at w this e k count ->
  (count <= 1)%Z ->
  count <> 0%Z ->
  destroy this w =
    Some (tt, World (delete this (objects w)) (delete e (ec_keys w))
                    (filter (fun x => snd (fst x) <> e) (encoding w))
                    (freed w ++ [e]) (debug w)).
Proof.
  intros Hk H1 H0.
  apply (destroy_releases _ _ _ _ _ Hk (refcount_dec_last _ H1 H0)).
Qed.

(** [destroy] when the count drops below 1, on an object without a native
    key. *)
Lemma destroy_releases_empty w this count :
  objects w !! this = Some {| ec := None; ref := count |} ->
  (refcount_dec count <? 1)%Z = true ->
  destroy this w =
    Some (tt, World (delete this (objects w)) (ec_keys w) (encoding w)
                    (freed w) (debug w)).
Proof.
  intros Ho Hc.
  unfold destroy, ref_put, bind, read_object, write_object, ret, free_object.
  rewrite Ho. cbn [ref ec]. rewrite Ho, Hc.
  cbn [objects ec_keys encoding freed debug].
  rewrite lookup_insert_eq. cbn [ec objects ec_keys encoding freed debug].
  rewrite lookup_insert_eq, delete_insert_eq. reflexivity.
Qed.

(** Every way [destroy] can return. *)
Lemma destroy_inv w this w' :
  destroy this w = Some (tt, w') ->
  exists o,
    objects w !! this = Some o
    /\ (((refcount_dec (ref o) <? 1)%Z = false
         /\ w' = World (<[this := {| ec := ec o;
                                     ref := refcount_dec (ref o) |}]>
                          (objects w))
                       (ec_keys w) (encoding w) (freed w) (debug w))
        \/ ((refcount_dec (ref o) <? 1)%Z = true /\ ec o = None
            /\ w' = World (delete this (objects w)) (ec_keys w) (encoding w)
                          (freed w) (debug w))
        \/ ((refcount_dec (ref o) <? 1)%Z = true
            /\ exists e k,
                 ec o = Some e /\ ec_keys w !! e = Some k
                 /\ w' = World (delete this (objects w))
                               (delete e (ec_keys w))
                               (filter (fun x => snd (fst x) <> e)
                                       (encoding w))
                               (freed w ++ [e]) (debug w))).
Proof.
  intros Hd.
  destruct (objects w !! this) as [o|] eqn:Ho.
  2:{ unfold destroy, ref_put, bind, read_object in Hd.
      rewrite Ho in Hd. discriminate. }
  exists o. split; [reflexivity|].
  destruct (refcount_dec (ref o) <? 1)%Z eqn:Hr.
  - right. destruct o as [[e|] count]; cbn [ref ec] in *.
    + right. split; [reflexivity|].
      destruct (ec_keys w !! e) as [k|] eqn:Hk.
      * exists e, k. split; [reflexivity|]. split; [exact Hk|].
        rewrite (destroy_releases _ _ _ _ _ (conj Ho Hk) Hr) in Hd.
        congruence.
      * exfalso. revert Hd.
        unfold destroy, ref_put, bind, read_object, write_object, ret,
          clear_cache, EC_KEY_free.
        rewrite Ho. cbn [ref ec]. rewrite Ho, Hr.
        cbn [objects ec_keys encoding freed debug].
        rewrite lookup_insert_eq. cbn [ec objects ec_keys encoding freed debug].
        rewrite Hk. discriminate.
    + left. split; [reflexivity|]. split; [reflexivity|].
      rewrite (destroy_releases_empty _ _ _ Ho Hr) in Hd. congruence.
  - left. split; [reflexivity|].
    rewrite (destroy_counts_down _ _ _ Ho Hr) in Hd. congruence.
Qed.

(** [load] of a blob that parses: a new object with one reference and a new
    native key. *)
Lemma load_ok w (blob : chunk_t) k :
  d2i_EC_PUBKEY blob = Some k ->
  load blob w =
    Some (Some (malloc (dom (objects w))),
          World (<[malloc (dom (objects w)) :=
                     {| ec := Some (malloc (dom (ec_keys w))); ref := 1 |}]>
                   (objects w))
                (<[malloc (dom (ec_keys w)) := k]> (ec_keys w))
                (encoding w) (freed w) (debug w)).
Proof.
  intros Hd.
  unfold load, create_empty, bind, malloc_object, new_ec_key, read_object,
    write_object, ret.
  rewrite Hd. cbn [objects ec_keys encoding freed debug].
  rewrite lookup_insert_eq. cbn [ec ref objects ec_keys encoding freed debug].
  rewrite lookup_insert_eq, insert_insert_eq. reflexivity.
Qed.

(** [load] of a blob that does not parse: NULL, and the state as before. *)
Lemma load_fail w (blob : chunk_t) :
  d2i_EC_PUBKEY blob = None ->
  load blob w = Some (None, w).
Proof.
  intros Hd. unfold load, create_empty.
  unfold bind at 1. unfold malloc_object. rewrite Hd.
  unfold bind.
  rewrite (destroy_releases_empty _ (malloc (dom (objects w))) 1);
    cbn [objects ec_keys encoding freed debug].
  - unfold ret. rewrite delete_insert_eq, delete_id by apply malloc_None.
    now rewrite world_eta.
  - apply lookup_insert_eq.
  - reflexivity.
Qed.

Lemma load_inv w (blob : chunk_t) r w' :
  load blob w = Some (r, w') ->
  (d2i_EC_PUBKEY blob = None /\ r = None /\ w' = w)
  \/ (exists k,
        d2i_EC_PUBKEY blob = Some k
        /\ r = Some (malloc (dom (objects w)))
        /\ w' = World (<[malloc (dom (objects w)) :=
                           {| ec := Some (malloc (dom (ec_keys w)));
                              ref := 1 |}]> (objects w))
                      (<[malloc (dom (ec_keys w)) := k]> (ec_keys w))
                      (encoding w) (freed w) (debug w)).
Proof.
  intros Hl. destruct (d2i_EC_PUBKEY blob) as [k|] eqn:Hd.
  - right. exists k. rewrite (load_ok _ _ _ Hd) in Hl.
    injection Hl as <- <-. auto.
  - left. rewrite (load_fail _ _ Hd) in Hl. injection Hl as <- <-. auto.
Qed.

(** ** Computations that only print *)

Lemma with_debug_nil w : with_debug w [] = w.
Proof. unfold with_debug. rewrite app_nil_r. apply world_eta. Qed.

Lemma with_debug_app w (m1 m2 : list debug_msg) :
  with_debug (with_debug w m1) m2 = with_debug w (m1 ++ m2).
Proof. unfold with_debug. simpl. now rewrite app_assoc. Qed.

Lemma only_prints_ret {A : Type} (a : A) : only_prints (ret a).
Proof.
  intros w a' w' [= _ <-]. exists []. now rewrite with_debug_nil.
Qed.

Lemma only_prints_bind {A B : Type} (m : M A) (f : A -> M B) :
  only_prints m -> (forall a, only_prints (f a)) -> only_prints (bind m f).
Proof.
  intros Hm Hf w b w2 Hb.
  destruct (bind_inv _ _ _ _ _ Hb) as (a & w1 & H1 & H2).
  destruct (Hm _ _ _ H1) as [m1 ->].
  destruct (Hf a _ _ _ H2) as [m2 ->].
  exists (m1 ++ m2). apply with_debug_app.
Qed.

Lemma only_prints_read_object this : only_prints (read_object this).
Proof.
  intros w o w'. unfold read_object.
  destruct (objects w !! this); [|discriminate].
  intros [= _ <-]. exists []. now rewrite with_debug_nil.
Qed.

Lemma only_prints_read_ec_key (e : option addr) : only_prints (read_ec_key e).
Proof.
  intros w k w'. unfold read_ec_key.
  destruct e as [a|]; [|discriminate].
  destruct (ec_keys w !! a); [|discriminate].
  intros [= _ <-]. exists []. now rewrite with_debug_nil.
Qed.

Lemma only_prints_DBG1 (msg : debug_msg) : only_prints (DBG1 msg).
Proof. intros w [] w' [= <-]. now exists [msg]. Qed.

Create HintDb prints.

Local Hint Resolve only_prints_ret only_prints_read_object
  only_prints_read_ec_key only_prints_DBG1 : prints.

Ltac only_prints_tac :=
  repeat first
    [ apply only_prints_bind; [|intros ?]
    | solve [auto with prints]
    | match goal with
      | |- only_prints (match ?x with _ => _ end) => destruct x
      | |- only_prints (if ?x then _ else _) => destruct x
      end ].

Lemma only_prints_verify this scheme data signature :
  only_prints (verify this scheme data signature).
Proof.
  destruct scheme; simpl;
    unfold verify_signature, verify_default_signature; only_prints_tac.
Qed.

Lemma only_prints_encrypt this (crypto : chunk_t) :
  only_prints (encrypt_ this crypto).
Proof. unfold encrypt_. only_prints_tac. Qed.

Lemma only_prints_get_keysize this : only_prints (get_keysize this).
Proof. unfold get_keysize. only_prints_tac. Qed.

Lemma only_prints_get_encoding this (type : key_encoding_type_t) :
  only_prints (get_encoding this type).
Proof. unfold get_encoding. only_prints_tac. Qed.

(** ** Fingerprints *)

Lemma read_ec_key_at w this e k count :
  key_at w this e k count -> read_ec this w = Some (e, w).
Proof.
  intros [Ho _]. unfold read_ec, bind, read_object. now rewrite Ho.
Qed.

Lemma hash_and_cache_spec w e (type : key_encoding_type_t) (key : chunk_t) :
  hash_and_cache e type key w =
    Some (match create_hasher_SHA1 with
          | Some allocate_hash =>
              (Some (allocate_hash key),
               World (objects w) (ec_keys w)
                     (<[(type, e) := allocate_hash key]> (encoding w))
                     (freed w) (debug w))
          | None =>
              (None,
               with_debug w
                 [DBG "SHA1 hash algorithm not supported, fingerprinting failed"])
          end).
Proof. unfold hash_and_cache. now destruct create_hasher_SHA1. Qed.

(** A hit of the cache is returned as it is. *)
Lemma fingerprint_hit w e (type : key_encoding_type_t) (fp : chunk_t) :
  encoding w !! (type, e) = Some fp ->
  openssl_ec_fingerprint e type w = Some (Some fp, w).
Proof.
  intros Hc. unfold openssl_ec_fingerprint, bind, get_cache. now rewrite Hc.
Qed.

(** A miss, for each encoding type. *)
Lemma fingerprint_miss w e k (type : key_encoding_type_t) :
  ec_keys w !! e = Some k ->
  encoding w !! (type, e) = None ->
  openssl_ec_fingerprint e type w =
    match type with
    | KEY_ID_PUBKEY_SHA1 => hash_and_cache e type (i2o_ECPublicKey k) w
    | KEY_ID_PUBKEY_INFO_SHA1 => hash_and_cache e type (i2d_EC_PUBKEY k) w
    | _ => Some (None, w)
    end.
Proof.
  intros Hk Hc. unfold openssl_ec_fingerprint, bind, get_cache.
  rewrite Hc. destruct type; try reflexivity;
    unfold read_ec_key; now rewrite Hk.
Qed.

(** Every way [openssl_ec_fingerprint] can return. *)
Lemma fingerprint_inv w e (type : key_encoding_type_t) r w' :
  openssl_ec_fingerprint e type w = Some (r, w') ->
  (exists msgs, w' = with_debug w msgs)
  \/ (exists k fp,
        ec_keys w !! e = Some k
        /\ (type = KEY_ID_PUBKEY_SHA1 \/ type = KEY_ID_PUBKEY_INFO_SHA1)
        /\ w' = World (objects w) (ec_keys w)
                      (<[(type, e) := fp]> (encoding w))
                      (freed w) (debug w)).
Proof.
  intros Hf.
  destruct (encoding w !! (type, e)) as [fp|] eqn:Hc.
  - rewrite (fingerprint_hit _ _ _ _ Hc) in Hf. injection Hf as _ <-.
    left. exists []. now rewrite with_debug_nil.
  - destruct (ec_keys w !! e) as [k|] eqn:Hk.
    + rewrite (fingerprint_miss _ _ _ _ Hk Hc) in Hf.
      destruct type; rewrite ?hash_and_cache_spec in Hf;
        try (injection Hf as _ <-; left; exists [];
             now rewrite with_debug_nil);
        (destruct create_hasher_SHA1 as [h|]; injection Hf as _ <-;
         [right; eexists k, _; auto | left; eauto]).
    + revert Hf. unfold openssl_ec_fingerprint, bind, get_cache.
      rewrite Hc. destruct type; unfold read_ec_key; rewrite ?Hk;
        try discriminate; intros [= _ <-]; left; exists [];
        now rewrite with_debug_nil.
Qed.

(** ** The two invariants of the state *)

Lemma cache_sound_with_debug w e (msgs : list debug_msg) :
  cache_sound w e -> cache_sound (with_debug w msgs) e.
Proof. intros Hs. exact Hs. Qed.

Lemma cache_sound_empty e : cache_sound empty_world e.
Proof. intros type fp. simpl. now rewrite lookup_empty. Qed.

(** After the purge of [destroy], the cache holds nothing for the key. *)
Lemma purged_lookup (c : gmap (key_encoding_type_t * addr) chunk_t)
    (type : key_encoding_type_t) e :
  filter (fun x => snd (fst x) <> e) c !! (type, e) = None.
Proof.
  apply map_lookup_filter_None. right. intros fp _ Hne. now apply Hne.
Qed.

Lemma purged_lookup_ne (c : gmap (key_encoding_type_t * addr) chunk_t)
    (type : key_encoding_type_t) e e' :
  e' <> e ->
  filter (fun x => snd (fst x) <> e) c !! (type, e') = c !! (type, e').
Proof.
  intros Hne. destruct (c !! (type, e')) as [fp|] eqn:Hc.
  - apply map_lookup_filter_Some. split; [exact Hc|exact Hne].
  - apply map_lookup_filter_None. now left.
Qed.

Lemma destroy_cache_sound w this w' e' :
  cache_sound w e' -> destroy this w = Some (tt, w') -> cache_sound w' e'.
Proof.
  intros Hs Hd.
  destruct (destroy_inv _ _ _ Hd)
    as (o & Ho & [[_ ->]|[(_ & _ & ->)|(_ & e & k & _ & Hk & ->)]]);
    try exact Hs.
  intros type fp. cbn [encoding ec_keys].
  destruct (decide (e' = e)) as [->|Hne].
  - now rewrite purged_lookup.
  - rewrite purged_lookup_ne, lookup_delete_ne by congruence. apply Hs.
Qed.

Lemma load_cache_sound w (blob : chunk_t) r w' e :
  cache_sound w e -> load blob w = Some (r, w') -> cache_sound w' e.
Proof.
  intros Hs Hl.
  destruct (load_inv _ _ _ _ Hl) as [(_ & _ & ->)|(k & _ & _ & ->)];
    [exact Hs|].
  intros type fp Hc. cbn [encoding ec_keys] in *.
  apply lookup_insert_is_Some'. right. now apply (Hs type fp).
Qed.

Lemma get_ref_inv w this r w' :
  get_ref this w = Some (r, w') ->
  exists o,
    objects w !! this = Some o /\ r = this
    /\ w' = World (<[this := {| ec := ec o;
                                ref := refcount_inc (ref o) |}]>
                     (objects w))
                  (ec_keys w) (encoding w) (freed w) (debug w).
Proof.
  intros Hg. destruct (objects w !! this) as [o|] eqn:Ho.
  - exists o. rewrite (get_ref_spec _ _ _ Ho) in Hg.
    injection Hg as <- <-. auto.
  - unfold get_ref, ref_get, bind, read_object in Hg. rewrite Ho in Hg.
    discriminate.
Qed.

Lemma get_fingerprint_inv w this (type : key_encoding_type_t) r w' :
  get_fingerprint this type w = Some (r, w') ->
  exists e, openssl_ec_fingerprint e type w = Some (r, w').
Proof.
  unfold get_fingerprint, read_ec. intros Hg.
  destruct (bind_inv _ _ _ _ _ Hg) as (e & w1 & H1 & H2).
  destruct (bind_inv _ _ _ _ _ H1) as (o & w2 & H3 & H4).
  unfold read_object in H3.
  destruct (objects w !! this) as [o'|]; [|discriminate].
  injection H3 as <- <-.
  destruct (ec o') as [e'|]; [|discriminate].
  injection H4 as <- <-. now exists e'.
Qed.

(** Each call of the interface keeps the cache free of dead keys. *)
Lemma do_call_cache_sound (c : call) w w' e' :
  cache_sound w e' -> do_call c w = Some (tt, w') -> cache_sound w' e'.
Proof.
  intros Hs Hc. destruct c; cbn [do_call] in Hc;
    try (destruct (bind_inv _ _ _ _ _ Hc) as (r & w1 & H1 & [= <-])).
  - eapply load_cache_sound; eassumption.
  - now injection Hc as <-.
  - destruct (only_prints_verify _ _ _ _ _ _ _ H1) as [msgs ->].
    now apply cache_sound_with_debug.
  - destruct (only_prints_encrypt _ _ _ _ _ H1) as [msgs ->].
    now apply cache_sound_with_debug.
  - destruct (only_prints_get_keysize _ _ _ _ H1) as [msgs ->].
    now apply cache_sound_with_debug.
  - destruct (get_fingerprint_inv _ _ _ _ _ H1) as [e He].
    destruct (fingerprint_inv _ _ _ _ _ He)
      as [[msgs ->]|(k & fp & Hk & Hty & ->)].
    + now apply cache_sound_with_debug.
    + intros type' fp'. cbn [encoding ec_keys].
      destruct (decide ((type, e) = (type', e'))) as [[= <- <-]|Hne].
      * intros _. now exists k.
      * rewrite lookup_insert_ne by exact Hne. apply Hs.
  - destruct (only_prints_get_encoding _ _ _ _ _ H1) as [msgs ->].
    now apply cache_sound_with_debug.
  - destruct (get_ref_inv _ _ _ _ H1) as (o & _ & _ & ->). exact Hs.
  - eapply destroy_cache_sound; eassumption.
Qed.

(** The count stays a number of 32 bits. *)
Lemma refcount_inc_range (v : refcount_t) :
  (0 <= v < 4294967296)%Z -> (0 <= refcount_inc v < 4294967296)%Z.
Proof.
  intros Hv. unfold refcount_inc. destruct (Z.eqb_spec v 4294967295); lia.
Qed.

Lemma refcount_dec_range (v : refcount_t) :
  (0 <= v < 4294967296)%Z -> (0 <= refcount_dec v < 4294967296)%Z.
Proof.
  intros Hv. unfold refcount_dec. destruct (Z.eqb_spec v 0); lia.
Qed.

Lemma refcount_inc_mod (v : refcount_t) :
  (0 <= v < 4294967296)%Z -> refcount_inc v = ((v + 1) mod 4294967296)%Z.
Proof.
  intros Hv. unfold refcount_inc.
  destruct (Z.eqb_spec v 4294967295) as [->|Hne].
  - reflexivity.
  - symmetry. apply Z.mod_small. lia.
Qed.

Lemma refcount_dec_mod (v : refcount_t) :
  (0 <= v < 4294967296)%Z -> refcount_dec v = ((v - 1) mod 4294967296)%Z.
Proof.
  intros Hv. unfold refcount_dec. destruct (Z.eqb_spec v 0) as [->|Hne].
  - reflexivity.
  - symmetry. apply Z.mod_small. lia.
Qed.

Lemma refs_in_range_empty : refs_in_range empty_world.
Proof. intros this o. simpl. now rewrite lookup_empty. Qed.

Lemma refs_in_range_insert w this o' :
  refs_in_range w ->
  (0 <= ref o' < 4294967296)%Z ->
  refs_in_range (World (<[this := o']> (objects w)) (ec_keys w) (encoding w)
                       (freed w) (debug w)).
Proof.
  intros Hs Hr p o2. cbn [objects].
  destruct (decide (this = p)) as [->|Hne].
  - rewrite lookup_insert_eq. now intros [= <-].
  - rewrite lookup_insert_ne by exact Hne. apply Hs.
Qed.

Lemma destroy_refs_in_range w this w' :
  refs_in_range w -> destroy this w = Some (tt, w') -> refs_in_range w'.
Proof.
  intros Hs Hd.
  destruct (destroy_inv _ _ _ Hd)
    as (o & Ho & [[Hr ->]|[(_ & _ & ->)|(_ & e & k & _ & Hk & ->)]]).
  - apply (refs_in_range_insert w this); [exact Hs|].
    apply refcount_dec_range, (Hs _ _ Ho).
  - intros p o' Hl. cbn [objects] in Hl.
    apply lookup_delete_Some in Hl. now apply (Hs p), Hl.
  - intros p o' Hl. cbn [objects] in Hl.
    apply lookup_delete_Some in Hl. now apply (Hs p), Hl.
Qed.

Lemma load_refs_in_range w (blob : chunk_t) r w' :
  refs_in_range w -> load blob w = Some (r, w') -> refs_in_range w'.
Proof.
  intros Hs Hl.
  destruct (load_inv _ _ _ _ Hl) as [(_ & _ & ->)|(k & _ & _ & ->)];
    [exact Hs|].
  intros p o. cbn [objects].
  destruct (decide (malloc (dom (objects w)) = p)) as [->|Hne].
  - rewrite lookup_insert_eq. intros [= <-]. simpl. lia.
  - rewrite lookup_insert_ne by exact Hne. apply Hs.
Qed.

(** Each call of the interface keeps every reference count a number of 32
    bits. *)
Lemma do_call_refs_in_range (c : call) w w' :
  refs_in_range w -> do_call c w = Some (tt, w') -> refs_in_range w'.
Proof.
  intros Hs Hc. destruct c; cbn [do_call] in Hc;
    try (destruct (bind_inv _ _ _ _ _ Hc) as (r & w1 & H1 & [= <-])).
  - eapply load_refs_in_range; eassumption.
  - now injection Hc as <-.
  - destruct (only_prints_verify _ _ _ _ _ _ _ H1) as [msgs ->]. exact Hs.
  - destruct (only_prints_encrypt _ _ _ _ _ H1) as [msgs ->]. exact Hs.
  - destruct (only_prints_get_keysize _ _ _ _ H1) as [msgs ->]. exact Hs.
  - destruct (get_fingerprint_inv _ _ _ _ _ H1) as [e He].
    destruct (fingerprint_inv _ _ _ _ _ He)
      as [[msgs ->]|(k & fp & Hk & Hty & ->)]; exact Hs.
  - destruct (only_prints_get_encoding _ _ _ _ _ H1) as [msgs ->]. exact Hs.
  - destruct (get_ref_inv _ _ _ _ H1) as (o & Ho & _ & ->).
    apply (refs_in_range_insert w this); [exact Hs|].
    apply refcount_inc_range, (Hs _ _ Ho).
  - eapply destroy_refs_in_range; eassumption.
Qed.

Lemma cache_supported_empty : cache_supported empty_world.
Proof. intros type e fp. simpl. now rewrite lookup_empty. Qed.

(** Each call of the interface caches fingerprints of the two kinds only. *)
Lemma do_call_cache_supported (c : call) w w' :
  cache_supported w -> do_call c w = Some (tt, w') -> cache_supported w'.
Proof.
  intros Hs Hc. destruct c; cbn [do_call] in Hc;
    try (destruct (bind_inv _ _ _ _ _ Hc) as (r & w1 & H1 & [= <-])).
  - destruct (load_inv _ _ _ _ H1) as [(_ & _ & ->)|(k & _ & _ & ->)];
      exact Hs.
  - now injection Hc as <-.
  - destruct (only_prints_verify _ _ _ _ _ _ _ H1) as [msgs ->]. exact Hs.
  - destruct (only_prints_encrypt _ _ _ _ _ H1) as [msgs ->]. exact Hs.
  - destruct (only_prints_get_keysize _ _ _ _ H1) as [msgs ->]. exact Hs.
  - destruct (get_fingerprint_inv _ _ _ _ _ H1) as [e He].
    destruct (fingerprint_inv _ _ _ _ _ He)
      as [[msgs ->]|(k & fp & Hk & Hty & ->)]; [exact Hs|].
    intros type' e' fp'. cbn [encoding].
    destruct (decide ((type, e) = (type', e'))) as [[= <- <-]|Hne].
    + intros _. exact Hty.
    + rewrite lookup_insert_ne by exact Hne. apply Hs.
  - destruct (only_prints_get_encoding _ _ _ _ _ H1) as [msgs ->]. exact Hs.
  - destruct (get_ref_inv _ _ _ _ H1) as (o & _ & _ & ->). exact Hs.
  - destruct (destroy_inv _ _ _ Hc)
      as (o & Ho & [[_ ->]|[(_ & _ & ->)|(_ & e & k & _ & Hk & ->)]]);
      try exact Hs.
    intros type e' fp Hl. cbn [encoding] in Hl.
    apply map_lookup_filter_Some in Hl. now apply (Hs type e' fp), Hl.
Qed.

Lemma do_calls_cache_supported (cs : list call) w w' :
  cache_supported w -> do_calls cs w = Some (tt, w') -> cache_supported w'.
Proof.
  revert w. induction cs as [|c cs IH]; intros w Hs Hc.
  - now injection Hc as <-.
  - cbn [do_calls] in Hc.
    destruct (bind_inv _ _ _ _ _ Hc) as ([] & w1 & H1 & H2).
    eapply IH; [|exact H2]. eapply do_call_cache_supported; eassumption.
Qed.

Lemma do_calls_cache_sound (cs : list call) w w' e :
  cache_sound w e -> do_calls cs w = Some (tt, w') -> cache_sound w' e.
Proof.
  revert w. induction cs as [|c cs IH]; intros w Hs Hc.
  - now injection Hc as <-.
  - cbn [do_calls] in Hc.
    destruct (bind_inv _ _ _ _ _ Hc) as ([] & w1 & H1 & H2).
    eapply IH; [|exact H2]. eapply do_call_cache_sound; eassumption.
Qed.

Lemma do_calls_refs_in_range (cs : list call) w w' :
  refs_in_range w -> do_calls cs w = Some (tt, w') -> refs_in_range w'.
Proof.
  revert w. induction cs as [|c cs IH]; intros w Hs Hc.
  - now injection Hc as <-.
  - cbn [do_calls] in Hc.
    destruct (bind_inv _ _ _ _ _ Hc) as ([] & w1 & H1 & H2).
    eapply IH; [|exact H2]. eapply do_call_refs_in_range; eassumption.
Qed.

(** ** Counting references *)

Lemma set_count_id w this e k count :
  key_at w this e k count -> set_count w this e count = w.
Proof.
  intros [Ho _]. unfold set_count. rewrite insert_id by exact Ho.
  apply world_eta.
Qed.

Lemma set_count_twice w this e (c1 c2 : Z) :
  set_count (set_count w this e c1) this e c2 = set_count w this e c2.
Proof. unfold set_count. simpl. now rewrite insert_insert_eq. Qed.

Lemma key_at_set_count w this e k (c1 c2 : Z) :
  key_at w this e k c1 -> key_at (set_count w this e c2) this e k c2.
Proof.
  intros [_ Hk]. split; [apply lookup_insert_eq|exact Hk].
Qed.

Lemma get_ref_key_at w this e k count :
  key_at w this e k count ->
  get_ref this w = Some (this, set_count w this e (refcount_inc count)).
Proof. intros [Ho _]. now rewrite (get_ref_spec _ _ _ Ho). Qed.

Lemma destroy_key_at_counts_down w this e k count :
  key_at w this e k count ->
  (refcount_dec count <? 1)%Z = false ->
  destroy this w = Some (tt, set_count w this e (refcount_dec count)).
Proof. intros [Ho _] Hc. now rewrite (destroy_counts_down _ _ _ Ho Hc). Qed.

Lemma destroy_key_at_shared w this e k count :
  key_at w this e k count ->
  (1 < count)%Z ->
  destroy this w = Some (tt, set_count w this e (count - 1)).
Proof. intros [Ho _] Hc. now rewrite (destroy_shared _ _ _ Ho Hc). Qed.

(** [n] calls of [get_ref] add [n] to the count, modulo 2^32. *)
Lemma get_refs_spec (n : nat) w this e k count :
  key_at w this e k count ->
  (0 <= count < 4294967296)%Z ->
  get_refs n this w =
    Some (tt, set_count w this e ((count + Z.of_nat n) mod 4294967296)).
Proof.
  revert w count. induction n as [|n IH]; intros w count Hk Hc.
  - simpl. rewrite Z.add_0_r, Z.mod_small by exact Hc.
    rewrite (set_count_id _ _ _ _ _ Hk). reflexivity.
  - cbn [get_refs].
    rewrite (bind_Some _ _ _ _ _ (get_ref_key_at _ _ _ _ _ Hk)).
    rewrite (IH _ _ (key_at_set_count _ _ _ _ _ (refcount_inc count) Hk))
      by (apply refcount_inc_range, Hc).
    rewrite set_count_twice. do 3 f_equal.
    rewrite (refcount_inc_mod _ Hc), Zplus_mod_idemp_l. f_equal. lia.
Qed.

Lemma destroys_shared (j : nat) w this e k count :
  key_at w this e k count ->
  (Z.of_nat j < count)%Z ->
  destroys j this w = Some (tt, set_count w this e (count - Z.of_nat j)).
Proof.
  revert w count. induction j as [|j IH]; intros w count Hk Hj.
  - simpl. rewrite Z.sub_0_r, (set_count_id _ _ _ _ _ Hk). reflexivity.
  - cbn [destroys].
    rewrite (bind_Some _ _ _ _ _
               (destroy_key_at_shared _ _ _ _ _ Hk ltac:(lia))).
    rewrite (IH _ _ (key_at_set_count _ _ _ _ _ (count - 1) Hk)) by lia.
    rewrite set_count_twice. do 3 f_equal. lia.
Qed.

Lemma destroys_app (i j : nat) this w :
  destroys (i + j) this w = bind (destroys i this) (fun _ => destroys j this) w.
Proof.
  revert w. induction i as [|i IH]; intros w; [reflexivity|].
  cbn [Nat.add destroys]. unfold bind.
  destruct (destroy this w) as [[[] w1]|]; [|reflexivity].
  rewrite IH. reflexivity.
Qed.

(** The last of [count] calls of [destroy] frees the object and its key. *)
Lemma destroys_all (n : nat) w this e k :
  key_at w this e k (Z.of_nat (S n)) ->
  destroys (S n) this w =
    Some (tt, World (delete this (objects w)) (delete e (ec_keys w))
                    (filter (fun x => snd (fst x) <> e) (encoding w))
                    (freed w ++ [e]) (debug w)).
Proof.
  intros Hk. replace (S n) with (n + 1)%nat at 1 by lia.
  rewrite destroys_app.
  assert (Hn : (Z.of_nat n < Z.of_nat (S n))%Z) by lia.
  rewrite (bind_Some _ _ _ _ _ (destroys_shared n _ _ _ _ _ Hk Hn)).
  cbn [destroys].
  assert (H1 : (Z.of_nat (S n) - Z.of_nat n <= 1)%Z) by lia.
  assert (H0 : (Z.of_nat (S n) - Z.of_nat n)%Z <> 0%Z) by lia.
  rewrite (bind_Some _ _ _ _ _
             (destroy_last _ _ _ _ _
                (key_at_set_count _ _ _ _ _ _ Hk) H1 H0)).
  unfold ret, set_count. cbn [objects ec_keys encoding freed debug].
  now rewrite delete_insert_eq.
Qed.

(** ** A newly loaded key and the cache *)

Lemma fingerprint_output_miss w e k (type : key_encoding_type_t) :
  ec_keys w !! e = Some k ->
  encoding w !! (type, e) = None ->
  fst <$> openssl_ec_fingerprint e type w =
    Some (match type with
          | KEY_ID_PUBKEY_SHA1 =>
              (fun h : chunk_t -> chunk_t => h (i2o_ECPublicKey k))
                <$> create_hasher_SHA1
          | KEY_ID_PUBKEY_INFO_SHA1 =>
              (fun h : chunk_t -> chunk_t => h (i2d_EC_PUBKEY k))
                <$> create_hasher_SHA1
          | _ => None
          end).
Proof.
  intros Hk Hc. rewrite (fingerprint_miss _ _ _ _ Hk Hc).
  destruct type; rewrite ?hash_and_cache_spec; try reflexivity;
    now destruct create_hasher_SHA1.
Qed.

Lemma get_fingerprint_key_at w this e k count (type : key_encoding_type_t) :
  key_at w this e k count ->
  get_fingerprint this type w = openssl_ec_fingerprint e type w.
Proof.
  intros Hk. unfold get_fingerprint.
  now rewrite (bind_Some _ _ _ _ _ (read_ec_key_at _ _ _ _ _ Hk)).
Qed.

Lemma fingerprint_keeps_keys w e (type : key_encoding_type_t) r w' :
  openssl_ec_fingerprint e type w = Some (r, w') ->
  ec_keys w' = ec_keys w /\ objects w' = objects w.
Proof.
  intros Hf.
  destruct (fingerprint_inv _ _ _ _ _ Hf)
    as [[msgs ->]|(k & fp & _ & _ & ->)]; now split.
Qed.

(** [openssl_ec_fingerprint] returns on a live key, and a second call
    returns what the first did. *)
Lemma fingerprint_twice w e k (type : key_encoding_type_t) :
  ec_keys w !! e = Some k ->
  exists (r : option chunk_t) w1,
    openssl_ec_fingerprint e type w = Some (r, w1)
    /\ objects w1 = objects w
    /\ fst <$> openssl_ec_fingerprint e type w1 = Some r.
Proof.
  intros Hk. destruct (encoding w !! (type, e)) as [fp|] eqn:Hc.
  - exists (Some fp), w. rewrite (fingerprint_hit _ _ _ _ Hc). auto.
  - rewrite (fingerprint_miss _ _ _ _ Hk Hc).
    assert (Hnone : fst <$> openssl_ec_fingerprint e type w = Some None ->
                    exists (r : option chunk_t) w1,
                      Some (@None chunk_t, w) = Some (r, w1)
                      /\ objects w1 = objects w
                      /\ fst <$> openssl_ec_fingerprint e type w1 = Some r)
      by (intros Hn; exists None, w; auto).
    rewrite (fingerprint_output_miss _ _ _ _ Hk Hc) in Hnone.
    destruct type; try (apply Hnone; reflexivity);
      rewrite hash_and_cache_spec;
      destruct create_hasher_SHA1 as [h|] eqn:Hh.
    + eexists _, _. split; [reflexivity|]. split; [reflexivity|].
      erewrite fingerprint_hit by apply lookup_insert_eq. reflexivity.
    + eexists _, _. split; [reflexivity|]. split; [reflexivity|].
      rewrite (fingerprint_output_miss (with_debug w _) _ _ _ Hk Hc).
      now rewrite Hh.
    + eexists _, _. split; [reflexivity|]. split; [reflexivity|].
      erewrite fingerprint_hit by apply lookup_insert_eq. reflexivity.
    + eexists _, _. split; [reflexivity|]. split; [reflexivity|].
      rewrite (fingerprint_output_miss (with_debug w _) _ _ _ Hk Hc).
      now rewrite Hh.
Qed.

(** When the cache is sound for the place [load] gives to the native key,
    the object [load] has made finds nothing in the cache. *)
Lemma load_sees_no_cache w (blob : chunk_t) this w' e k count
    (type : key_encoding_type_t) :
  cache_sound w e ->
  load blob w = Some (Some this, w') ->
  key_at w' this e k count ->
  encoding w' !! (type, e) = None.
Proof.
  intros Hs Hl [Ho Hk].
  destruct (load_inv _ _ _ _ Hl) as [(_ & [=] & _)|(k0 & _ & [= ->] & ->)].
  cbn [objects ec_keys encoding] in *.
  rewrite lookup_insert_eq in Ho. injection Ho as <- _.
  destruct (encoding w !! (type, malloc (dom (ec_keys w)))) as [fp|] eqn:Hc;
    [|reflexivity].
  destruct (Hs _ _ Hc) as [k1 Hk1].
  now rewrite malloc_None in Hk1.
Qed.

(** ** Signatures of two concatenated numbers *)

Lemma BN_bin2bn_snoc (l : chunk_t) (b : byte) :
  BN_bin2bn (l ++ [b]) = (BN_bin2bn l * 256 + Z.of_N (Byte.to_N b))%Z.
Proof. unfold BN_bin2bn. now rewrite fold_left_app. Qed.

Lemma BN_bin2bn_nonneg (l : chunk_t) : (0 <= BN_bin2bn l)%Z.
Proof.
  induction l as [|b l IH] using rev_ind; [reflexivity|].
  rewrite BN_bin2bn_snoc. lia.
Qed.

Lemma BN_bin2bn_zeros (j : nat) (r : chunk_t) :
  BN_bin2bn (replicate j x00 ++ r) = BN_bin2bn r.
Proof. unfold BN_bin2bn. induction j as [|j IH]; [reflexivity|exact IH]. Qed.

Lemma openssl_bn_split_halves (r s : chunk_t) :
  length r = length s ->
  openssl_bn_split (r ++ s) = Some (BN_bin2bn r, BN_bin2bn s).
Proof.
  intros Hl. unfold openssl_bn_split.
  assert (Hlen : length (r ++ s) = (2 * length r)%nat)
    by (rewrite length_app; lia).
  rewrite Hlen, Nat.odd_mul, Nat.div2_double. simpl.
  now rewrite take_app_length, drop_app_length.
Qed.

Lemma openssl_bn_split_padded (r s : chunk_t) (j : nat) :
  length r = length s ->
  openssl_bn_split (replicate j x00 ++ r ++ replicate j x00 ++ s) =
  openssl_bn_split (r ++ s).
Proof.
  intros Hl. rewrite (openssl_bn_split_halves r s Hl).
  rewrite (app_assoc (replicate j x00) r).
  rewrite openssl_bn_split_halves
    by (rewrite !length_app, !length_replicate; lia).
  now rewrite !BN_bin2bn_zeros.
Qed.

Lemma verify_signature_same_split w this (hash_type : nid) data
    (s1 s2 : chunk_t) :
  openssl_bn_split s1 = openssl_bn_split s2 ->
  verify_signature this hash_type data s1 w =
  verify_signature this hash_type data s2 w.
Proof.
  intros Hs. unfold verify_signature, chunk2sig. now rewrite Hs.
Qed.

(** ** The builder *)

Lemma builder_adds_app (b : private_builder_t)
    (cs1 cs2 : list (builder_part_t * chunk_t)) w :
  builder_adds b (cs1 ++ cs2) w =
  bind (builder_adds b cs1) (fun b' => builder_adds b' cs2) w.
Proof.
  revert b w. induction cs1 as [|[part blob] cs1 IH]; intros b w;
    [reflexivity|].
  cbn [app builder_adds]. unfold bind.
  destruct (builder_add b part blob w) as [[b1 w1]|]; [|reflexivity].
  rewrite IH. reflexivity.
Qed.

(** A cancelled builder stays as it is. *)
Lemma builder_adds_cancelled (b : private_builder_t)
    (cs : list (builder_part_t * chunk_t)) w :
  public b = CANCELLED_BUILDER -> builder_adds b cs w = Some (b, w).
Proof.
  intros Hb. revert w. induction cs as [|[part blob] cs IH]; intros w;
    [reflexivity|].
  cbn [builder_adds]. unfold bind, builder_add. rewrite Hb.
  unfold cancelled_add, ret. apply IH.
Qed.

(** Blobs that do not parse leave the builder and the state as they were. *)
Lemma builder_adds_failed (pre : list (builder_part_t * chunk_t)) w :
  Forall failed_attempt pre ->
  builder_adds new_builder pre w = Some (new_builder, w).
Proof.
  induction 1 as [|[part blob] pre [Hp Hd] _ IH]; [reflexivity|].
  simpl in Hp, Hd. subst part.
  cbn [builder_adds]. unfold bind at 1. unfold builder_add; simpl.
  change (add new_builder BUILD_BLOB_ASN1_DER blob w)
    with (bind (load blob)
               (fun loaded => ret {| public := EC_PUBLIC_KEY_BUILDER;
                                     key := loaded |}) w).
  rewrite (bind_Some _ _ _ _ _ (load_fail _ _ Hd)). exact IH.
Qed.

Lemma builder_add_loads w (blob : chunk_t) k :
  d2i_EC_PUBKEY blob = Some k ->
  builder_add new_builder BUILD_BLOB_ASN1_DER blob w =
    Some ({| public := EC_PUBLIC_KEY_BUILDER;
             key := Some (malloc (dom (objects w))) |},
          World (<[malloc (dom (objects w)) :=
                     {| ec := Some (malloc (dom (ec_keys w))); ref := 1 |}]>
                   (objects w))
                (<[malloc (dom (ec_keys w)) := k]> (ec_keys w))
                (encoding w) (freed w) (debug w)).
Proof.
  intros Hd. unfold builder_add; simpl.
  change (add new_builder BUILD_BLOB_ASN1_DER blob w)
    with (bind (load blob)
               (fun loaded => ret {| public := EC_PUBLIC_KEY_BUILDER;
                                     key := loaded |}) w).
  now rewrite (bind_Some _ _ _ _ _ (load_ok _ _ _ Hd)).
Qed.

(** Any [add] on a builder that holds a key destroys the key and cancels. *)
Lemma builder_add_holding w this e k (part : builder_part_t)
    (blob : chunk_t) :
  key_at w this e k 1 ->
  builder_add {| public := EC_PUBLIC_KEY_BUILDER; key := Some this |}
              part blob w =
    Some ({| public := CANCELLED_BUILDER; key := Some this |},
          World (delete this (objects w)) (delete e (ec_keys w))
                (filter (fun x => snd (fst x) <> e) (encoding w))
                (freed w ++ [e]) (debug w)).
Proof.
  intros Hk. unfold builder_add; simpl. unfold add; simpl.
  assert (Hc : (refcount_dec 1 <? 1)%Z = true) by reflexivity.
  now rewrite (bind_Some _ _ _ _ _ (destroy_releases _ _ _ _ _ Hk Hc)).
Qed.

(** The calls up to the first one that is not a blob that fails to parse. *)
Lemma split_failed (calls : list (builder_part_t * chunk_t)) :
  exists pre rest,
    calls = pre ++ rest
    /\ Forall failed_attempt pre
    /\ (rest = [] \/ exists c rest', rest = c :: rest' /\ ~ failed_attempt c).
Proof.
  induction calls as [|[part blob] calls (pre & rest & -> & Hpre & Hrest)].
  - exists [], []. split; [reflexivity|]. split; [constructor|now left].
  - destruct part as [|v].
    + destruct (d2i_EC_PUBKEY blob) as [k|] eqn:Hd.
      * exists [], ((BUILD_BLOB_ASN1_DER, blob) :: pre ++ rest).
        split; [reflexivity|]. split; [constructor|]. right.
        eexists _, _. split; [reflexivity|].
        intros [_ Hn]. simpl in Hn. congruence.
      * exists ((BUILD_BLOB_ASN1_DER, blob) :: pre), rest.
        split; [reflexivity|]. split; [|exact Hrest].
        constructor; [now split|exact Hpre].
    + exists [], ((BUILD_OTHER v, blob) :: pre ++ rest).
      split; [reflexivity|]. split; [constructor|]. right.
      eexists _, _. split; [reflexivity|]. intros [Hn _]. discriminate.
Qed.

(** The three ways a sequence of [add] calls on a new builder can end:
    nothing but blobs that failed to parse; such blobs and then one that
    parsed, as the last call; or a cancelled builder. *)
Lemma builder_adds_outcome w (calls : list (builder_part_t * chunk_t)) :
  exists b w',
    builder_adds new_builder calls w = Some (b, w')
    /\ ((Forall failed_attempt calls /\ b = new_builder /\ w' = w)
        \/ (exists pre blob k,
              calls = pre ++ [(BUILD_BLOB_ASN1_DER, blob)]
              /\ Forall failed_attempt pre
              /\ d2i_EC_PUBKEY blob = Some k
              /\ b = {| public := EC_PUBLIC_KEY_BUILDER;
                        key := Some (malloc (dom (objects w))) |}
              /\ key_at w' (malloc (dom (objects w)))
                           (malloc (dom (ec_keys w))) k 1)
        \/ (exists pre c rest,
              calls = pre ++ c :: rest
              /\ Forall failed_attempt pre
              /\ public b = CANCELLED_BUILDER
              /\ objects w' = objects w
              /\ ec_keys w' = ec_keys w
              /\ ((exists value, fst c = BUILD_OTHER value)
                  \/ (exists k,
                        fst c = BUILD_BLOB_ASN1_DER
                        /\ d2i_EC_PUBKEY (snd c) = Some k
                        /\ rest <> []
                        /\ freed w' =
                             freed w ++ [malloc (dom (ec_keys w))])))).
Proof.
  destruct (split_failed calls)
    as (pre & rest & -> & Hpre & [->|([part blob] & rest' & -> & Hc)]).
  - rewrite app_nil_r. exists new_builder, w.
    split; [now apply builder_adds_failed|]. left. auto.
  - rewrite builder_adds_app.
    rewrite (bind_Some _ _ _ _ _ (builder_adds_failed pre w Hpre)).
    cbn [builder_adds]. destruct part as [|v].
    + destruct (d2i_EC_PUBKEY blob) as [k|] eqn:Hd;
        [|exfalso; apply Hc; now split].
      rewrite (bind_Some _ _ _ _ _ (builder_add_loads w blob k Hd)).
      set (w1 := World _ _ _ _ _).
      assert (Hk : key_at w1 (malloc (dom (objects w)))
                          (malloc (dom (ec_keys w))) k 1)
        by (split; apply lookup_insert_eq).
      destruct rest' as [|[part2 blob2] rest2].
      * eexists _, w1. split; [reflexivity|]. right. left.
        exists pre, blob, k. auto.
      * cbn [builder_adds].
        rewrite (bind_Some _ _ _ _ _
                   (builder_add_holding w1 _ _ _ part2 blob2 Hk)).
        rewrite builder_adds_cancelled by reflexivity.
        eexists _, _. split; [reflexivity|]. right. right.
        exists pre, (BUILD_BLOB_ASN1_DER, blob), ((part2, blob2) :: rest2).
        split; [reflexivity|]. split; [exact Hpre|].
        split; [reflexivity|].
        subst w1. cbn [objects ec_keys encoding freed debug].
        rewrite !delete_insert_eq, !delete_id by apply malloc_None.
        split; [reflexivity|]. split; [reflexivity|]. right.
        exists k. simpl. auto.
    + assert (Hadd : builder_add new_builder (BUILD_OTHER v) blob w =
                     Some (builder_cancel new_builder, w)) by reflexivity.
      rewrite (bind_Some _ _ _ _ _ Hadd).
      rewrite builder_adds_cancelled by reflexivity.
      eexists _, _. split; [reflexivity|]. right. right.
      exists pre, (BUILD_OTHER v, blob), rest'.
      split; [reflexivity|]. split; [exact Hpre|].
      split; [reflexivity|]. split; [reflexivity|]. split; [reflexivity|].
      left. now exists v.
Qed.

Lemma do_calls_app (cs1 cs2 : list call) w :
  do_calls (cs1 ++ cs2) w = bind (do_calls cs1) (fun _ => do_calls cs2) w.
Proof.
  revert w. induction cs1 as [|c cs1 IH]; intros w; [reflexivity|].
  cbn [app do_calls]. unfold bind.
  destruct (do_call c w) as [[[] w1]|]; [|reflexivity].
  rewrite IH. reflexivity.
Qed.

(** ** Counts that do not wrap *)

Lemma refs_between_positive w (g : Z) : refs_between w g -> refs_positive w.
Proof. intros Hs this o Ho. apply (Hs _ _ Ho). Qed.

Lemma refs_between_empty (g : Z) : refs_between empty_world g.
Proof. intros this o. simpl. now rewrite lookup_empty. Qed.

Lemma refs_between_insert w this o' (g : Z) :
  refs_between w g ->
  (1 <= ref o' <= 1 + g)%Z ->
  refs_between (World (<[this := o']> (objects w)) (ec_keys w) (encoding w)
                      (freed w) (debug w)) g.
Proof.
  intros Hs Hr p o2. cbn [objects].
  destruct (decide (this = p)) as [->|Hne].
  - rewrite lookup_insert_eq. now intros [= <-].
  - rewrite lookup_insert_ne by exact Hne. apply Hs.
Qed.

Lemma refs_between_delete w this e (g : Z) :
  refs_between w g -> refs_between (released w this e) g.
Proof.
  intros Hs p o Hl. cbn [released objects] in Hl.
  apply lookup_delete_Some in Hl. now apply (Hs p), Hl.
Qed.

(** While fewer than 4294967295 calls of [get_ref] have been made, no count
    wraps: each call keeps every count between 1 and 1 plus the number of
    these calls. *)
Lemma do_call_refs_between (c : call) w w' (g : Z) :
  (0 <= g)%Z ->
  refs_between w g ->
  (g + Z.of_nat (get_ref_calls [c]) < 4294967295)%Z ->
  do_call c w = Some (tt, w') ->
  refs_between w' (g + Z.of_nat (get_ref_calls [c])).
Proof.
  intros Hg Hs Hb Hc. destruct c; cbn [get_ref_calls] in *;
    rewrite ?Z.add_0_r in *; cbn [do_call] in Hc;
    try (destruct (bind_inv _ _ _ _ _ Hc) as (r & w1 & H1 & [= <-])).
  - destruct (load_inv _ _ _ _ H1) as [(_ & _ & ->)|(k & _ & _ & ->)];
      [exact Hs|].
    apply (refs_between_insert w); [exact Hs|]. simpl. lia.
  - now injection Hc as <-.
  - destruct (only_prints_verify _ _ _ _ _ _ _ H1) as [msgs ->]. exact Hs.
  - destruct (only_prints_encrypt _ _ _ _ _ H1) as [msgs ->]. exact Hs.
  - destruct (only_prints_get_keysize _ _ _ _ H1) as [msgs ->]. exact Hs.
  - destruct (get_fingerprint_inv _ _ _ _ _ H1) as [e He].
    destruct (fingerprint_inv _ _ _ _ _ He)
      as [[msgs ->]|(k & fp & Hk & Hty & ->)]; exact Hs.
  - destruct (only_prints_get_encoding _ _ _ _ _ H1) as [msgs ->]. exact Hs.
  - destruct (get_ref_inv _ _ _ _ H1) as (o & Ho & _ & ->).
    pose proof (Hs _ _ Ho) as Hr.
    apply (refs_between_insert w).
    + intros p o2 Hp. pose proof (Hs _ _ Hp). lia.
    + cbn [ref]. unfold refcount_inc.
      destruct (Z.eqb_spec (ref o) 4294967295); lia.
  - destruct (destroy_inv _ _ _ Hc)
      as (o & Ho & [[Hr ->]|[(_ & _ & ->)|(_ & e & k & _ & Hk & ->)]]).
    + pose proof (Hs _ _ Ho) as Hr'.
      apply (refs_between_insert w); [exact Hs|]. cbn [ref].
      apply Z.ltb_ge in Hr. revert Hr. unfold refcount_dec.
      destruct (Z.eqb_spec (ref o) 0); lia.
    + intros p o' Hl. cbn [objects] in Hl.
      apply lookup_delete_Some in Hl. now apply (Hs p), Hl.
    + apply (refs_between_delete w this e _ Hs).
Qed.

Lemma get_ref_calls_cons (c : call) (cs : list call) :
  get_ref_calls (c :: cs) = (get_ref_calls [c] + get_ref_calls cs)%nat.
Proof. now destruct c. Qed.

Lemma do_calls_refs_between (cs : list call) w w' (g : Z) :
  (0 <= g)%Z ->
  refs_between w g ->
  (g + Z.of_nat (get_ref_calls cs) < 4294967295)%Z ->
  do_calls cs w = Some (tt, w') ->
  refs_between w' (g + Z.of_nat (get_ref_calls cs)).
Proof.
  revert w g. induction cs as [|c cs IH]; intros w g Hg Hs Hb Hc.
  - injection Hc as <-. simpl. now rewrite Z.add_0_r.
  - cbn [do_calls] in Hc. rewrite get_ref_calls_cons in Hb |- *.
    destruct (bind_inv _ _ _ _ _ Hc) as ([] & w1 & H1 & H2).
    rewrite Nat2Z.inj_add, Z.add_assoc in Hb |- *.
    apply (IH w1); [lia| |exact Hb|exact H2].
    apply (do_call_refs_between c w); [exact Hg|exact Hs|lia|exact H1].
Qed.

(** ** Threads that take and give up a reference *)

Lemma key_at_count_range w this e k (v : Z) :
  key_at w this e k (v mod 4294967296) ->
  (0 <= v mod 4294967296 < 4294967296)%Z.
Proof. intros _. apply Z.mod_pos_bound. lia. Qed.

(** One more thread takes its reference. *)
Lemma get_ref_holding w this e k (holding : nat) :
  key_at w this e k ((1 + Z.of_nat holding) mod 4294967296) ->
  do_call (CALL_get_ref this) w =
    Some (tt, set_count w this e
                ((1 + Z.of_nat (S holding)) mod 4294967296)).
Proof.
  intros Hk. cbn [do_call].
  rewrite (bind_Some _ _ _ _ _ (get_ref_key_at _ _ _ _ _ Hk)).
  rewrite (refcount_inc_mod _ (key_at_count_range _ _ _ _ _ Hk)).
  rewrite Zplus_mod_idemp_l. unfold ret.
  replace (1 + Z.of_nat holding + 1)%Z with (1 + Z.of_nat (S holding))%Z
    by lia.
  reflexivity.
Qed.

(** One of fewer than 2^32 threads gives up its reference: the count does
    not drop below 1. *)
Lemma destroy_holding w this e k (holding : nat) :
  key_at w this e k ((1 + Z.of_nat (S holding)) mod 4294967296) ->
  (Z.of_nat (S holding) < 4294967296)%Z ->
  do_call (CALL_destroy this) w =
    Some (tt, set_count w this e ((1 + Z.of_nat holding) mod 4294967296)).
Proof.
  intros Hk Hb. cbn [do_call].
  assert (Hdec : refcount_dec ((1 + Z.of_nat (S holding)) mod 4294967296) =
                 ((1 + Z.of_nat holding) mod 4294967296)%Z).
  { rewrite (refcount_dec_mod _ (key_at_count_range _ _ _ _ _ Hk)).
    rewrite Zminus_mod_idemp_l. f_equal. lia. }
  rewrite (destroy_key_at_counts_down _ _ _ _ _ Hk); rewrite Hdec.
  - reflexivity.
  - apply Z.ltb_ge. rewrite Z.mod_small; lia.
Qed.

(** The calls of an interleaving of fewer than 2^32 threads, up to any place:
    they all return, and leave the object with the owner's reference and one
    reference for each thread that holds one. *)
Lemma interleaved_prefix (cs1 cs2 : list call) w this e k
    (waiting holding : nat) :
  key_at w this e k ((1 + Z.of_nat holding) mod 4294967296) ->
  (Z.of_nat (waiting + holding) < 4294967296)%Z ->
  interleaved this waiting holding (cs1 ++ cs2) = true ->
  exists waiting' holding' : nat,
    do_calls cs1 w =
      Some (tt, set_count w this e
                  ((1 + Z.of_nat holding') mod 4294967296))
    /\ interleaved this waiting' holding' cs2 = true
    /\ (waiting' + holding' <= waiting + holding)%nat.
Proof.
  revert w waiting holding.
  induction cs1 as [|c cs1 IH]; intros w waiting holding Hk Hb Hi.
  - exists waiting, holding. cbn [do_calls]. unfold ret.
    rewrite (set_count_id _ _ _ _ _ Hk). auto.
  - cbn [app interleaved] in Hi. cbn [do_calls].
    destruct c as [| | | | | | |p|p]; try discriminate;
      apply andb_true_iff in Hi; destruct Hi as [Hp Hi];
      apply Pos.eqb_eq in Hp; subst p.
    + destruct waiting as [|waiting]; [discriminate|].
      rewrite (bind_Some _ _ _ _ _ (get_ref_holding _ _ _ _ _ Hk)).
      destruct (IH _ waiting (S holding)
                   (key_at_set_count _ _ _ _ _ _ Hk) ltac:(lia) Hi)
        as (waiting' & holding' & Hd & Hi' & Hle).
      exists waiting', holding'. rewrite Hd, set_count_twice.
      split; [reflexivity|]. split; [exact Hi'|lia].
    + destruct holding as [|holding]; [discriminate|].
      assert (Hh : (Z.of_nat (S holding) < 4294967296)%Z) by lia.
      rewrite (bind_Some _ _ _ _ _ (destroy_holding _ _ _ _ _ Hk Hh)).
      destruct (IH _ waiting holding
                   (key_at_set_count _ _ _ _ _ _ Hk) ltac:(lia) Hi)
        as (waiting' & holding' & Hd & Hi' & Hle).
      exists waiting', holding'. rewrite Hd, set_count_twice.
      split; [reflexivity|]. split; [exact Hi'|lia].
Qed.

Lemma interleaved_get_refs this (n holding : nat) (cs : list call) :
  interleaved this n holding (replicate n (CALL_get_ref this) ++ cs) =
  interleaved this 0 (holding + n) cs.
Proof.
  revert holding. induction n as [|n IH]; intros holding.
  - now rewrite Nat.add_0_r.
  - cbn [replicate app interleaved]. rewrite Pos.eqb_refl, IH.
    simpl. f_equal. lia.
Qed.

Lemma interleaved_destroys this (holding : nat) :
  interleaved this 0 holding (replicate holding (CALL_destroy this)) = true.
Proof.
  induction holding as [|holding IH]; [reflexivity|].
  cbn [replicate interleaved]. now rewrite Pos.eqb_refl.
Qed.

Lemma do_calls_get_refs (n : nat) this w :
  do_calls (replicate n (CALL_get_ref this)) w = get_refs n this w.
Proof.
  revert w. induction n as [|n IH]; intros w; [reflexivity|].
  cbn [replicate do_calls do_call get_refs]. unfold bind.
  destruct (get_ref this w) as [[r w1]|]; [|reflexivity].
  unfold ret. apply IH.
Qed.

Lemma destroy_released w this e :
  destroy this (released w this e) = None.
Proof.
  unfold destroy, ref_put, bind, read_object. cbn [released objects].
  now rewrite lookup_delete_eq.
Qed.

Lemma get_ref_released w this e :
  get_ref this (released w this e) = None.
Proof.
  unfold get_ref, ref_get, bind, read_object. cbn [released objects].
  now rewrite lookup_delete_eq.
Qed.

(** When the count has come back to 1 after [n] calls of [get_ref], the first
    [destroy] releases, and the second finds a freed object. *)
Lemma wrapped_count_run w this e k (n : nat) :
  key_at w this e k 1 ->
  ((1 + Z.of_nat n) mod 4294967296 = 1)%Z ->
  (2 <= n)%nat ->
  interleaved this n 0
    (replicate n (CALL_get_ref this) ++ replicate n (CALL_destroy this)) = true
  /\ do_calls (replicate n (CALL_get_ref this)) w = Some (tt, w)
  /\ do_calls (replicate n (CALL_get_ref this) ++ [CALL_destroy this]) w =
       Some (tt, released w this e)
  /\ do_calls (replicate n (CALL_get_ref this)
                 ++ replicate n (CALL_destroy this)) w = None.
Proof.
  intros Hk Hn H2.
  assert (Hg : do_calls (replicate n (CALL_get_ref this)) w = Some (tt, w)).
  { rewrite do_calls_get_refs.
    rewrite (get_refs_spec n _ _ _ _ _ Hk) by lia.
    now rewrite Hn, (set_count_id _ _ _ _ _ Hk). }
  assert (Hd : destroy this w = Some (tt, released w this e)).
  { apply (destroy_releases _ _ _ _ _ Hk). reflexivity. }
  split; [|split; [exact Hg|split]].
  - rewrite interleaved_get_refs. apply interleaved_destroys.
  - rewrite do_calls_app, (bind_Some _ _ _ _ _ Hg). cbn [do_calls do_call].
    now rewrite (bind_Some _ _ _ _ _ Hd).
  - rewrite do_calls_app, (bind_Some _ _ _ _ _ Hg).
    destruct n as [|[|n]]; [lia|lia|].
    cbn [replicate do_calls do_call].
    rewrite (bind_Some _ _ _ _ _ Hd).
    unfold bind. now rewrite destroy_released.
Qed.

(** C1, as amended: on a key object, [verify] returns a boolean for every
    scheme, data and signature, and never faults.  The boolean is [false]
    when the scheme is none of the five ECDSA schemes, [false] when the
    signature does not decode, and [false] when [ECDSA_do_verify] does not
    answer 1.  A signature does not decode, for the four schemes of two
    concatenated numbers, exactly when its length is odd, and for
    SIGN_ECDSA_WITH_SHA1 when what follows its leading zero bytes is no DER
    signature; a signature that decodes is not looked at any further,
    whatever its length: the answer of [ECDSA_do_verify] is the result.  The
    state is left as it was, except that [DBG1] prints one message, naming
    the scheme, exactly when the scheme is none of the five. *)
Theorem verify_returns_bool w this e k count scheme data signature :
  key_at w this e k count ->
  exists b : bool,
    verify this scheme data signature w =
      Some (b, with_debug w
                 (if ecdsa_scheme scheme then []
                  else [DBG_N "signature scheme %N not supported in EC"
                              scheme]))
    /\ (ecdsa_scheme scheme = true <->
        In scheme [SIGN_ECDSA_WITH_NULL; SIGN_ECDSA_WITH_SHA1;
                   SIGN_ECDSA_256; SIGN_ECDSA_384; SIGN_ECDSA_521])
    /\ (ecdsa_scheme scheme = false -> b = false)
    /\ (decoded_signature scheme signature = None -> b = false)
    /\ (forall hash sig,
          signed_hash scheme data = Some hash ->
          decoded_signature scheme signature = Some sig ->
          ECDSA_do_verify hash sig k <> 1%Z ->
          b = false)
    /\ (forall hash_type : nid,
          raw_scheme scheme = Some hash_type ->
          (decoded_signature scheme signature = None <->
           Nat.odd (length signature) = true)
          /\ (Nat.odd (length signature) = false ->
              decoded_signature scheme signature =
                Some {| sig_r := BN_bin2bn (take (Nat.div2 (length signature))
                                                signature);
                        sig_s := BN_bin2bn (drop (Nat.div2 (length signature))
                                                signature) |}))
    /\ (scheme = SIGN_ECDSA_WITH_SHA1 ->
        decoded_signature scheme signature =
          d2i_ECDSA_SIG (skip_zero_bytes signature))
    /\ (forall hash sig,
          signed_hash scheme data = Some hash ->
          decoded_signature scheme signature = Some sig ->
          scheme = SIGN_ECDSA_WITH_SHA1 \/ ECDSA_SIG_new = true ->
          b = (ECDSA_do_verify hash sig k =? 1)%Z).
Proof.
  intros Hk. eexists. split; [apply (verify_spec _ _ _ _ _ _ _ _ Hk)|].
  assert (Hraw : forall hash_type : nid,
            raw_scheme scheme = Some hash_type ->
            decoded_signature scheme signature =
              if Nat.odd (length signature) then None
              else Some {| sig_r := BN_bin2bn
                                      (take (Nat.div2 (length signature))
                                            signature);
                           sig_s := BN_bin2bn
                                      (drop (Nat.div2 (length signature))
                                            signature) |}).
  { intros hash_type Hs. destruct scheme; try discriminate;
      unfold decoded_signature, openssl_bn_split;
      now destruct (Nat.odd (length signature)). }
  split; [|split; [|split; [|split; [|split; [|split]]]]].
  - destruct scheme; simpl; split; intros Hs; try reflexivity;
      try discriminate; try tauto.
    repeat (destruct Hs as [Hs|Hs]; [discriminate|]). destruct Hs.
  - intros Hs. destruct scheme; try discriminate. reflexivity.
  - intros ->. now destruct (signed_hash scheme data).
  - intros hash sig -> -> Hv.
    apply andb_false_iff. right. now apply Z.eqb_neq.
  - intros hash_type Hs. rewrite (Hraw _ Hs).
    destruct (Nat.odd (length signature)).
    + split; [split|]; intros; congruence.
    + split; [split|]; intros; congruence.
  - intros ->. reflexivity.
  - intros hash sig -> -> [ -> | -> ]; [reflexivity|].
    now destruct scheme.
Qed.

(** C4: for SIGN_ECDSA_WITH_SHA1, [verify] decodes the signature after all
    its leading zero bytes were removed.  A signature with zero bytes put in
    front gives the same result as the signature itself, in every state; what
    is decoded starts with a byte that is not zero; and when that does not
    decode, [verify] returns [false]. *)
Theorem verify_sha1_skips_zero_bytes w this data (z s : chunk_t) :
  Forall (fun b => b = x00) z ->
  verify this SIGN_ECDSA_WITH_SHA1 data (z ++ s) w =
    verify this SIGN_ECDSA_WITH_SHA1 data s w
  /\ skip_zero_bytes (z ++ s) = skip_zero_bytes s
  /\ (forall b rest, skip_zero_bytes s = b :: rest -> b <> x00)
  /\ (exists z', Forall (fun b => b = x00) z' /\ s = z' ++ skip_zero_bytes s)
  /\ (d2i_ECDSA_SIG (skip_zero_bytes s) = None ->
      verify this SIGN_ECDSA_WITH_SHA1 data s w = Some (false, w))
  /\ (forall e k count,
        key_at w this e k count ->
        verify this SIGN_ECDSA_WITH_SHA1 data s w =
          Some (match d2i_ECDSA_SIG (skip_zero_bytes s),
                      openssl_hash_chunk NID_sha1 data with
                | Some sig, Some hash => (ECDSA_do_verify hash sig k =? 1)%Z
                | _, _ => false
                end, w)).
Proof.
  intros Hz. pose proof (skip_zero_bytes_app z s Hz) as Hskip.
  repeat split.
  - simpl. unfold verify_default_signature. now rewrite Hskip.
  - exact Hskip.
  - apply skip_zero_bytes_head.
  - apply skip_zero_bytes_suffix.
  - intros Hd. simpl. unfold verify_default_signature. now rewrite Hd.
  - intros e k count Hk. simpl.
    apply (verify_default_signature_spec _ _ _ _ _ _ _ Hk).
Qed.

(** C8: on a key object, [get_encoding] returns bytes, those written by
    [i2d_EC_PUBKEY], for KEY_PUB_SPKI_ASN1_DER, and nothing for every other
    encoding type; the state is left as it was. *)
Theorem get_encoding_spki_only w this e k count (type : key_encoding_type_t) :
  key_at w this e k count ->
  get_encoding this type w =
    Some (if decide (type = KEY_PUB_SPKI_ASN1_DER)
          then Some (i2d_EC_PUBKEY k) else None, w).
Proof.
  intros Hk. destruct type; try reflexivity.
  unfold get_encoding.
  change (bind (read_object this)
               (fun o => bind (read_ec_key (ec o))
                              (fun k0 => ret (Some (i2d_EC_PUBKEY k0)))) w =
          Some (Some (i2d_EC_PUBKEY k), w)).
  destruct Hk as [Ho Hk]. unfold bind, read_object, read_ec_key, ret.
  rewrite Ho. simpl. now rewrite Hk.
Qed.

(** C9: [encrypt_] returns [false] for every input, also when [this] is
    dangling, and prints a message with [DBG1].  Nothing else changes: the
    key objects, the native keys, the cache and the record of freed keys are
    those of the state before, so every key object is as it was. *)
Theorem encrypt_fails w this (crypto : chunk_t) :
  exists w',
    encrypt_ this crypto w = Some (false, w')
    /\ debug w' = debug w ++ [DBG "EC public key encryption not implemented"]
    /\ objects w' = objects w
    /\ ec_keys w' = ec_keys w
    /\ encoding w' = encoding w
    /\ freed w' = freed w
    /\ (forall this' e k count,
          key_at w' this' e k count <-> key_at w this' e k count)
    /\ (cache_supported w' <-> cache_supported w)
    /\ (refs_positive w' <-> refs_positive w).
Proof.
  exists (with_debug w [DBG "EC public key encryption not implemented"]).
  do 6 (split; [reflexivity|]).
  split; [intros this' e k count; reflexivity|].
  split; reflexivity.
Qed.

(** C5: [destroy] on a key object that holds more than one reference only
    decrements the count: the native keys, the cache, the record of freed
    keys and the other objects are as before.  [destroy] on the last
    reference purges the cache entries of this key for every encoding type,
    gives the native key to [EC_KEY_free] and frees the object, and leaves
    the other cache entries alone.  From then on the cache holds an entry for
    that place only while a native key lives there, so whatever is called
    afterwards, an object that [load] makes later with its native key at the
    same place finds none of the old entries: its fingerprints are those
    computed with an empty cache.  A count of 0, which an object that is not
    freed holds only after the 32 bits of the count have wrapped, does not
    drop below 1: it becomes 4294967295 and nothing is released. *)
Theorem destroy_purges_and_releases w this e k count :
  key_at w this e k count ->
  exists w',
    destroy this w = Some (tt, w')
    /\ ((1 < count)%Z ->
        w' = World (<[this := {| ec := Some e; ref := (count - 1)%Z |}]>
                      (objects w))
                   (ec_keys w) (encoding w) (freed w) (debug w))
    /\ ((count <= 1)%Z -> count <> 0%Z ->
        objects w' = delete this (objects w)
        /\ ec_keys w' = delete e (ec_keys w)
        /\ freed w' = freed w ++ [e]
        /\ debug w' = debug w
        /\ (forall type : key_encoding_type_t,
              encoding w' !! (type, e) = None)
        /\ (forall (type : key_encoding_type_t) e',
              e' <> e ->
              encoding w' !! (type, e') = encoding w !! (type, e'))
        /\ (forall (cs : list call) w1 (blob : chunk_t) this' w2 k' count'
                   (type : key_encoding_type_t),
              do_calls cs w' = Some (tt, w1) ->
              load blob w1 = Some (Some this', w2) ->
              key_at w2 this' e k' count' ->
              encoding w2 !! (type, e) = None
              /\ fst <$> get_fingerprint this' type w2 =
                 fst <$> get_fingerprint this' type (without_cache w2)))
    /\ (count = 0%Z ->
        w' = World (<[this := {| ec := Some e; ref := 4294967295%Z |}]>
                      (objects w))
                   (ec_keys w) (encoding w) (freed w) (debug w)).
Proof.
  intros Hk. destruct (Z.lt_ge_cases 1 count) as [Hc|Hc];
    [|destruct (Z.eq_dec count 0%Z) as [H0|H0]].
  - eexists. split; [apply (destroy_key_at_shared _ _ _ _ _ Hk Hc)|].
    split; [reflexivity|]. split; intros Hc'; lia.
  - subst count. eexists.
    split; [apply (destroy_key_at_counts_down _ _ _ _ _ Hk); reflexivity|].
    split; [intros Hc'; lia|]. split; [intros _ H0; now contradict H0|].
    reflexivity.
  - eexists. split; [apply (destroy_last _ _ _ _ _ Hk Hc H0)|].
    split; [intros Hc'; lia|]. split; [|intros Hc'; contradiction].
    intros _ _.
    cbn [objects ec_keys encoding freed debug].
    repeat (split; [reflexivity|]).
    split; [intros type; apply purged_lookup|].
    split; [intros type e' Hne; now apply purged_lookup_ne|].
    intros cs w1 blob this' w2 k' count' type Hcs Hl Hk'.
    assert (Hs1 : cache_sound w1 e).
    { eapply do_calls_cache_sound; [|exact Hcs].
      intros type0 fp. cbn [encoding]. now rewrite purged_lookup. }
    assert (Hmiss : encoding w2 !! (type, e) = None)
      by (eapply load_sees_no_cache; eassumption).
    split; [exact Hmiss|].
    rewrite (get_fingerprint_key_at _ _ _ _ _ _ Hk').
    rewrite (get_fingerprint_key_at (without_cache w2) _ e k' count');
      [|exact Hk'].
    rewrite (fingerprint_output_miss _ _ _ _ (proj2 Hk') Hmiss).
    rewrite (fingerprint_output_miss (without_cache w2) _ k');
      [reflexivity|exact (proj2 Hk')|apply lookup_empty].
Qed.

(** C6, as amended: on a key object, [get_fingerprint] asks the cache first
    and returns a hit as it is, for every encoding type.  On a miss for
    KEY_ID_PUBKEY_SHA1 (the bytes of [i2o_ECPublicKey]) or
    KEY_ID_PUBKEY_INFO_SHA1 (the bytes of [i2d_EC_PUBKEY]) it hashes the
    bytes, puts the digest into the cache and returns it when a SHA-1 hasher
    is offered; when none is offered it returns nothing, prints a message
    and puts nothing into the cache.  On a miss for any other type it returns
    nothing and changes nothing; the calls of the interface never put an
    entry for another type into the cache, so in the states they reach every
    other type returns nothing.  [get_fingerprint] always returns, and a
    second call with the same type returns the same as the first. *)
Theorem get_fingerprint_cached w this e k count
    (type : key_encoding_type_t) :
  key_at w this e k count ->
  (forall fp : chunk_t,
     encoding w !! (type, e) = Some fp ->
     get_fingerprint this type w = Some (Some fp, w))
  /\ (forall key : chunk_t,
        encoding w !! (type, e) = None ->
        type = KEY_ID_PUBKEY_SHA1 /\ key = i2o_ECPublicKey k
        \/ type = KEY_ID_PUBKEY_INFO_SHA1 /\ key = i2d_EC_PUBKEY k ->
        (forall allocate_hash,
           create_hasher_SHA1 = Some allocate_hash ->
           get_fingerprint this type w =
             Some (Some (allocate_hash key),
                   World (objects w) (ec_keys w)
                         (<[(type, e) := allocate_hash key]> (encoding w))
                         (freed w) (debug w)))
        /\ (create_hasher_SHA1 = None ->
            get_fingerprint this type w =
              Some (None,
                    with_debug w
                      [DBG "SHA1 hash algorithm not supported, fingerprinting failed"])))
  /\ (encoding w !! (type, e) = None ->
      type <> KEY_ID_PUBKEY_SHA1 ->
      type <> KEY_ID_PUBKEY_INFO_SHA1 ->
      get_fingerprint this type w = Some (None, w))
  /\ (cache_supported w ->
      type <> KEY_ID_PUBKEY_SHA1 ->
      type <> KEY_ID_PUBKEY_INFO_SHA1 ->
      get_fingerprint this type w = Some (None, w))
  /\ (forall (cs : list call) w0,
        do_calls cs empty_world = Some (tt, w0) -> cache_supported w0)
  /\ (exists (r : option chunk_t) w1,
        get_fingerprint this type w = Some (r, w1)
        /\ fst <$> get_fingerprint this type w1 = Some r).
Proof.
  intros Hk. rewrite (get_fingerprint_key_at _ _ _ _ _ _ Hk).
  assert (Hother : encoding w !! (type, e) = None ->
                   type <> KEY_ID_PUBKEY_SHA1 ->
                   type <> KEY_ID_PUBKEY_INFO_SHA1 ->
                   openssl_ec_fingerprint e type w = Some (None, w)).
  { intros Hc H1 H2. rewrite (fingerprint_miss _ _ _ _ (proj2 Hk) Hc).
    now destruct type. }
  split; [|split; [|split; [|split; [|split]]]].
  - intros fp Hc. now apply fingerprint_hit.
  - intros key Hc Hty.
    rewrite (fingerprint_miss _ _ _ _ (proj2 Hk) Hc).
    destruct Hty as [[-> ->]|[-> ->]]; rewrite hash_and_cache_spec;
      (split; [intros h ->|intros ->]; reflexivity).
  - exact Hother.
  - intros Hs H1 H2. apply Hother; [|exact H1|exact H2].
    destruct (encoding w !! (type, e)) as [fp|] eqn:Hc; [|reflexivity].
    destruct (Hs _ _ _ Hc); contradiction.
  - intros cs w0 Hcs.
    eapply do_calls_cache_supported; [|exact Hcs].
    apply cache_supported_empty.
  - destruct (fingerprint_twice w e k type (proj2 Hk))
      as (r & w1 & Hr & Ho & Hr2).
    exists r, w1. split; [exact Hr|].
    rewrite (get_fingerprint_key_at w1 _ e k count); [exact Hr2|].
    destruct Hk as [Hk1 Hk2]. split; [now rewrite Ho|].
    now rewrite (proj1 (fingerprint_keeps_keys _ _ _ _ _ Hr)).
Qed.

(** C10, as amended: an object returned by [load] holds exactly one
    reference.  [get_ref] increments the count, a number of 32 bits that
    wraps from 4294967295 to 0, and returns the pointer it was given, not a
    copy.  [destroy] releases the native key and the cache entries exactly
    when it finds the count at 1, so that it reaches 0; any other count is
    decremented, 0 becoming 4294967295.  After [n] calls of [get_ref], for
    [n] below 4294967295, up to [n] calls of [destroy] only count down and
    call [n + 1] of [destroy] gives the native key to [EC_KEY_free], once,
    purges its cache entries and frees the object.  In every state the calls
    of the interface reach, each count is a number of 32 bits, and while
    fewer than 4294967295 calls of [get_ref] have been made each object that
    is not freed holds at least one reference. *)
Theorem reference_count_life_cycle w (blob : chunk_t) this w0 (n : nat) :
  load blob w = Some (Some this, w0) ->
  (Z.of_nat n < 4294967295)%Z ->
  exists e k,
    d2i_EC_PUBKEY blob = Some k
    /\ key_at w0 this e k 1
    /\ (forall w1 count,
          key_at w1 this e k count ->
          get_ref this w1 =
            Some (this, set_count w1 this e (refcount_inc count)))
    /\ (forall count,
          (0 <= count < 4294967295)%Z -> refcount_inc count = (count + 1)%Z)
    /\ refcount_inc 4294967295 = 0%Z
    /\ (forall w1 count,
          key_at w1 this e k count ->
          (0 <= count < 4294967296)%Z ->
          destroy this w1 =
            Some (tt, if (count =? 1)%Z then released w1 this e
                      else set_count w1 this e (refcount_dec count)))
    /\ get_refs n this w0 =
         Some (tt, set_count w0 this e (1 + Z.of_nat n))
    /\ (forall j : nat,
          (j <= n)%nat ->
          destroys j this (set_count w0 this e (1 + Z.of_nat n)) =
            Some (tt, set_count w0 this e (1 + Z.of_nat n - Z.of_nat j)))
    /\ destroys (S n) this (set_count w0 this e (1 + Z.of_nat n)) =
         Some (tt, released w0 this e)
    /\ (forall (g : Z) (cs : list call) w2,
          (0 <= g)%Z ->
          refs_between w g ->
          (g + Z.of_nat (get_ref_calls cs) < 4294967295)%Z ->
          do_calls cs w0 = Some (tt, w2) -> refs_positive w2)
    /\ (forall (cs : list call) w2,
          do_calls cs empty_world = Some (tt, w2) ->
          refs_in_range w2
          /\ ((Z.of_nat (get_ref_calls cs) < 4294967295)%Z ->
              refs_positive w2)).
Proof.
  intros Hl Hn.
  destruct (load_inv _ _ _ _ Hl) as [(_ & [=] & _)|(k & Hd & [= Ht] & ->)].
  subst this. set (w0 := World _ _ _ _ _) in *.
  assert (Hk : key_at w0 (malloc (dom (objects w)))
                      (malloc (dom (ec_keys w))) k 1)
    by (split; apply lookup_insert_eq).
  exists (malloc (dom (ec_keys w))), k.
  split; [exact Hd|]. split; [exact Hk|].
  split; [intros w1 count; apply get_ref_key_at|].
  split; [|split; [reflexivity|]].
  { intros count Hc. unfold refcount_inc.
    destruct (Z.eqb_spec count 4294967295); [lia|reflexivity]. }
  split; [|split; [|split; [|split; [|split]]]].
  - intros w1 count Hk1 Hc. destruct (Z.eqb_spec count 1) as [->|Hne].
    + apply (destroy_releases _ _ _ _ _ Hk1). reflexivity.
    + apply (destroy_key_at_counts_down _ _ _ _ _ Hk1).
      apply Z.ltb_ge. unfold refcount_dec.
      destruct (Z.eqb_spec count 0); lia.
  - rewrite (get_refs_spec n _ _ _ _ _ Hk) by lia.
    rewrite Z.mod_small by lia. reflexivity.
  - intros j Hj.
    erewrite destroys_shared;
      [now rewrite set_count_twice
      |apply (key_at_set_count _ _ _ _ _ _ Hk)
      |lia].
  - erewrite destroys_all.
    + unfold released, set_count. cbn [objects ec_keys encoding freed debug].
      now rewrite delete_insert_eq.
    + replace (Z.of_nat (S n)) with (1 + Z.of_nat n)%Z by lia.
      apply (key_at_set_count _ _ _ _ _ _ Hk).
  - intros g cs w2 Hg Hs Hb Hcs.
    apply (refs_between_positive _ (g + Z.of_nat (get_ref_calls cs))).
    apply (do_calls_refs_between cs w0); [exact Hg| |exact Hb|exact Hcs].
    apply (refs_between_insert w); [exact Hs|]. simpl. lia.
  - intros cs w2 Hcs. split.
    + eapply do_calls_refs_in_range; [|exact Hcs]. apply refs_in_range_empty.
    + intros Hb.
      apply (refs_between_positive _ (0 + Z.of_nat (get_ref_calls cs))).
      apply (do_calls_refs_between cs empty_world);
        [lia|apply refs_between_empty|lia|exact Hcs].
Qed.

(** C7, as amended: [n] threads, fewer than 2^32, each call [get_ref] and
    then [destroy] on one key object that its owner holds with one reference;
    [ref_get] and [ref_put] being atomic, what the threads do is one of the
    orders of their calls.  In each of these orders every call returns, and
    up to any place of the order the object and its native key are alive and
    nothing is released.  When all the threads are done the state is as it
    was before; the owner's [destroy], the last call, then releases the
    native key and purges the cache, once.  All the calls on the handle are
    made before that release: a call of [get_ref] or of [destroy] after it
    would find a freed object. *)
Theorem interleaved_release_once w this e k (n : nat) (cs : list call) :
  key_at w this e k 1 ->
  (Z.of_nat n < 4294967296)%Z ->
  interleaved this n 0 cs = true ->
  (forall cs1 cs2 : list call,
     cs = cs1 ++ cs2 ->
     exists count : Z,
       (0 <= count < 4294967296)%Z
       /\ do_calls cs1 w = Some (tt, set_count w this e count)
       /\ key_at (set_count w this e count) this e k count
       /\ freed (set_count w this e count) = freed w
       /\ encoding (set_count w this e count) = encoding w)
  /\ do_calls cs w = Some (tt, w)
  /\ do_calls (cs ++ [CALL_destroy this]) w = Some (tt, released w this e)
  /\ freed (released w this e) = freed w ++ [e]
  /\ objects (released w this e) !! this = None
  /\ ec_keys (released w this e) !! e = None
  /\ (forall type : key_encoding_type_t,
        encoding (released w this e) !! (type, e) = None)
  /\ do_call (CALL_get_ref this) (released w this e) = None
  /\ do_call (CALL_destroy this) (released w this e) = None.
Proof.
  intros Hk Hn Hi.
  assert (Hk1 : key_at w this e k ((1 + Z.of_nat 0) mod 4294967296))
    by exact Hk.
  assert (Hb : (Z.of_nat (n + 0) < 4294967296)%Z) by lia.
  assert (Hall : do_calls cs w = Some (tt, w)).
  { rewrite <- (app_nil_r cs) in Hi.
    destruct (interleaved_prefix cs [] _ _ _ _ _ _ Hk1 Hb Hi)
      as (waiting & holding & Hd & Hi' & _).
    cbn [interleaved] in Hi'. apply andb_true_iff in Hi'.
    destruct Hi' as [_ Hh]. apply Nat.eqb_eq in Hh. subst holding.
    rewrite Hd. change ((1 + Z.of_nat 0) mod 4294967296)%Z with 1%Z.
    now rewrite (set_count_id _ _ _ _ _ Hk). }
  split; [|split; [exact Hall|split]].
  - intros cs1 cs2 ->.
    destruct (interleaved_prefix cs1 cs2 _ _ _ _ _ _ Hk1 Hb Hi)
      as (waiting & holding & Hd & _ & _).
    exists ((1 + Z.of_nat holding) mod 4294967296)%Z.
    split; [apply Z.mod_pos_bound; lia|]. split; [exact Hd|].
    split; [apply (key_at_set_count _ _ _ _ _ _ Hk)|]. split; reflexivity.
  - rewrite do_calls_app, (bind_Some _ _ _ _ _ Hall). cbn [do_calls do_call].
    rewrite (bind_Some _ _ _ _ _
               (destroy_releases _ _ _ _ 1 Hk eq_refl)).
    reflexivity.
  - split; [reflexivity|]. cbn [released objects ec_keys encoding].
    split; [apply lookup_delete_eq|]. split; [apply lookup_delete_eq|].
    split; [intros type; apply purged_lookup|].
    split.
    + cbn [do_call]. unfold bind. now rewrite get_ref_released.
    + apply destroy_released.
Qed.

(** C3, as amended: for SIGN_ECDSA_WITH_NULL, SIGN_ECDSA_256,
    SIGN_ECDSA_384 and SIGN_ECDSA_521, a signature of odd length makes
    [verify] return [false].  A signature of even length is split exactly in
    half, each half is read as a big-endian unsigned number, and the two
    numbers go to [ECDSA_do_verify], whose answer decides.  The length is not
    compared with the field element length of the curve: zero bytes put in
    front of both halves change nothing. *)
Theorem verify_raw_signature w this e k count scheme data signature :
  key_at w this e k count ->
  In scheme [SIGN_ECDSA_WITH_NULL; SIGN_ECDSA_256; SIGN_ECDSA_384;
             SIGN_ECDSA_521] ->
  (Nat.odd (length signature) = true ->
   verify this scheme data signature w = Some (false, w))
  /\ (Nat.odd (length signature) = false ->
      forall hash : chunk_t,
        signed_hash scheme data = Some hash ->
        ECDSA_SIG_new = true ->
        verify this scheme data signature w =
          Some ((ECDSA_do_verify hash
                   {| sig_r := BN_bin2bn (take (Nat.div2 (length signature))
                                               signature);
                      sig_s := BN_bin2bn (drop (Nat.div2 (length signature))
                                               signature) |} k =? 1)%Z, w))
  /\ (forall (l : chunk_t) (b : byte),
        BN_bin2bn (l ++ [b]) = (BN_bin2bn l * 256 + Z.of_N (Byte.to_N b))%Z
        /\ (0 <= BN_bin2bn l)%Z)
  /\ (forall (r s : chunk_t) (j : nat),
        length r = length s ->
        verify this scheme data
               (replicate j x00 ++ r ++ replicate j x00 ++ s) w =
        verify this scheme data (r ++ s) w).
Proof.
  intros Hk Hs.
  assert (Hv : exists hash_type,
             (forall sg, verify this scheme data sg w =
                         verify_signature this hash_type data sg w)
             /\ signed_hash scheme data =
                match hash_type with
                | NID_undef => Some data
                | _ => openssl_hash_chunk hash_type data
                end).
  { destruct Hs as [<-|[<-|[<-|[<-|[]]]]];
      [exists NID_undef|exists NID_sha256|exists NID_sha384
      |exists NID_sha512]; split; reflexivity. }
  destruct Hv as (hash_type & Hv & Hh).
  split; [|split; [|split]].
  - intros Hodd. rewrite Hv, (verify_signature_spec _ _ _ _ _ _ _ _ Hk).
    unfold openssl_bn_split. rewrite Hodd.
    destruct (match hash_type with
              | NID_undef => Some data
              | _ => openssl_hash_chunk hash_type data
              end); [|reflexivity].
    now destruct ECDSA_SIG_new.
  - intros Heven hash Hhash Hnew.
    rewrite Hv, (verify_signature_spec _ _ _ _ _ _ _ _ Hk).
    rewrite <- Hh, Hhash, Hnew. unfold openssl_bn_split.
    now rewrite Heven.
  - intros l b. split; [apply BN_bin2bn_snoc|apply BN_bin2bn_nonneg].
  - intros r s j Hl. rewrite !Hv.
    apply verify_signature_same_split.
    now apply openssl_bn_split_padded.
Qed.

(** C2, as amended: a sequence of [add] calls on a new builder always
    returns.  An [add] of a blob that does not parse leaves the builder as it
    was, so that the next [add] of a blob makes a new attempt.  [build]
    returns a key exactly when the last [add] gave a blob that parsed and
    every [add] before it gave a blob that did not: one construction
    succeeded and nothing was added after it; the key holds one reference.
    An [add] with another part kind, and any [add] after the one that
    succeeded, cancels the builder: the key it held is destroyed, [build]
    returns nothing, every later [add] leaves the builder cancelled, and no
    object and no native key the builder made is left. *)
Theorem builder_honors_one_success w
    (calls : list (builder_part_t * chunk_t)) :
  exists b w',
    openssl_ec_public_key_builder KEY_ECDSA = Some new_builder
    /\ builder_adds new_builder calls w = Some (b, w')
    /\ (Forall failed_attempt calls -> b = new_builder /\ w' = w)
    /\ (forall pre (blob : chunk_t) k,
          calls = pre ++ [(BUILD_BLOB_ASN1_DER, blob)] ->
          Forall failed_attempt pre ->
          d2i_EC_PUBKEY blob = Some k ->
          exists this e,
            builder_build b = Some this /\ key_at w' this e k 1
            /\ get_type this = KEY_ECDSA)
    /\ (forall this,
          builder_build b = Some this ->
          exists pre (blob : chunk_t) k e,
            calls = pre ++ [(BUILD_BLOB_ASN1_DER, blob)]
            /\ Forall failed_attempt pre
            /\ d2i_EC_PUBKEY blob = Some k
            /\ key_at w' this e k 1)
    /\ (builder_build b = None ->
        objects w' = objects w /\ ec_keys w' = ec_keys w)
    /\ (forall value (blob : chunk_t),
          In (BUILD_OTHER value, blob) calls ->
          public b = CANCELLED_BUILDER /\ builder_build b = None)
    /\ (forall pre (blob : chunk_t) k c rest,
          calls = pre ++ (BUILD_BLOB_ASN1_DER, blob) :: c :: rest ->
          Forall failed_attempt pre ->
          d2i_EC_PUBKEY blob = Some k ->
          public b = CANCELLED_BUILDER /\ builder_build b = None
          /\ freed w' = freed w ++ [malloc (dom (ec_keys w))])
    /\ (public b = CANCELLED_BUILDER ->
        forall more, builder_adds b more w' = Some (b, w')).
Proof.
  destruct (builder_adds_outcome w calls) as (b & w' & Hrun & Hcases).
  exists b, w'. split; [reflexivity|]. split; [exact Hrun|].
  split; [|split; [|split; [|split; [|split; [|split]]]]].
  - intros Hall. rewrite (builder_adds_failed _ _ Hall) in Hrun.
    injection Hrun as <- <-. auto.
  - intros pre blob k -> Hpre Hd.
    rewrite builder_adds_app in Hrun.
    rewrite (bind_Some _ _ _ _ _ (builder_adds_failed pre w Hpre)) in Hrun.
    cbn [builder_adds] in Hrun.
    rewrite (bind_Some _ _ _ _ _ (builder_add_loads w blob k Hd)) in Hrun.
    injection Hrun as <- <-.
    eexists _, _. split; [reflexivity|].
    split; [split; apply lookup_insert_eq|reflexivity].
  - intros this Hb.
    destruct Hcases as [(_ & -> & _)|[(pre & blob & k & -> & Hpre & Hd & -> & Hk)
                                     |(pre & c & rest & _ & _ & Hp & _)]].
    + discriminate.
    + injection Hb as <-. exists pre, blob, k. eauto.
    + unfold builder_build in Hb. rewrite Hp in Hb. discriminate.
  - intros Hb.
    destruct Hcases as [(_ & _ & ->)|[(pre & blob & k & _ & _ & _ & -> & _)
                                     |(pre & c & rest & _ & _ & _ & Ho & He & _)]].
    + auto.
    + discriminate.
    + auto.
  - intros value blob Hin.
    destruct Hcases as [(Hall & _ & _)
                       |[(pre & blob' & k & -> & Hpre & _)
                        |(pre & c & rest & _ & _ & Hp & _)]].
    + destruct (proj1 (List.Forall_forall _ _) Hall _ Hin) as [Hf _].
      discriminate.
    + apply in_app_or in Hin. destruct Hin as [Hin|[[=]|[]]].
      destruct (proj1 (List.Forall_forall _ _) Hpre _ Hin) as [Hf _].
      discriminate.
    + split; [exact Hp|]. unfold builder_build. now rewrite Hp.
  - intros pre blob k [part2 blob2] rest -> Hpre Hd.
    rewrite builder_adds_app in Hrun.
    rewrite (bind_Some _ _ _ _ _ (builder_adds_failed pre w Hpre)) in Hrun.
    cbn [builder_adds] in Hrun.
    rewrite (bind_Some _ _ _ _ _ (builder_add_loads w blob k Hd)) in Hrun.
    match type of Hrun with
    | bind _ _ ?w1 = _ =>
        assert (Hk : key_at w1 (malloc (dom (objects w)))
                            (malloc (dom (ec_keys w))) k 1)
          by (split; apply lookup_insert_eq)
    end.
    rewrite (bind_Some _ _ _ _ _ (builder_add_holding _ _ _ _ part2 blob2 Hk))
      in Hrun.
    rewrite builder_adds_cancelled in Hrun by reflexivity.
    injection Hrun as <- <-. auto.
  - intros Hp more. now apply builder_adds_cancelled.
Qed.

(** * Further properties of the file *)

(** ** Objects and native keys correspond *)

Lemma consistent_empty : consistent empty_world.
Proof.
  split; [|split]; simpl.
  - intros this o. now rewrite lookup_empty.
  - intros e k. now rewrite lookup_empty.
  - intros p1 p2 o1 o2 e. now rewrite lookup_empty.
Qed.

Lemma consistent_same_heap w w' :
  objects w' = objects w -> ec_keys w' = ec_keys w ->
  consistent w -> consistent w'.
Proof. unfold consistent. intros -> ->. auto. Qed.

Lemma lookup_set_ref w this o (r : Z) p o1 :
  objects w !! this = Some o ->
  <[this := {| ec := ec o; ref := r |}]> (objects w) !! p = Some o1 ->
  exists o', objects w !! p = Some o' /\ ec o' = ec o1.
Proof.
  intros Ho. destruct (decide (this = p)) as [<-|Hne].
  - rewrite lookup_insert_eq. intros [= <-]. now exists o.
  - rewrite lookup_insert_ne by exact Hne. intros Hp. now exists o1.
Qed.

(** A change of the reference count keeps the correspondence. *)
Lemma consistent_set_ref w this o (r : Z) :
  objects w !! this = Some o ->
  consistent w ->
  consistent (World (<[this := {| ec := ec o; ref := r |}]> (objects w))
                    (ec_keys w) (encoding w) (freed w) (debug w)).
Proof.
  intros Ho (Ha & Hb & Hc). split; [|split]; cbn [objects ec_keys].
  - intros p o1 Hp.
    destruct (lookup_set_ref _ _ _ _ _ _ Ho Hp) as (o' & Hp' & <-).
    now apply (Ha p).
  - intros e k Hk. destruct (Hb e k Hk) as (p & o' & Hp & He).
    destruct (decide (this = p)) as [<-|Hne].
    + eexists this, _. split; [apply lookup_insert_eq|]. simpl. congruence.
    + exists p, o'. split; [now rewrite lookup_insert_ne|exact He].
  - intros p1 p2 o1 o2 e H1 H2 E1 E2.
    destruct (lookup_set_ref _ _ _ _ _ _ Ho H1) as (o1' & H1' & Ee1).
    destruct (lookup_set_ref _ _ _ _ _ _ Ho H2) as (o2' & H2' & Ee2).
    apply (Hc p1 p2 o1' o2' e H1' H2'); congruence.
Qed.

(** A successful [load] keeps the correspondence. *)
Lemma consistent_loaded w k :
  consistent w ->
  consistent (World (<[malloc (dom (objects w)) :=
                         {| ec := Some (malloc (dom (ec_keys w)));
                            ref := 1 |}]> (objects w))
                    (<[malloc (dom (ec_keys w)) := k]> (ec_keys w))
                    (encoding w) (freed w) (debug w)).
Proof.
  intros (Ha & Hb & Hc).
  pose proof (malloc_None (objects w)) as Hfo.
  pose proof (malloc_None (ec_keys w)) as Hfe.
  assert (Hold : forall p o e,
             objects w !! p = Some o -> ec o = Some e ->
             e <> malloc (dom (ec_keys w))).
  { intros p o e Hp He ->. destruct (Ha p o Hp) as (e' & k' & He' & Hk').
    congruence. }
  split; [|split]; cbn [objects ec_keys].
  - intros p o. destruct (decide (malloc (dom (objects w)) = p)) as [<-|Hne].
    + rewrite lookup_insert_eq. intros [= <-]. eexists _, k.
      split; [reflexivity|apply lookup_insert_eq].
    + rewrite lookup_insert_ne by exact Hne. intros Hp.
      destruct (Ha p o Hp) as (e & k' & He & Hk').
      exists e, k'. split; [exact He|].
      rewrite lookup_insert_ne; [exact Hk'|].
      intros Heq. now apply (Hold p o e Hp He).
  - intros e k'.
    destruct (decide (malloc (dom (ec_keys w)) = e)) as [<-|Hne].
    + intros _. eexists _, _. split; [apply lookup_insert_eq|reflexivity].
    + rewrite lookup_insert_ne by exact Hne. intros Hk'.
      destruct (Hb e k' Hk') as (p & o & Hp & He).
      exists p, o. split; [|exact He].
      rewrite lookup_insert_ne; [exact Hp|]. intros <-. congruence.
  - intros p1 p2 o1 o2 e.
    destruct (decide (malloc (dom (objects w)) = p1)) as [<-|Hn1];
      destruct (decide (malloc (dom (objects w)) = p2)) as [<-|Hn2];
      rewrite ?lookup_insert_eq, ?lookup_insert_ne by assumption;
      try reflexivity.
    + intros [= <-] H2 [= <-] E2. now destruct (Hold _ _ _ H2 E2).
    + intros H1 [= <-] E1 [= <-]. now destruct (Hold _ _ _ H1 E1).
    + apply Hc.
Qed.

(** The last [destroy] of an object keeps the correspondence. *)
Lemma consistent_destroyed w this o e :
  objects w !! this = Some o ->
  ec o = Some e ->
  consistent w ->
  consistent (World (delete this (objects w)) (delete e (ec_keys w))
                    (filter (fun x => snd (fst x) <> e) (encoding w))
                    (freed w ++ [e]) (debug w)).
Proof.
  intros Ho He (Ha & Hb & Hc). split; [|split]; cbn [objects ec_keys].
  - intros p o' Hp. apply lookup_delete_Some in Hp as [Hne Hp].
    destruct (Ha p o' Hp) as (e' & k' & He' & Hk').
    exists e', k'. split; [exact He'|].
    rewrite lookup_delete_ne; [exact Hk'|].
    intros <-. apply Hne. now apply (Hc this p o o' e).
  - intros e' k' Hk'. apply lookup_delete_Some in Hk' as [Hne Hk'].
    destruct (Hb e' k' Hk') as (p & o' & Hp & He').
    exists p, o'. split; [|exact He'].
    rewrite lookup_delete_ne; [exact Hp|]. intros <-. congruence.
  - intros p1 p2 o1 o2 e' H1 H2.
    apply lookup_delete_Some in H1 as [_ H1].
    apply lookup_delete_Some in H2 as [_ H2].
    now apply Hc.
Qed.

Lemma do_call_consistent (c : call) w w' :
  consistent w -> do_call c w = Some (tt, w') -> consistent w'.
Proof.
  intros Hs Hc. destruct c; cbn [do_call] in Hc;
    try (destruct (bind_inv _ _ _ _ _ Hc) as (r & w1 & H1 & [= <-])).
  - destruct (load_inv _ _ _ _ H1) as [(_ & _ & ->)|(k & _ & _ & ->)];
      [exact Hs|now apply consistent_loaded].
  - now injection Hc as <-.
  - destruct (only_prints_verify _ _ _ _ _ _ _ H1) as [msgs ->]. exact Hs.
  - destruct (only_prints_encrypt _ _ _ _ _ H1) as [msgs ->]. exact Hs.
  - destruct (only_prints_get_keysize _ _ _ _ H1) as [msgs ->]. exact Hs.
  - destruct (get_fingerprint_inv _ _ _ _ _ H1) as [e He].
    destruct (fingerprint_keeps_keys _ _ _ _ _ He) as [Hk Ho].
    now apply (consistent_same_heap w).
  - destruct (only_prints_get_encoding _ _ _ _ _ H1) as [msgs ->]. exact Hs.
  - destruct (get_ref_inv _ _ _ _ H1) as (o & Ho & _ & ->).
    now apply consistent_set_ref.
  - destruct (destroy_inv _ _ _ Hc)
      as (o & Ho & [[_ ->]|[(_ & He & ->)|(_ & e & k & He & Hk & ->)]]).
    + now apply consistent_set_ref.
    + destruct (proj1 Hs _ _ Ho) as (e & k & He' & _). congruence.
    + now apply (consistent_destroyed w this o e).
Qed.

Lemma do_calls_consistent (cs : list call) w w' :
  consistent w -> do_calls cs w = Some (tt, w') -> consistent w'.
Proof.
  revert w. induction cs as [|c cs IH]; intros w Hs Hc.
  - now injection Hc as <-.
  - cbn [do_calls] in Hc.
    destruct (bind_inv _ _ _ _ _ Hc) as ([] & w1 & H1 & H2).
    eapply IH; [|exact H2]. eapply do_call_consistent; eassumption.
Qed.

(** An object of a consistent state is a key object. *)
Lemma consistent_key_at w this o :
  consistent w ->
  objects w !! this = Some o ->
  exists e k, key_at w this e k (ref o).
Proof.
  intros (Ha & _) Ho. destruct (Ha _ _ Ho) as (e & k & He & Hk).
  exists e, k. split; [|exact Hk]. destruct o as [e0 r]. simpl in *.
  now subst e0.
Qed.

(** ** What the methods return on a key object *)

Lemma get_keysize_key_at w this e k count :
  key_at w this e k count ->
  get_keysize this w =
    Some (EC_FIELD_ELEMENT_LEN (EC_KEY_get0_group k), w).
Proof.
  intros [Ho Hk]. unfold get_keysize, bind, read_object, read_ec_key, ret.
  rewrite Ho. simpl. now rewrite Hk.
Qed.

Lemma get_encoding_key_at w this e k count (type : key_encoding_type_t) :
  key_at w this e k count ->
  get_encoding this type w =
    Some (match type with
          | KEY_PUB_SPKI_ASN1_DER => Some (i2d_EC_PUBKEY k)
          | _ => None
          end, w).
Proof.
  intros [Ho Hk]. destruct type; try reflexivity.
  unfold get_encoding, bind, read_object, read_ec_key, ret.
  rewrite Ho. simpl. now rewrite Hk.
Qed.

(** ** The record of freed keys grows, and a key lives until it is freed *)

Lemma do_call_freed (c : call) w w' :
  do_call c w = Some (tt, w') -> exists l, freed w' = freed w ++ l.
Proof.
  intros Hc.
  assert (Hnil : freed w' = freed w -> exists l, freed w' = freed w ++ l)
    by (intros ->; exists []; now rewrite app_nil_r).
  destruct c; cbn [do_call] in Hc;
    try (destruct (bind_inv _ _ _ _ _ Hc) as (r & w1 & H1 & [= <-])).
  - destruct (load_inv _ _ _ _ H1) as [(_ & _ & ->)|(k & _ & _ & ->)];
      now apply Hnil.
  - injection Hc as <-. now apply Hnil.
  - destruct (only_prints_verify _ _ _ _ _ _ _ H1) as [msgs ->].
    now apply Hnil.
  - destruct (only_prints_encrypt _ _ _ _ _ H1) as [msgs ->]. now apply Hnil.
  - destruct (only_prints_get_keysize _ _ _ _ H1) as [msgs ->].
    now apply Hnil.
  - destruct (get_fingerprint_inv _ _ _ _ _ H1) as [e He].
    destruct (fingerprint_inv _ _ _ _ _ He)
      as [[msgs ->]|(k & fp & _ & _ & ->)]; now apply Hnil.
  - destruct (only_prints_get_encoding _ _ _ _ _ H1) as [msgs ->].
    now apply Hnil.
  - destruct (get_ref_inv _ _ _ _ H1) as (o & _ & _ & ->). now apply Hnil.
  - destruct (destroy_inv _ _ _ Hc)
      as (o & Ho & [[_ ->]|[(_ & _ & ->)|(_ & e & k & _ & _ & ->)]]);
      try now apply Hnil.
    now exists [e].
Qed.

Lemma do_calls_freed (cs : list call) w w' :
  do_calls cs w = Some (tt, w') -> exists l, freed w' = freed w ++ l.
Proof.
  revert w. induction cs as [|c cs IH]; intros w Hc.
  - injection Hc as <-. exists []. now rewrite app_nil_r.
  - cbn [do_calls] in Hc.
    destruct (bind_inv _ _ _ _ _ Hc) as ([] & w1 & H1 & H2).
    destruct (do_call_freed _ _ _ H1) as [l1 E1].
    destruct (IH _ H2) as [l2 E2].
    exists (l1 ++ l2). now rewrite E2, E1, app_assoc.
Qed.

(** One call either gives the native key of a key object to [EC_KEY_free]
    or leaves the object with its key. *)
Lemma do_call_keeps_key (c : call) w w' this e k count :
  key_at w this e k count ->
  do_call c w = Some (tt, w') ->
  exists l,
    freed w' = freed w ++ l
    /\ (In e l \/ exists count', key_at w' this e k count').
Proof.
  intros Hk Hc.
  assert (Hsame : objects w' = objects w -> ec_keys w' = ec_keys w ->
                  freed w' = freed w ->
                  exists l,
                    freed w' = freed w ++ l
                    /\ (In e l \/ exists count', key_at w' this e k count')).
  { intros Eo Ek Ef. exists []. rewrite app_nil_r. split; [exact Ef|].
    right. exists count. unfold key_at. now rewrite Eo, Ek. }
  assert (Hcount : forall this0 o0 (r : Z),
             objects w !! this0 = Some o0 ->
             exists count',
               key_at (World (<[this0 := {| ec := ec o0; ref := r |}]>
                                (objects w))
                             (ec_keys w) (encoding w) (freed w) (debug w))
                      this e k count').
  { intros this0 o0 r Ho0. destruct Hk as [Ho Hk].
    destruct (decide (this0 = this)) as [->|Hne].
    - exists r. split; [|exact Hk]. cbn [objects].
      rewrite lookup_insert_eq. rewrite Ho in Ho0. now injection Ho0 as <-.
    - exists count. split; [|exact Hk]. cbn [objects].
      now rewrite lookup_insert_ne. }
  destruct c; cbn [do_call] in Hc;
    try (destruct (bind_inv _ _ _ _ _ Hc) as (r & w1 & H1 & [= <-])).
  - destruct (load_inv _ _ _ _ H1) as [(_ & _ & ->)|(k0 & _ & _ & ->)];
      [now apply Hsame|].
    exists []. rewrite app_nil_r. split; [reflexivity|]. right.
    exists count. destruct Hk as [Ho Hk].
    split; cbn [objects ec_keys].
    + rewrite lookup_insert_ne; [exact Ho|].
      intros E. rewrite <- E, malloc_None in Ho. discriminate.
    + rewrite lookup_insert_ne; [exact Hk|].
      intros E. rewrite <- E, malloc_None in Hk. discriminate.
  - injection Hc as <-. now apply Hsame.
  - destruct (only_prints_verify _ _ _ _ _ _ _ H1) as [msgs ->].
    now apply Hsame.
  - destruct (only_prints_encrypt _ _ _ _ _ H1) as [msgs ->].
    now apply Hsame.
  - destruct (only_prints_get_keysize _ _ _ _ H1) as [msgs ->].
    now apply Hsame.
  - destruct (get_fingerprint_inv _ _ _ _ _ H1) as [e0 He].
    destruct (fingerprint_inv _ _ _ _ _ He)
      as [[msgs ->]|(k0 & fp & _ & _ & ->)]; now apply Hsame.
  - destruct (only_prints_get_encoding _ _ _ _ _ H1) as [msgs ->].
    now apply Hsame.
  - destruct (get_ref_inv _ _ _ _ H1) as (o & Ho & _ & ->).
    exists []. rewrite app_nil_r. split; [reflexivity|]. right.
    now apply Hcount.
  - destruct (destroy_inv _ _ _ Hc)
      as (o & Ho & [[_ ->]|[(_ & He & ->)|(_ & e0 & k0 & He & Hk0 & ->)]]).
    + exists []. rewrite app_nil_r. split; [reflexivity|]. right.
      now apply Hcount.
    + exists []. rewrite app_nil_r. split; [reflexivity|]. right.
      exists count. destruct Hk as [Ho' Hk]. split; [|exact Hk].
      cbn [objects]. rewrite lookup_delete_ne; [exact Ho'|].
      intros <-. rewrite Ho in Ho'. injection Ho' as ->. discriminate.
    + exists [e0]. split; [reflexivity|].
      destruct (decide (e0 = e)) as [->|Hne]; [left; now left|].
      right. exists count. destruct Hk as [Ho' Hk].
      split; cbn [objects ec_keys].
      * rewrite lookup_delete_ne; [exact Ho'|].
        intros <-. rewrite Ho in Ho'. injection Ho' as ->.
        simpl in He. congruence.
      * now rewrite lookup_delete_ne.
Qed.

Lemma do_calls_keeps_key (cs : list call) w w' this e k count :
  key_at w this e k count ->
  do_calls cs w = Some (tt, w') ->
  exists l,
    freed w' = freed w ++ l
    /\ (In e l \/ exists count', key_at w' this e k count').
Proof.
  revert w count. induction cs as [|c cs IH]; intros w count Hk Hc.
  - injection Hc as <-. exists []. rewrite app_nil_r.
    split; [reflexivity|]. right. now exists count.
  - cbn [do_calls] in Hc.
    destruct (bind_inv _ _ _ _ _ Hc) as ([] & w1 & H1 & H2).
    destruct (do_call_keeps_key _ _ _ _ _ _ _ Hk H1)
      as (l1 & E1 & [Hin|[count1 Hk1]]).
    + destruct (do_calls_freed _ _ _ H2) as [l2 E2].
      exists (l1 ++ l2). split; [now rewrite E2, E1, app_assoc|].
      left. apply in_or_app. now left.
    + destruct (IH _ _ Hk1 H2) as (l2 & E2 & Hl2).
      exists (l1 ++ l2). split; [now rewrite E2, E1, app_assoc|].
      destruct Hl2 as [Hin|Hk2]; [|now right].
      left. apply in_or_app. now right.
Qed.

(** ** The cache holds the fingerprints of the keys that are alive *)

Lemma cache_coherent_empty : cache_coherent empty_world.
Proof. intros type e fp. simpl. now rewrite lookup_empty. Qed.

(** Every way [openssl_ec_fingerprint] can return, with what it caches. *)
Lemma fingerprint_inv_value w e (type : key_encoding_type_t) r w' :
  openssl_ec_fingerprint e type w = Some (r, w') ->
  (exists msgs, w' = with_debug w msgs)
  \/ (exists k fp,
        ec_keys w !! e = Some k
        /\ fingerprint_of type k = Some fp
        /\ w' = World (objects w) (ec_keys w)
                      (<[(type, e) := fp]> (encoding w))
                      (freed w) (debug w)).
Proof.
  intros Hf.
  assert (Hleft : w' = w ->
                  (exists msgs, w' = with_debug w msgs)
                  \/ (exists k fp,
                        ec_keys w !! e = Some k
                        /\ fingerprint_of type k = Some fp
                        /\ w' = World (objects w) (ec_keys w)
                                      (<[(type, e) := fp]> (encoding w))
                                      (freed w) (debug w)))
    by (intros ->; left; exists []; now rewrite with_debug_nil).
  destruct (encoding w !! (type, e)) as [fp|] eqn:Hc.
  - rewrite (fingerprint_hit _ _ _ _ Hc) in Hf. injection Hf as _ <-.
    now apply Hleft.
  - destruct (ec_keys w !! e) as [k|] eqn:Hk.
    + rewrite (fingerprint_miss _ _ _ _ Hk Hc) in Hf.
      destruct type; rewrite ?hash_and_cache_spec in Hf;
        try (injection Hf as _ <-; now apply Hleft);
        (destruct create_hasher_SHA1 as [h|] eqn:Hh; injection Hf as _ <-;
         [right; eexists k, _; split; [reflexivity|]; split; [|reflexivity];
          unfold fingerprint_of; now rewrite Hh
         |left; eauto]).
    + revert Hf. unfold openssl_ec_fingerprint, bind, get_cache.
      rewrite Hc. destruct type; unfold read_ec_key; rewrite ?Hk;
        try discriminate; intros [= _ <-]; now apply Hleft.
Qed.

Lemma do_call_cache_coherent (c : call) w w' :
  cache_coherent w -> do_call c w = Some (tt, w') -> cache_coherent w'.
Proof.
  intros Hs Hc. destruct c; cbn [do_call] in Hc;
    try (destruct (bind_inv _ _ _ _ _ Hc) as (r & w1 & H1 & [= <-])).
  - destruct (load_inv _ _ _ _ H1) as [(_ & _ & ->)|(k & _ & _ & ->)];
      [exact Hs|].
    intros type e fp Hl. cbn [encoding ec_keys] in *.
    destruct (Hs _ _ _ Hl) as (k' & Hk' & Hfp). exists k'.
    split; [|exact Hfp]. rewrite lookup_insert_ne; [exact Hk'|].
    intros E. rewrite <- E, malloc_None in Hk'. discriminate.
  - now injection Hc as <-.
  - destruct (only_prints_verify _ _ _ _ _ _ _ H1) as [msgs ->]. exact Hs.
  - destruct (only_prints_encrypt _ _ _ _ _ H1) as [msgs ->]. exact Hs.
  - destruct (only_prints_get_keysize _ _ _ _ H1) as [msgs ->]. exact Hs.
  - destruct (get_fingerprint_inv _ _ _ _ _ H1) as [e He].
    destruct (fingerprint_inv_value _ _ _ _ _ He)
      as [[msgs ->]|(k & fp & Hk & Hfp & ->)]; [exact Hs|].
    intros type' e' fp'. cbn [encoding ec_keys].
    destruct (decide ((type, e) = (type', e'))) as [[= <- <-]|Hne].
    + rewrite lookup_insert_eq. intros [= <-]. now exists k.
    + rewrite lookup_insert_ne by exact Hne. apply Hs.
  - destruct (only_prints_get_encoding _ _ _ _ _ H1) as [msgs ->]. exact Hs.
  - destruct (get_ref_inv _ _ _ _ H1) as (o & _ & _ & ->). exact Hs.
  - destruct (destroy_inv _ _ _ Hc)
      as (o & Ho & [[_ ->]|[(_ & _ & ->)|(_ & e & k & _ & Hk & ->)]]);
      try exact Hs.
    intros type e' fp Hl. cbn [encoding ec_keys] in *.
    apply map_lookup_filter_Some in Hl as [Hl Hne]. simpl in Hne.
    destruct (Hs _ _ _ Hl) as (k' & Hk' & Hfp). exists k'.
    split; [|exact Hfp]. now rewrite lookup_delete_ne.
Qed.

Lemma do_calls_cache_coherent (cs : list call) w w' :
  cache_coherent w -> do_calls cs w = Some (tt, w') -> cache_coherent w'.
Proof.
  revert w. induction cs as [|c cs IH]; intros w Hs Hc.
  - now injection Hc as <-.
  - cbn [do_calls] in Hc.
    destruct (bind_inv _ _ _ _ _ Hc) as ([] & w1 & H1 & H2).
    eapply IH; [|exact H2]. eapply do_call_cache_coherent; eassumption.
Qed.

(** With a coherent cache, [get_fingerprint] returns the fingerprint of the
    key, cached or not. *)
Lemma coherent_fingerprint w this e k count (type : key_encoding_type_t) :
  cache_coherent w ->
  key_at w this e k count ->
  fst <$> get_fingerprint this type w = Some (fingerprint_of type k).
Proof.
  intros Hs Hk. rewrite (get_fingerprint_key_at _ _ _ _ _ _ Hk).
  destruct (encoding w !! (type, e)) as [fp|] eqn:Hc.
  - rewrite (fingerprint_hit _ _ _ _ Hc).
    destruct (Hs _ _ _ Hc) as (k' & Hk' & Hfp).
    rewrite (proj2 Hk) in Hk'. injection Hk' as <-. simpl. now rewrite Hfp.
  - apply (fingerprint_output_miss _ _ _ _ (proj2 Hk) Hc).
Qed.

(** ** Theorems on the life cycle, the cache and the schemes *)

(** X1: [load] of a blob that does not parse returns NULL and leaves the
    whole state as it was: the object [create_empty] made is freed again and
    nothing is printed.  [load] of a blob that parses returns an object at a
    place that was not in use, with one reference and a native key at a
    place that was not in use; every other object and native key, the cache,
    the record of freed keys and the log are untouched. *)
Theorem load_fresh_or_nothing w (blob : chunk_t) :
  (d2i_EC_PUBKEY blob = None /\ load blob w = Some (None, w))
  \/ (exists k this e w',
        d2i_EC_PUBKEY blob = Some k
        /\ load blob w = Some (Some this, w')
        /\ objects w !! this = None
        /\ ec_keys w !! e = None
        /\ key_at w' this e k 1
        /\ (forall p, p <> this -> objects w' !! p = objects w !! p)
        /\ (forall a, a <> e -> ec_keys w' !! a = ec_keys w !! a)
        /\ encoding w' = encoding w
        /\ freed w' = freed w
        /\ debug w' = debug w).
Proof.
  destruct (d2i_EC_PUBKEY blob) as [k|] eqn:Hd.
  - right. eexists k, _, _, _. split; [reflexivity|].
    split; [apply (load_ok _ _ _ Hd)|].
    split; [apply malloc_None|]. split; [apply malloc_None|].
    split; [split; apply lookup_insert_eq|].
    cbn [objects ec_keys encoding freed debug].
    split; [intros p Hp; now rewrite lookup_insert_ne|].
    split; [intros a Ha; now rewrite lookup_insert_ne|].
    auto.
  - left. split; [reflexivity|]. now apply load_fail.
Qed.

(** X2: in every state the calls of the interface reach from the empty
    state, key objects and native keys correspond one to one: every object
    points to a native key that is alive (no handle dangles and none is
    NULL), every native key is pointed to by an object (none is leaked), and
    no two objects point to the same native key. *)
Theorem reachable_objects_and_keys_correspond (cs : list call) w :
  do_calls cs empty_world = Some (tt, w) ->
  (forall this o,
     objects w !! this = Some o ->
     exists e k, ec o = Some e /\ ec_keys w !! e = Some k)
  /\ (forall e k,
        ec_keys w !! e = Some k ->
        exists this o, objects w !! this = Some o /\ ec o = Some e)
  /\ (forall p1 p2 o1 o2 e,
        objects w !! p1 = Some o1 ->
        objects w !! p2 = Some o2 ->
        ec o1 = Some e -> ec o2 = Some e -> p1 = p2).
Proof.
  intros Hcs. apply (do_calls_consistent cs empty_world w consistent_empty Hcs).
Qed.

(** X3: in every state the calls of the interface reach, a call on an
    object that is not freed returns: no method goes through a dangling or
    NULL pointer, whatever its other arguments are.  [load] always
    returns. *)
Theorem calls_on_live_objects_return (cs : list call) w (c : call) :
  do_calls cs empty_world = Some (tt, w) ->
  (forall this, call_target c = Some this -> is_Some (objects w !! this)) ->
  exists w', do_call c w = Some (tt, w').
Proof.
  intros Hcs Hlive.
  pose proof (do_calls_consistent cs _ _ consistent_empty Hcs) as Hs.
  assert (Hkey : forall this, call_target c = Some this ->
                 exists o e k, objects w !! this = Some o
                               /\ key_at w this e k (ref o)).
  { intros this Ht. destruct (Hlive this Ht) as [o Ho].
    destruct (consistent_key_at _ _ _ Hs Ho) as (e & k & Hk). eauto. }
  destruct c; cbn [do_call call_target] in *.
  - destruct (d2i_EC_PUBKEY blob) as [k|] eqn:Hd.
    + rewrite (bind_Some _ _ _ _ _ (load_ok _ _ _ Hd)). eexists. reflexivity.
    + rewrite (bind_Some _ _ _ _ _ (load_fail _ _ Hd)). eexists. reflexivity.
  - eexists. reflexivity.
  - destruct (Hkey this eq_refl) as (o & e & k & Ho & Hk).
    rewrite (bind_Some _ _ _ _ _ (verify_spec _ _ _ _ _ _ _ _ Hk)).
    eexists. reflexivity.
  - eexists. reflexivity.
  - destruct (Hkey this eq_refl) as (o & e & k & Ho & Hk).
    rewrite (bind_Some _ _ _ _ _ (get_keysize_key_at _ _ _ _ _ Hk)).
    eexists. reflexivity.
  - destruct (Hkey this eq_refl) as (o & e & k & Ho & Hk).
    destruct (fingerprint_twice w e k type (proj2 Hk)) as (r & w1 & Hr & _).
    rewrite <- (get_fingerprint_key_at _ _ _ _ _ _ Hk) in Hr.
    rewrite (bind_Some _ _ _ _ _ Hr). eexists. reflexivity.
  - destruct (Hkey this eq_refl) as (o & e & k & Ho & Hk).
    rewrite (bind_Some _ _ _ _ _ (get_encoding_key_at _ _ _ _ _ _ Hk)).
    eexists. reflexivity.
  - destruct (Hkey this eq_refl) as (o & e & k & Ho & Hk).
    rewrite (bind_Some _ _ _ _ _ (get_ref_spec _ _ _ Ho)).
    eexists. reflexivity.
  - destruct (Hkey this eq_refl) as (o & e & k & Ho & Hk).
    destruct (refcount_dec (ref o) <? 1)%Z eqn:Hr.
    + rewrite (destroy_releases _ _ _ _ _ Hk Hr). eexists. reflexivity.
    + rewrite (destroy_counts_down _ _ _ Ho Hr). eexists. reflexivity.
Qed.

(** X4: the native key of a key object is never modified.  After any
    sequence of calls, as long as [EC_KEY_free] was not called on the key,
    the object is still there with the same key, and [get_keysize],
    [get_encoding] and [verify] answer what they answered before. *)
Theorem key_unchanged_until_freed (cs : list call) w w' this e k count :
  key_at w this e k count ->
  do_calls cs w = Some (tt, w') ->
  exists l,
    freed w' = freed w ++ l
    /\ (~ In e l ->
        exists count',
          key_at w' this e k count'
          /\ fst <$> get_keysize this w' = fst <$> get_keysize this w
          /\ (forall type : key_encoding_type_t,
                fst <$> get_encoding this type w' =
                fst <$> get_encoding this type w)
          /\ (forall scheme data signature,
                fst <$> verify this scheme data signature w' =
                fst <$> verify this scheme data signature w)).
Proof.
  intros Hk Hcs.
  destruct (do_calls_keeps_key _ _ _ _ _ _ _ Hk Hcs) as (l & El & Hl).
  exists l. split; [exact El|]. intros Hnot.
  destruct Hl as [Hin|[count' Hk']]; [contradiction|].
  exists count'. split; [exact Hk'|].
  split; [|split].
  - now rewrite (get_keysize_key_at _ _ _ _ _ Hk),
      (get_keysize_key_at _ _ _ _ _ Hk').
  - intros type.
    now rewrite (get_encoding_key_at _ _ _ _ _ _ Hk),
      (get_encoding_key_at _ _ _ _ _ _ Hk').
  - intros scheme data signature.
    now rewrite (verify_spec _ _ _ _ _ _ _ _ Hk),
      (verify_spec _ _ _ _ _ _ _ _ Hk').
Qed.

(** X5: in every state the calls of the interface reach, the cache is a
    pure memoization: on a key object [get_fingerprint] returns the SHA-1
    digest of the bytes of the key for the two fingerprint types (nothing
    without a hasher) and nothing for every other type, whether the cache
    has an entry or not, and the same as with an emptied cache. *)
Theorem fingerprint_is_that_of_the_key (cs : list call) w this e k count
    (type : key_encoding_type_t) :
  do_calls cs empty_world = Some (tt, w) ->
  key_at w this e k count ->
  fst <$> get_fingerprint this type w = Some (fingerprint_of type k)
  /\ fst <$> get_fingerprint this type (without_cache w) =
       Some (fingerprint_of type k).
Proof.
  intros Hcs Hk. split.
  - apply (coherent_fingerprint _ _ _ _ _ _
             (do_calls_cache_coherent _ _ _ cache_coherent_empty Hcs) Hk).
  - apply (coherent_fingerprint (without_cache w) _ e k count); [|exact Hk].
    intros type' e' fp. simpl. now rewrite lookup_empty.
Qed.

(** X6: on a key object [verify] returns [true] exactly when the hash of
    the data is available, the signature decodes, the [ECDSA_SIG] could be
    allocated (the SHA-1 scheme gets it from the decoder) and
    [ECDSA_do_verify] answers 1; an answer of 0 or of -1 gives [false].
    The result depends on the native key only: two objects with equal keys,
    in whatever states, give the same result. *)
Theorem verify_true_iff w this e k count scheme data signature :
  key_at w this e k count ->
  (fst <$> verify this scheme data signature w = Some true <->
   exists hash sig,
     signed_hash scheme data = Some hash
     /\ decoded_signature scheme signature = Some sig
     /\ (scheme = SIGN_ECDSA_WITH_SHA1 \/ ECDSA_SIG_new = true)
     /\ ECDSA_do_verify hash sig k = 1%Z)
  /\ (forall w2 this2 e2 count2,
        key_at w2 this2 e2 k count2 ->
        fst <$> verify this2 scheme data signature w2 =
        fst <$> verify this scheme data signature w).
Proof.
  intros Hk. split.
  - rewrite (verify_spec _ _ _ _ _ _ _ _ Hk). simpl. split.
    + intros [= Hb].
      destruct (signed_hash scheme data) as [hash|]; [|discriminate].
      destruct (decoded_signature scheme signature) as [sig|];
        [|discriminate].
      apply andb_true_iff in Hb as [H1 H2].
      exists hash, sig. split; [reflexivity|]. split; [reflexivity|].
      split; [destruct scheme; auto|now apply Z.eqb_eq].
    + intros (hash & sig & -> & -> & Hn & Hv). f_equal.
      apply andb_true_iff. split; [|now apply Z.eqb_eq].
      destruct Hn as [->|Hn]; [reflexivity|]. now destruct scheme.
  - intros w2 this2 e2 count2 Hk2.
    now rewrite (verify_spec _ _ _ _ _ _ _ _ Hk),
      (verify_spec _ _ _ _ _ _ _ _ Hk2).
Qed.

(** X7: for SIGN_ECDSA_256, SIGN_ECDSA_384 and SIGN_ECDSA_521, [verify] on
    the data is [verify] with SIGN_ECDSA_WITH_NULL on the digest of the
    data, in every state and for every signature. *)
Theorem verify_hashed_is_null_on_digest w this scheme data (hash : chunk_t)
    signature :
  In scheme [SIGN_ECDSA_256; SIGN_ECDSA_384; SIGN_ECDSA_521] ->
  signed_hash scheme data = Some hash ->
  verify this scheme data signature w =
  verify this SIGN_ECDSA_WITH_NULL hash signature w.
Proof.
  intros Hs Hh.
  destruct Hs as [<-|[<-|[<-|[]]]]; simpl in *;
    unfold verify_signature; now rewrite Hh.
Qed.

(** X8: the two wire encodings agree.  When the DER signature, after its
    leading zero bytes, decodes to the numbers the raw signature splits
    into, [verify] with SIGN_ECDSA_WITH_SHA1 on the data is [verify] with
    SIGN_ECDSA_WITH_NULL on the SHA-1 digest and the raw signature. *)
Theorem verify_sha1_der_is_null_raw w this data (hash der raw : chunk_t)
    (r s : Z) :
  openssl_hash_chunk NID_sha1 data = Some hash ->
  d2i_ECDSA_SIG (skip_zero_bytes der) = Some {| sig_r := r; sig_s := s |} ->
  openssl_bn_split raw = Some (r, s) ->
  ECDSA_SIG_new = true ->
  verify this SIGN_ECDSA_WITH_SHA1 data der w =
  verify this SIGN_ECDSA_WITH_NULL hash raw w.
Proof.
  intros Hh Hd Hr Hn. simpl.
  unfold verify_default_signature, verify_signature, chunk2sig.
  rewrite Hh, Hd, Hr, Hn. unfold bind.
  destruct (read_object this w) as [[o w1]|]; [|reflexivity].
  destruct (read_ec_key (ec o) w1) as [[k w2]|]; reflexivity.
Qed.

(** X9: when [d2i_EC_PUBKEY] reads the bytes of [i2d_EC_PUBKEY] back to the
    key, the encoding of a key object goes round: a builder given the bytes
    of [get_encoding] builds another object, with a native key of its own
    and one reference, whose encoding, fingerprints and [verify] results
    are those of the first object; the first object is as it was. *)
Theorem encoding_round_trip (cs : list call) w this e k count :
  do_calls cs empty_world = Some (tt, w) ->
  key_at w this e k count ->
  d2i_EC_PUBKEY (i2d_EC_PUBKEY k) = Some k ->
  exists b w' this' e',
    get_encoding this KEY_PUB_SPKI_ASN1_DER w =
      Some (Some (i2d_EC_PUBKEY k), w)
    /\ builder_adds new_builder
                    [(BUILD_BLOB_ASN1_DER, i2d_EC_PUBKEY k)] w = Some (b, w')
    /\ builder_build b = Some this'
    /\ this' <> this
    /\ e' <> e
    /\ key_at w' this' e' k 1
    /\ key_at w' this e k count
    /\ get_encoding this' KEY_PUB_SPKI_ASN1_DER w' =
         Some (Some (i2d_EC_PUBKEY k), w')
    /\ (forall type : key_encoding_type_t,
          fst <$> get_fingerprint this' type w' =
          fst <$> get_fingerprint this type w)
    /\ (forall scheme data signature,
          fst <$> verify this' scheme data signature w' =
          fst <$> verify this scheme data signature w).
Proof.
  intros Hcs Hk Hd.
  pose proof (do_calls_cache_coherent _ _ _ cache_coherent_empty Hcs) as Hs.
  set (w' := World (<[malloc (dom (objects w)) :=
                        {| ec := Some (malloc (dom (ec_keys w)));
                           ref := 1 |}]> (objects w))
                   (<[malloc (dom (ec_keys w)) := k]> (ec_keys w))
                   (encoding w) (freed w) (debug w)).
  assert (Hs' : cache_coherent w').
  { apply (do_call_cache_coherent (CALL_load (i2d_EC_PUBKEY k)) w w' Hs).
    cbn [do_call]. now rewrite (bind_Some _ _ _ _ _ (load_ok _ _ _ Hd)). }
  assert (Hnt : malloc (dom (objects w)) <> this).
  { intros E. destruct Hk as [Ho _].
    rewrite <- E, malloc_None in Ho. discriminate. }
  assert (Hne : malloc (dom (ec_keys w)) <> e).
  { intros E. destruct Hk as [_ Hk].
    rewrite <- E, malloc_None in Hk. discriminate. }
  assert (Hk1 : key_at w' (malloc (dom (objects w)))
                       (malloc (dom (ec_keys w))) k 1)
    by (split; apply lookup_insert_eq).
  assert (Hk2 : key_at w' this e k count).
  { destruct Hk as [Ho Hk]. split; cbn [w' objects ec_keys].
    - now rewrite lookup_insert_ne.
    - now rewrite lookup_insert_ne. }
  eexists _, w', (malloc (dom (objects w))), (malloc (dom (ec_keys w))).
  split; [apply (get_encoding_key_at _ _ _ _ _ KEY_PUB_SPKI_ASN1_DER Hk)|].
  split.
  { cbn [builder_adds].
    rewrite (bind_Some _ _ _ _ _ (builder_add_loads w _ k Hd)).
    reflexivity. }
  split; [reflexivity|]. split; [exact Hnt|]. split; [exact Hne|].
  split; [exact Hk1|]. split; [exact Hk2|].
  split; [apply (get_encoding_key_at _ _ _ _ _ KEY_PUB_SPKI_ASN1_DER Hk1)|].
  split.
  - intros type.
    now rewrite (coherent_fingerprint _ _ _ _ _ type Hs' Hk1),
      (coherent_fingerprint _ _ _ _ _ type Hs Hk).
  - intros scheme data signature.
    now rewrite (verify_spec _ _ _ _ _ _ _ _ Hk1),
      (verify_spec _ _ _ _ _ _ _ _ Hk).
Qed.

(** X10: on a key object that holds at least one reference, [get_ref]
    followed by [destroy] leaves the whole state exactly as it was. *)
Theorem get_ref_then_destroy w this e k count :
  key_at w this e k count ->
  (1 <= count)%Z ->
  bind (get_ref this) (fun _ => destroy this) w = Some (tt, w).
Proof.
  intros Hk Hc.
  rewrite (bind_Some _ _ _ _ _ (get_ref_key_at _ _ _ _ _ Hk)).
  assert (H1 : refcount_dec (refcount_inc count) = count).
  { unfold refcount_inc, refcount_dec.
    destruct (Z.eqb_spec count 4294967295) as [->|Hne]; [reflexivity|].
    destruct (Z.eqb_spec (count + 1) 0); lia. }
  rewrite (destroy_key_at_counts_down _ _ _ _ _
             (key_at_set_count _ _ _ _ _ (refcount_inc count) Hk));
    rewrite H1.
  - rewrite set_count_twice. now rewrite (set_count_id _ _ _ _ _ Hk).
  - apply Z.ltb_ge. exact Hc.
Qed.

(** X11: the methods that only look at a key change no object, no native
    key and no record of freed keys, whatever pointer they are given:
    [get_type], [verify], [encrypt_], [get_keysize] and [get_encoding] leave
    the cache as it was too, and [get_fingerprint] changes at most the one
    cache entry of the type it was asked for. *)
Theorem observers_keep_the_heap (c : call) w w' :
  do_call c w = Some (tt, w') ->
  match c with
  | CALL_load _ | CALL_get_ref _ | CALL_destroy _ => True
  | CALL_get_fingerprint this type =>
      objects w' = objects w /\ ec_keys w' = ec_keys w
      /\ freed w' = freed w
      /\ exists e,
           forall (type' : key_encoding_type_t) e',
             (type', e') <> (type, e) ->
             encoding w' !! (type', e') = encoding w !! (type', e')
  | _ =>
      objects w' = objects w /\ ec_keys w' = ec_keys w
      /\ freed w' = freed w /\ encoding w' = encoding w
  end.
Proof.
  intros Hc. destruct c; cbn [do_call] in Hc; try exact I;
    try (destruct (bind_inv _ _ _ _ _ Hc) as (r & w1 & H1 & [= <-])).
  - injection Hc as <-. auto.
  - destruct (only_prints_verify _ _ _ _ _ _ _ H1) as [msgs ->]. auto.
  - destruct (only_prints_encrypt _ _ _ _ _ H1) as [msgs ->]. auto.
  - destruct (only_prints_get_keysize _ _ _ _ H1) as [msgs ->]. auto.
  - destruct (get_fingerprint_inv _ _ _ _ _ H1) as [e He].
    destruct (fingerprint_inv _ _ _ _ _ He)
      as [[msgs ->]|(k & fp & _ & _ & ->)];
      (split; [reflexivity|]; split; [reflexivity|]; split; [reflexivity|]);
      exists e; intros type' e' Hne; cbn [encoding with_debug].
    + reflexivity.
    + rewrite lookup_insert_ne; [reflexivity|congruence].
  - destruct (only_prints_get_encoding _ _ _ _ _ H1) as [msgs ->]. auto.
Qed.

(** ** The builder works through [load] and [destroy] *)

(** What one [add] does to the state is what [load] or [destroy] does. *)
Lemma builder_add_as_calls (b : private_builder_t) (part : builder_part_t)
    (blob : chunk_t) w b' w' :
  builder_add b part blob w = Some (b', w') ->
  exists cs, do_calls cs w = Some (tt, w') /\ get_ref_calls cs = 0%nat.
Proof.
  unfold builder_add. destruct (public b).
  - unfold add. destruct (key b) as [k|].
    + intros Ha. destruct (bind_inv _ _ _ _ _ Ha) as ([] & w1 & H1 & [= _ <-]).
      exists [CALL_destroy k]. cbn [do_calls do_call].
      now rewrite (bind_Some _ _ _ _ _ H1).
    + destruct part as [|v].
      * intros Ha.
        destruct (bind_inv _ _ _ _ _ Ha) as (r & w1 & H1 & [= _ <-]).
        exists [CALL_load blob]. cbn [do_calls do_call].
        now rewrite (bind_Some _ _ _ _ _ (bind_Some _ _ _ _ _ H1)).
      * intros [= _ <-]. now exists [].
  - intros [= _ <-]. now exists [].
Qed.

Lemma get_ref_calls_app (cs1 cs2 : list call) :
  get_ref_calls (cs1 ++ cs2) = (get_ref_calls cs1 + get_ref_calls cs2)%nat.
Proof.
  induction cs1 as [|c cs1 IH]; [reflexivity|].
  cbn [app].
  rewrite (get_ref_calls_cons c (cs1 ++ cs2)), (get_ref_calls_cons c cs1), IH.
  lia.
Qed.

Lemma builder_adds_as_calls (b : private_builder_t)
    (calls : list (builder_part_t * chunk_t)) w b' w' :
  builder_adds b calls w = Some (b', w') ->
  exists cs, do_calls cs w = Some (tt, w') /\ get_ref_calls cs = 0%nat.
Proof.
  revert b w. induction calls as [|[part blob] calls IH]; intros b w Ha.
  - injection Ha as _ <-. now exists [].
  - cbn [builder_adds] in Ha.
    destruct (bind_inv _ _ _ _ _ Ha) as (b1 & w1 & H1 & H2).
    destruct (builder_add_as_calls _ _ _ _ _ _ H1) as (cs1 & E1 & G1).
    destruct (IH _ _ H2) as (cs2 & E2 & G2).
    exists (cs1 ++ cs2). rewrite do_calls_app, get_ref_calls_app, G1, G2.
    now rewrite (bind_Some _ _ _ _ _ E1).
Qed.

(** X12: whatever is added to a builder, and whether the builder ends
    cancelled or not, the builder changes the state through [load] and
    [destroy] only.  So after any sequence of [add] calls in a state the
    interface reaches, objects and native keys still correspond one to one
    (the builder leaks no native key and leaves no dangling object), every
    count is a number of 32 bits, the cache holds fingerprints of keys that
    are alive only, and, when fewer than 4294967295 calls of [get_ref] were
    made to reach the state, every object holds at least one reference. *)
Theorem builder_keeps_the_state_reachable (cs : list call) w
    (b : private_builder_t) (calls : list (builder_part_t * chunk_t))
    b' w' :
  do_calls cs empty_world = Some (tt, w) ->
  builder_adds b calls w = Some (b', w') ->
  (exists cs', do_calls (cs ++ cs') empty_world = Some (tt, w'))
  /\ consistent w'
  /\ refs_in_range w'
  /\ cache_coherent w'
  /\ ((Z.of_nat (get_ref_calls cs) < 4294967295)%Z -> refs_positive w').
Proof.
  intros Hcs Ha.
  destruct (builder_adds_as_calls _ _ _ _ _ Ha) as (cs' & E & G).
  assert (Hall : do_calls (cs ++ cs') empty_world = Some (tt, w')).
  { rewrite do_calls_app. now rewrite (bind_Some _ _ _ _ _ Hcs). }
  split; [now exists cs'|].
  split; [apply (do_calls_consistent _ _ _ consistent_empty Hall)|].
  split; [apply (do_calls_refs_in_range _ _ _ refs_in_range_empty Hall)|].
  split; [apply (do_calls_cache_coherent _ _ _ cache_coherent_empty Hall)|].
  intros Hb.
  apply (refs_between_positive _ (0 + Z.of_nat (get_ref_calls (cs ++ cs')))).
  apply (do_calls_refs_between (cs ++ cs') empty_world);
    [lia|apply refs_between_empty| |exact Hall].
  rewrite get_ref_calls_app, G. lia.
Qed.

End Properties.

(** * The properties on concrete runs *)

Lemma loaded_key_at (sha1 : bool) :
  key_at (H := Toy.native sha1) (Run.loaded sha1) 1%positive 1%positive
         Toy.Q 1.
Proof. split; reflexivity. Qed.

Lemma cached_key_at :
  key_at (H := Toy.native true) Run.cached 1%positive 1%positive Toy.Q 1.
Proof. split; reflexivity. Qed.

(** C1, on a run: the key [Q], a scheme that is no ECDSA scheme. *)
Lemma verify_returns_bool_witness :
  key_at (H := Toy.native true) (Run.loaded true) 1%positive 1%positive
         Toy.Q 1
  /\ exists b : bool,
       verify (H := Toy.native true) 1%positive (SIGN_OTHER 0) [x1a]
              Run.raw_sig (Run.loaded true) =
         Some (b, with_debug (H := Toy.native true) (Run.loaded true)
                    [DBG_N "signature scheme %N not supported in EC"
                           (SIGN_OTHER 0)])
       /\ b = false.
Proof.
  split; [apply loaded_key_at|].
  destruct (verify_returns_bool (H := Toy.native true) (Run.loaded true)
              1%positive 1%positive Toy.Q 1 (SIGN_OTHER 0) [x1a]
              Run.raw_sig (loaded_key_at true))
    as (b & Hv & _ & Hf & _).
  exists b. split; [exact Hv|]. apply Hf. reflexivity.
Defined.

(** C1, the claim as stated fails: [get_keysize] gives 1 for the field
    element length, so the encoding of a signature has 2 bytes; the six bytes
    00 00 07 00 00 11 are no such encoding, and [verify] returns [true] for
    them, as it does for the two bytes 07 11. *)
Lemma wrong_length_signature_accepted :
  key_at (H := Toy.native true) (Run.loaded true) 1%positive 1%positive
         Toy.Q 1
  /\ get_keysize (H := Toy.native true) 1%positive (Run.loaded true) =
       Some (1%Z, Run.loaded true)
  /\ length [x00; x00; x07; x00; x00; x11] <> (2 * 1)%nat
  /\ verify (H := Toy.native true) 1%positive SIGN_ECDSA_256 [x18]
            [x00; x00; x07; x00; x00; x11] (Run.loaded true) =
       Some (true, Run.loaded true)
  /\ verify (H := Toy.native true) 1%positive SIGN_ECDSA_256 [x18]
            [x07; x11] (Run.loaded true) =
       Some (true, Run.loaded true).
Proof.
  split; [apply loaded_key_at|]. split; [reflexivity|].
  split; [discriminate|]. split; reflexivity.
Qed.

(** C3, the claim as stated fails: the field element length of the curve is
    1, so a signature has 2 bytes; the signature [x07; x11] of the digest
    [x1a] with a zero byte in front of each half has 4 bytes, and [verify]
    returns [true] for it. *)
Lemma padded_signature_verifies :
  key_at (H := Toy.native true) (Run.loaded true) 1%positive 1%positive
         Toy.Q 1
  /\ EC_FIELD_ELEMENT_LEN (Native := Toy.native true)
       (EC_KEY_get0_group (Native := Toy.native true) Toy.Q) = 1%Z
  /\ length Run.padded_sig = 4%nat
  /\ verify (H := Toy.native true) 1%positive SIGN_ECDSA_WITH_NULL [x1a]
            Run.padded_sig (Run.loaded true) =
       Some (true, Run.loaded true).
Proof. split; [apply loaded_key_at|]. repeat split. Qed.

(** C3, on a run: the two-byte signature and the padded one. *)
Lemma verify_raw_signature_witness :
  key_at (H := Toy.native true) (Run.loaded true) 1%positive 1%positive
         Toy.Q 1
  /\ In SIGN_ECDSA_256 [SIGN_ECDSA_WITH_NULL; SIGN_ECDSA_256;
                        SIGN_ECDSA_384; SIGN_ECDSA_521]
  /\ verify (H := Toy.native true) 1%positive SIGN_ECDSA_256 [x18]
            (replicate 1 x00 ++ [x07] ++ replicate 1 x00 ++ [x11])
            (Run.loaded true) =
     verify (H := Toy.native true) 1%positive SIGN_ECDSA_256 [x18]
            ([x07] ++ [x11]) (Run.loaded true).
Proof.
  split; [apply loaded_key_at|].
  assert (Hin : In SIGN_ECDSA_256 [SIGN_ECDSA_WITH_NULL; SIGN_ECDSA_256;
                                   SIGN_ECDSA_384; SIGN_ECDSA_521])
    by (simpl; tauto).
  split; [exact Hin|].
  apply (verify_raw_signature (H := Toy.native true) (Run.loaded true)
           1%positive 1%positive Toy.Q 1 SIGN_ECDSA_256 [x18] []
           (loaded_key_at true) Hin).
  reflexivity.
Defined.

(** C4, on a run: three zero bytes in front of a DER signature. *)
Lemma verify_sha1_skips_zero_bytes_witness :
  Forall (fun b => b = x00) [x00; x00; x00]
  /\ verify (H := Toy.native true) 1%positive SIGN_ECDSA_WITH_SHA1 [x19]
            ([x00; x00; x00] ++ Run.der_sig) (Run.loaded true) =
     verify (H := Toy.native true) 1%positive SIGN_ECDSA_WITH_SHA1 [x19]
            Run.der_sig (Run.loaded true).
Proof.
  assert (Hz : Forall (fun b => b = x00) [x00; x00; x00])
    by (repeat constructor).
  split; [exact Hz|].
  apply (verify_sha1_skips_zero_bytes (H := Toy.native true)
           (Run.loaded true) 1%positive [x19] [x00; x00; x00] Run.der_sig
           Hz).
Defined.

(** C5, on a run: the key with a cached fingerprint is destroyed, and the
    key loaded next takes the same place and finds an empty cache. *)
Lemma destroy_purges_and_releases_witness :
  key_at (H := Toy.native true) Run.cached 1%positive 1%positive Toy.Q 1
  /\ encoding Run.cached !! (KEY_ID_PUBKEY_SHA1, 1%positive) = Some [x0b]
  /\ exists w' w2,
       destroy (H := Toy.native true) 1%positive Run.cached = Some (tt, w')
       /\ load (H := Toy.native true) Run.blob_G w' = Some (Some 1%positive, w2)
       /\ key_at (H := Toy.native true) w2 1%positive 1%positive Toy.G 1
       /\ encoding w2 !! (KEY_ID_PUBKEY_SHA1, 1%positive) = None.
Proof.
  split; [apply cached_key_at|]. split; [reflexivity|].
  destruct (destroy_purges_and_releases (H := Toy.native true) Run.cached
              1%positive 1%positive Toy.Q 1 cached_key_at)
    as (w' & Hd & _ & Hlast & _).
  destruct (Hlast ltac:(lia) ltac:(lia)) as (_ & _ & _ & _ & _ & _ & Hlater).
  assert (Hw : Some (tt, w') =
               Some (tt, World (K := Z * Z) ∅ ∅ ∅ [1%positive] []))
    by (rewrite <- Hd; reflexivity).
  injection Hw as ->.
  eexists _, _. split; [exact Hd|].
  assert (Hl : load (H := Toy.native true) Run.blob_G
                    (World (K := Z * Z) ∅ ∅ ∅ [1%positive] []) =
               Some (Some 1%positive,
                     World (K := Z * Z)
                       {[ 1%positive := {| ec := Some 1%positive; ref := 1 |} ]}
                       {[ 1%positive := Toy.G ]} ∅ [1%positive] []))
    by reflexivity.
  split; [exact Hl|].
  assert (Hk : key_at (H := Toy.native true)
                 (World (K := Z * Z)
                    {[ 1%positive := {| ec := Some 1%positive; ref := 1 |} ]}
                    {[ 1%positive := Toy.G ]} ∅ [1%positive] [])
                 1%positive 1%positive Toy.G 1)
    by (split; reflexivity).
  split; [exact Hk|].
  exact (proj1 (Hlater [] _ Run.blob_G 1%positive _
                  Toy.G 1%Z KEY_ID_PUBKEY_SHA1 eq_refl Hl Hk)).
Defined.

(** C6, the claim as stated fails: no plugin offers SHA-1, the cache has no
    entry for the key, and [get_fingerprint] for KEY_ID_PUBKEY_SHA1 returns
    nothing and puts nothing into the cache. *)
Lemma fingerprint_without_hasher :
  key_at (H := Toy.native false) (Run.loaded false) 1%positive 1%positive
         Toy.Q 1
  /\ encoding (Run.loaded false) !! (KEY_ID_PUBKEY_SHA1, 1%positive) = None
  /\ get_fingerprint (H := Toy.native false) 1%positive KEY_ID_PUBKEY_SHA1
                     (Run.loaded false) =
       Some (None,
             World (objects (Run.loaded false)) (ec_keys (Run.loaded false))
                   (encoding (Run.loaded false)) (freed (Run.loaded false))
                   [DBG "SHA1 hash algorithm not supported, fingerprinting failed"]).
Proof. split; [apply loaded_key_at|]. split; reflexivity. Qed.

(** C6, on a run: the first call computes and stores, the second hits. *)
Lemma get_fingerprint_cached_witness :
  key_at (H := Toy.native true) (Run.loaded true) 1%positive 1%positive
         Toy.Q 1
  /\ get_fingerprint (H := Toy.native true) 1%positive KEY_ID_PUBKEY_SHA1
                     (Run.loaded true) = Some (Some [x0b], Run.cached)
  /\ get_fingerprint (H := Toy.native true) 1%positive KEY_ID_PUBKEY_SHA1
                     Run.cached = Some (Some [x0b], Run.cached).
Proof.
  split; [apply loaded_key_at|].
  destruct (get_fingerprint_cached (H := Toy.native true) (Run.loaded true)
              1%positive 1%positive Toy.Q 1 KEY_ID_PUBKEY_SHA1
              (loaded_key_at true)) as (_ & Hmiss & _).
  destruct (Hmiss (Toy.i2o_pubkey Toy.Q) eq_refl
              (or_introl (conj eq_refl eq_refl))) as [Hcompute _].
  split; [exact (Hcompute (Toy.digest 1) eq_refl)|].
  destruct (get_fingerprint_cached (H := Toy.native true) Run.cached
              1%positive 1%positive Toy.Q 1 KEY_ID_PUBKEY_SHA1
              cached_key_at) as (Hhit & _).
  exact (Hhit [x0b] eq_refl).
Defined.

(** C8, on a run. *)
Lemma get_encoding_spki_only_witness :
  key_at (H := Toy.native true) (Run.loaded true) 1%positive 1%positive
         Toy.Q 1
  /\ get_encoding (H := Toy.native true) 1%positive KEY_PUB_SPKI_ASN1_DER
                  (Run.loaded true) = Some (Some Toy.blob, Run.loaded true)
  /\ get_encoding (H := Toy.native true) 1%positive KEY_ID_PUBKEY_SHA1
                  (Run.loaded true) = Some (None, Run.loaded true).
Proof.
  split; [apply loaded_key_at|]. split.
  - exact (get_encoding_spki_only (H := Toy.native true) (Run.loaded true)
             1%positive 1%positive Toy.Q 1 KEY_PUB_SPKI_ASN1_DER
             (loaded_key_at true)).
  - exact (get_encoding_spki_only (H := Toy.native true) (Run.loaded true)
             1%positive 1%positive Toy.Q 1 KEY_ID_PUBKEY_SHA1
             (loaded_key_at true)).
Defined.

(** C2, the claim as stated fails: the first [add] gives a blob that does
    not parse, the second [add] is not cancelled but loads the key, and
    [build] returns it. *)
Lemma second_add_after_failed_load_builds :
  builder_adds (H := Toy.native true) new_builder
               [(BUILD_BLOB_ASN1_DER, Toy.bad_blob);
                (BUILD_BLOB_ASN1_DER, Toy.blob)] empty_world =
    Some ({| public := EC_PUBLIC_KEY_BUILDER; key := Some 1%positive |},
          Run.loaded true)
  /\ d2i_EC_PUBKEY (Native := Toy.native true) Toy.bad_blob = None
  /\ builder_build
       {| public := EC_PUBLIC_KEY_BUILDER; key := Some 1%positive |} =
     Some 1%positive.
Proof. repeat split. Qed.

(** C2, on a run: a blob that parses, then one more [add]. *)
Lemma builder_honors_one_success_witness :
  exists b w',
    builder_adds (H := Toy.native true) new_builder
                 [(BUILD_BLOB_ASN1_DER, Toy.blob);
                  (BUILD_OTHER 7, chunk_empty)] empty_world = Some (b, w')
    /\ public b = CANCELLED_BUILDER
    /\ builder_build b = None
    /\ freed w' = [1%positive].
Proof.
  destruct (builder_honors_one_success (H := Toy.native true) empty_world
              [(BUILD_BLOB_ASN1_DER, Toy.blob); (BUILD_OTHER 7, chunk_empty)])
    as (b & w' & _ & Hrun & _ & _ & _ & _ & _ & Hafter & _).
  exists b, w'. split; [exact Hrun|].
  exact (Hafter [] Toy.blob Toy.Q (BUILD_OTHER 7, chunk_empty) [] eq_refl
           (List.Forall_nil _) eq_refl).
Defined.

(** C10, on a run: two calls of [get_ref], three of [destroy]. *)
Lemma reference_count_life_cycle_witness :
  load (H := Toy.native true) Toy.blob empty_world =
    Some (Some 1%positive, Run.loaded true)
  /\ (Z.of_nat 2 < 4294967295)%Z
  /\ get_refs (H := Toy.native true) 2 1%positive (Run.loaded true) =
       Some (tt, set_count (H := Toy.native true) (Run.loaded true)
                   1%positive 1%positive 3)
  /\ destroys (H := Toy.native true) 3 1%positive
              (set_count (H := Toy.native true) (Run.loaded true)
                         1%positive 1%positive 3) =
       Some (tt, World (K := Z * Z) ∅ ∅ ∅ [1%positive] []).
Proof.
  assert (Hl : load (H := Toy.native true) Toy.blob empty_world =
               Some (Some 1%positive, Run.loaded true)) by reflexivity.
  assert (Hn : (Z.of_nat 2 < 4294967295)%Z) by lia.
  split; [exact Hl|]. split; [exact Hn|].
  destruct (reference_count_life_cycle (H := Toy.native true) empty_world
              Toy.blob 1%positive (Run.loaded true) 2 Hl Hn)
    as (e & k & Hd & Hk & _ & _ & _ & _ & Hrefs & _ & Hdestroys & _).
  assert (He : e = 1%positive).
  { destruct Hk as [Ho _]. change (Some {| ec := Some 1%positive; ref := 1 |}
      = Some {| ec := Some e; ref := 1 |}) in Ho. congruence. }
  subst e. split; [exact Hrefs|].
  etransitivity; [exact Hdestroys|reflexivity].
Defined.

(** C10, the claim as stated fails: the count has 32 bits.  After
    4294967295 calls of [get_ref] on a key that [load] has returned, the
    object is not freed and its count is 0; after 4294967296 calls the count
    is 1 again, and the first call of [destroy], not call 4294967297,
    releases the native key. *)
Lemma count_wraps_to_zero :
  load (H := Toy.native true) Toy.blob empty_world =
    Some (Some 1%positive, Run.loaded true)
  /\ get_refs (H := Toy.native true) (Z.to_nat 4294967295) 1%positive
              (Run.loaded true) =
       Some (tt, set_count (H := Toy.native true) (Run.loaded true)
                   1%positive 1%positive 0)
  /\ key_at (H := Toy.native true)
            (set_count (H := Toy.native true) (Run.loaded true)
                       1%positive 1%positive 0)
            1%positive 1%positive Toy.Q 0
  /\ get_refs (H := Toy.native true) (Z.to_nat 4294967296) 1%positive
              (Run.loaded true) =
       Some (tt, Run.loaded true)
  /\ destroy (H := Toy.native true) 1%positive (Run.loaded true) =
       Some (tt, World (K := Z * Z) ∅ ∅ ∅ [1%positive] []).
Proof.
  split; [reflexivity|]. split; [|split; [split; reflexivity|split]].
  - rewrite (get_refs_spec (H := Toy.native true) (Z.to_nat 4294967295)
               _ _ _ _ _ (loaded_key_at true)) by lia.
    rewrite Z2Nat.id by lia. reflexivity.
  - rewrite (get_refs_spec (H := Toy.native true) (Z.to_nat 4294967296)
               _ _ _ _ _ (loaded_key_at true)) by lia.
    rewrite Z2Nat.id by lia.
    change ((1 + 4294967296) mod 4294967296)%Z with 1%Z.
    now rewrite (set_count_id (H := Toy.native true) _ _ _ _ _
                   (loaded_key_at true)).
  - reflexivity.
Qed.

(** C7, on a run: two threads; both take their reference before either
    gives it up, and the owner's [destroy] comes last. *)
Lemma interleaved_release_once_witness :
  key_at (H := Toy.native true) (Run.loaded true) 1%positive 1%positive
         Toy.Q 1
  /\ (Z.of_nat 2 < 4294967296)%Z
  /\ interleaved 1%positive 2 0
       [CALL_get_ref 1%positive; CALL_get_ref 1%positive;
        CALL_destroy 1%positive; CALL_destroy 1%positive] = true
  /\ do_calls (H := Toy.native true)
       ([CALL_get_ref 1%positive; CALL_get_ref 1%positive;
         CALL_destroy 1%positive; CALL_destroy 1%positive]
        ++ [CALL_destroy 1%positive]) (Run.loaded true) =
     Some (tt, released (H := Toy.native true) (Run.loaded true)
                 1%positive 1%positive).
Proof.
  assert (Hn : (Z.of_nat 2 < 4294967296)%Z) by lia.
  assert (Hi : interleaved 1%positive 2 0
                 [CALL_get_ref 1%positive; CALL_get_ref 1%positive;
                  CALL_destroy 1%positive; CALL_destroy 1%positive] = true)
    by reflexivity.
  split; [apply loaded_key_at|]. split; [exact Hn|]. split; [exact Hi|].
  exact (proj1 (proj2 (proj2
           (interleaved_release_once (H := Toy.native true) (Run.loaded true)
              1%positive 1%positive Toy.Q 2 _ (loaded_key_at true) Hn Hi)))).
Defined.

(** C7, the claim as stated fails: the count has 32 bits.  When 4294967296
    threads have all taken their reference before any gives it up, the count
    is 1 again: the first thread that calls [destroy] releases the native
    key, and the next call of [destroy], by another thread, finds a freed
    object. *)
Lemma release_before_the_last_destroy :
  key_at (H := Toy.native true) (Run.loaded true) 1%positive 1%positive
         Toy.Q 1
  /\ interleaved 1%positive
       (Z.to_nat 4294967296) 0
       (replicate (Z.to_nat 4294967296) (CALL_get_ref 1%positive)
        ++ replicate (Z.to_nat 4294967296) (CALL_destroy 1%positive)) = true
  /\ do_calls (H := Toy.native true)
       (replicate (Z.to_nat 4294967296) (CALL_get_ref 1%positive))
       (Run.loaded true) =
     Some (tt, Run.loaded true)
  /\ do_calls (H := Toy.native true)
       (replicate (Z.to_nat 4294967296) (CALL_get_ref 1%positive)
        ++ [CALL_destroy 1%positive]) (Run.loaded true) =
     Some (tt, released (H := Toy.native true) (Run.loaded true)
                 1%positive 1%positive)
  /\ do_calls (H := Toy.native true)
       (replicate (Z.to_nat 4294967296) (CALL_get_ref 1%positive)
        ++ replicate (Z.to_nat 4294967296) (CALL_destroy 1%positive))
       (Run.loaded true) = None.
Proof.
  split; [apply loaded_key_at|].
  assert (Hn : ((1 + Z.of_nat (Z.to_nat 4294967296)) mod 4294967296 = 1)%Z)
    by (rewrite Z2Nat.id by lia; reflexivity).
  assert (H2 : (2 <= Z.to_nat 4294967296)%nat) by lia.
  exact (wrapped_count_run (H := Toy.native true) (Run.loaded true)
           1%positive 1%positive Toy.Q (Z.to_nat 4294967296)
           (loaded_key_at true) Hn H2).
Qed.

(** ** Runs for the further properties *)

Lemma calls_reach_cached :
  do_calls (H := Toy.native true) Run.calls empty_world =
    Some (tt, Run.cached).
Proof. reflexivity. Qed.

(** X2, on a run: the state with one key and one cached fingerprint. *)
Lemma reachable_objects_and_keys_correspond_witness :
  do_calls (H := Toy.native true) Run.calls empty_world =
    Some (tt, Run.cached)
  /\ forall this o,
       objects Run.cached !! this = Some o ->
       exists e k, ec o = Some e /\ ec_keys Run.cached !! e = Some k.
Proof.
  split; [exact calls_reach_cached|].
  exact (proj1 (reachable_objects_and_keys_correspond (H := Toy.native true)
                  Run.calls Run.cached calls_reach_cached)).
Defined.

(** X3, on a run: [destroy] on the object of that state. *)
Lemma calls_on_live_objects_return_witness :
  do_calls (H := Toy.native true) Run.calls empty_world =
    Some (tt, Run.cached)
  /\ exists w',
       do_call (H := Toy.native true) (CALL_destroy 1%positive) Run.cached =
         Some (tt, w').
Proof.
  split; [exact calls_reach_cached|].
  apply (calls_on_live_objects_return (H := Toy.native true) Run.calls
           Run.cached (CALL_destroy 1%positive) calls_reach_cached).
  intros this [= <-]. eexists. reflexivity.
Defined.

(** X4, on a run: a reference is taken and given back and a fingerprint is
    asked for; nothing is freed. *)
Lemma key_unchanged_until_freed_witness :
  key_at (H := Toy.native true) (Run.loaded true) 1%positive 1%positive
         Toy.Q 1
  /\ do_calls (H := Toy.native true)
       [CALL_get_ref 1%positive; CALL_destroy 1%positive;
        CALL_get_fingerprint 1%positive KEY_ID_PUBKEY_SHA1]
       (Run.loaded true) = Some (tt, Run.cached)
  /\ exists l, freed Run.cached = freed (Run.loaded true) ++ l.
Proof.
  split; [apply loaded_key_at|].
  assert (Hcs : do_calls (H := Toy.native true)
                  [CALL_get_ref 1%positive; CALL_destroy 1%positive;
                   CALL_get_fingerprint 1%positive KEY_ID_PUBKEY_SHA1]
                  (Run.loaded true) = Some (tt, Run.cached)) by reflexivity.
  split; [exact Hcs|].
  destruct (key_unchanged_until_freed (H := Toy.native true) _ _ _
              1%positive 1%positive Toy.Q 1 (loaded_key_at true) Hcs)
    as (l & El & _).
  now exists l.
Defined.

(** X5, on a run: the cached fingerprint is the digest of the raw point. *)
Lemma fingerprint_is_that_of_the_key_witness :
  do_calls (H := Toy.native true) Run.calls empty_world =
    Some (tt, Run.cached)
  /\ key_at (H := Toy.native true) Run.cached 1%positive 1%positive Toy.Q 1
  /\ fst <$> get_fingerprint (H := Toy.native true) 1%positive
                             KEY_ID_PUBKEY_SHA1 Run.cached =
     Some (Some (Toy.digest 1 (Toy.i2o_pubkey Toy.Q))).
Proof.
  split; [exact calls_reach_cached|]. split; [exact cached_key_at|].
  exact (proj1 (fingerprint_is_that_of_the_key (H := Toy.native true)
                  Run.calls Run.cached 1%positive 1%positive Toy.Q 1
                  KEY_ID_PUBKEY_SHA1 calls_reach_cached cached_key_at)).
Defined.

(** X6, on a run: the signature (7, 17) of the data [x18] under
    SIGN_ECDSA_256. *)
Lemma verify_true_iff_witness :
  key_at (H := Toy.native true) (Run.loaded true) 1%positive 1%positive
         Toy.Q 1
  /\ fst <$> verify (H := Toy.native true) 1%positive SIGN_ECDSA_256 [x18]
                    Run.raw_sig (Run.loaded true) = Some true.
Proof.
  split; [apply loaded_key_at|].
  apply (proj1 (verify_true_iff (H := Toy.native true) (Run.loaded true)
                  1%positive 1%positive Toy.Q 1 SIGN_ECDSA_256 [x18]
                  Run.raw_sig (loaded_key_at true))).
  exists [x1a], {| sig_r := 7; sig_s := 17 |}.
  split; [reflexivity|]. split; [reflexivity|].
  split; [right; reflexivity|reflexivity].
Defined.

(** X7, on a run: SIGN_ECDSA_256 on [x18], whose digest is [x1a]. *)
Lemma verify_hashed_is_null_on_digest_witness :
  In SIGN_ECDSA_256 [SIGN_ECDSA_256; SIGN_ECDSA_384; SIGN_ECDSA_521]
  /\ signed_hash (H := Toy.native true) SIGN_ECDSA_256 [x18] = Some [x1a]
  /\ verify (H := Toy.native true) 1%positive SIGN_ECDSA_256 [x18]
            Run.raw_sig (Run.loaded true) =
     verify (H := Toy.native true) 1%positive SIGN_ECDSA_WITH_NULL [x1a]
            Run.raw_sig (Run.loaded true).
Proof.
  assert (Hin : In SIGN_ECDSA_256
                   [SIGN_ECDSA_256; SIGN_ECDSA_384; SIGN_ECDSA_521])
    by (simpl; tauto).
  split; [exact Hin|]. split; [reflexivity|].
  exact (verify_hashed_is_null_on_digest (H := Toy.native true)
           (Run.loaded true) 1%positive SIGN_ECDSA_256 [x18] [x1a]
           Run.raw_sig Hin eq_refl).
Defined.

(** X8, on a run: the DER and the raw encoding of the signature (7, 17). *)
Lemma verify_sha1_der_is_null_raw_witness :
  openssl_hash_chunk (Native := Toy.native true) NID_sha1 [x19] = Some [x1a]
  /\ d2i_ECDSA_SIG (Native := Toy.native true)
       (skip_zero_bytes Run.der_sig) = Some {| sig_r := 7; sig_s := 17 |}
  /\ openssl_bn_split Run.raw_sig = Some (7%Z, 17%Z)
  /\ ECDSA_SIG_new (Native := Toy.native true) = true
  /\ verify (H := Toy.native true) 1%positive SIGN_ECDSA_WITH_SHA1 [x19]
            Run.der_sig (Run.loaded true) =
     verify (H := Toy.native true) 1%positive SIGN_ECDSA_WITH_NULL [x1a]
            Run.raw_sig (Run.loaded true).
Proof.
  do 4 (split; [reflexivity|]).
  exact (verify_sha1_der_is_null_raw (H := Toy.native true)
           (Run.loaded true) 1%positive [x19] [x1a] Run.der_sig Run.raw_sig
           7 17 eq_refl eq_refl eq_refl eq_refl).
Defined.

(** X9, on a run: the key [Q] is encoded and built again. *)
Lemma encoding_round_trip_witness :
  do_calls (H := Toy.native true) Run.calls empty_world =
    Some (tt, Run.cached)
  /\ key_at (H := Toy.native true) Run.cached 1%positive 1%positive Toy.Q 1
  /\ d2i_EC_PUBKEY (Native := Toy.native true)
       (i2d_EC_PUBKEY (Native := Toy.native true) Toy.Q) = Some Toy.Q
  /\ exists b w',
       builder_adds (H := Toy.native true) new_builder
                    [(BUILD_BLOB_ASN1_DER, Toy.blob)] Run.cached =
         Some (b, w')
       /\ builder_build b = Some 2%positive
       /\ key_at (H := Toy.native true) w' 2%positive 2%positive Toy.Q 1.
Proof.
  split; [exact calls_reach_cached|]. split; [exact cached_key_at|].
  split; [reflexivity|].
  destruct (encoding_round_trip (H := Toy.native true) Run.calls Run.cached
              1%positive 1%positive Toy.Q 1 calls_reach_cached
              cached_key_at eq_refl)
    as (b & w' & this' & e' & _ & Hb & Hbuild & _ & _ & Hk' & _).
  exists b, w'. split; [exact Hb|].
  assert (E : Some (b, w') =
              Some ({| public := EC_PUBLIC_KEY_BUILDER;
                       key := Some 2%positive |},
                    World (K := Z * Z)
                      {[ 1%positive := {| ec := Some 1%positive; ref := 1 |};
                         2%positive := {| ec := Some 2%positive; ref := 1 |} ]}
                      {[ 1%positive := Toy.Q; 2%positive := Toy.Q ]}
                      {[ (KEY_ID_PUBKEY_SHA1, 1%positive) := [x0b] ]}
                      [] []))
    by (rewrite <- Hb; reflexivity).
  injection E as -> ->. split; [reflexivity|]. split; reflexivity.
Defined.

(** X10, on a run. *)
Lemma get_ref_then_destroy_witness :
  key_at (H := Toy.native true) (Run.loaded true) 1%positive 1%positive
         Toy.Q 1
  /\ bind (get_ref (H := Toy.native true) 1%positive)
          (fun _ => destroy (H := Toy.native true) 1%positive)
          (Run.loaded true) = Some (tt, Run.loaded true).
Proof.
  split; [apply loaded_key_at|].
  apply (get_ref_then_destroy (H := Toy.native true) (Run.loaded true)
           1%positive 1%positive Toy.Q 1 (loaded_key_at true)).
  lia.
Defined.

(** X11, on a run: the first [get_fingerprint] on the loaded key. *)
Lemma observers_keep_the_heap_witness :
  do_call (H := Toy.native true)
          (CALL_get_fingerprint 1%positive KEY_ID_PUBKEY_SHA1)
          (Run.loaded true) = Some (tt, Run.cached)
  /\ objects Run.cached = objects (Run.loaded true)
  /\ ec_keys Run.cached = ec_keys (Run.loaded true).
Proof.
  assert (Hc : do_call (H := Toy.native true)
                 (CALL_get_fingerprint 1%positive KEY_ID_PUBKEY_SHA1)
                 (Run.loaded true) = Some (tt, Run.cached)) by reflexivity.
  split; [exact Hc|].
  destruct (observers_keep_the_heap (H := Toy.native true) _ _ _ Hc)
    as (Ho & Hk & _).
  split; [exact Ho|exact Hk].
Defined.

(** X12, on a run: a key is built and one more part is added. *)
Lemma builder_keeps_the_state_reachable_witness :
  do_calls (H := Toy.native true) Run.calls empty_world =
    Some (tt, Run.cached)
  /\ exists b' w',
       builder_adds (H := Toy.native true) new_builder
                    [(BUILD_BLOB_ASN1_DER, Run.blob_G);
                     (BUILD_OTHER 7, chunk_empty)] Run.cached =
         Some (b', w')
       /\ consistent (H := Toy.native true) w'.
Proof.
  split; [exact calls_reach_cached|].
  assert (Ha : builder_adds (H := Toy.native true) new_builder
                 [(BUILD_BLOB_ASN1_DER, Run.blob_G);
                  (BUILD_OTHER 7, chunk_empty)] Run.cached =
               Some ({| public := CANCELLED_BUILDER;
                        key := Some 2%positive |},
                     World (K := Z * Z)
                       {[ 1%positive := {| ec := Some 1%positive; ref := 1 |} ]}
                       {[ 1%positive := Toy.Q ]}
                       {[ (KEY_ID_PUBKEY_SHA1, 1%positive) := [x0b] ]}
                       [2%positive] [])) by reflexivity.
  eexists _, _. split; [exact Ha|].
  exact (proj1 (proj2 (builder_keeps_the_state_reachable
                         (H := Toy.native true) Run.calls Run.cached
                         new_builder _ _ _ calls_reach_cached Ha))).
Defined.
